(** * proyecto_bsg: batch triggering, deduplicating load and ETL orchestration

    A shallow embedding of the ETL core of the repository
    ([etl_system/batch_manager.py], [etl_system/extractor.py],
    [etl_system/loader.py], [scripts/run_etl.py]) and of the detection-id
    derivation ([classification_system/detector.py]), followed by the
    properties of the design document that concern them.

    Conventions.
    - Python [int] is [Z]; [len] results are [nat].
    - A [datetime] is the number of microseconds since the epoch (the
      resolution of [datetime]); [isoformat]/[fromisoformat] round-trip at
      that resolution, so the state stores the number itself.
      [timedelta.total_seconds() >= w] is read as the exact comparison
      [w * 10^6 <= elapsed microseconds].
    - [datetime.now()] is an explicit argument [now] of every operation that
      reads the clock.
    - An exception is the [Raised] outcome of a [Result]. *)

From Stdlib Require Import ZArith List Lia.
From stdpp Require Import base list strings pretty.

Local Open Scope string_scope.
Local Open Scope list_scope.
Local Open Scope Z_scope.

(** ** Outcomes *)

Inductive Exn :=
| KeyError (key : string)
| ValueError (what : string)
| HiveError (what : string)
| OtherError (what : string).

Inductive Result (A : Type) :=
| Ok (a : A)
| Raised (e : Exn).
Arguments Ok {A} a.
Arguments Raised {A} e.

(** [Result] is the error monad; [x ← r; k] stops at the first [Raised]. *)
Global Instance Result_ret : MRet Result := fun _ a => Ok a.
Global Instance Result_bind : MBind Result := fun _ _ k r =>
  match r with
  | Ok a => k a
  | Raised e => Raised e
  end.

Definition Time := Z.

(** ** etl_system/batch_manager.py : BatchManager *)

Module BatchManager.

Record Statistics := mkStatistics {
  total_batches : Z;
  total_records : Z;
  video_batches : Z;
  image_batches : Z
}.

(** The dictionary [self.state]. *)
Record State := mkState {
  processed_files : list string;
  last_video_batch : option Time;
  pending_images : list string;
  last_run : option Time;
  statistics : Statistics
}.

(** The manager: its two configured thresholds and its state.  The state
    file only mirrors [state] ([_save_state] swallows its own errors and
    never changes the dictionary), so it is not part of the model. *)
Record t := mk {
  video_time_window : Z;
  image_batch_size : Z;
  state : State
}.

(** The state [_load_state] synthesises when there is no state file;
    [reset_state] installs the same value. *)
Definition default_state : State :=
  {| processed_files := [];
     last_video_batch := None;
     pending_images := [];
     last_run := None;
     statistics := mkStatistics 0 0 0 0 |}.

Definition init (window batch_size : Z) : t :=
  mk window batch_size default_state.

Definition with_state (bm : t) (s : State) : t :=
  mk (video_time_window bm) (image_batch_size bm) s.

Definition microseconds : Z := 1000000.

Definition should_process_video_batch (bm : t) (now : Time) : bool :=
  match last_video_batch (state bm) with
  | None => true
  | Some last_batch =>
      let time_elapsed := now - last_batch in
      video_time_window bm * microseconds <=? time_elapsed
  end.

Definition should_process_image_batch (bm : t) (pending_count : Z) : bool :=
  image_batch_size bm <=? pending_count.

(** One turn of the loop of [mark_files_processed]. *)
Definition mark_file (processed : list string) (filename : string) : list string :=
  if bool_decide (filename ∈ processed) then processed
  else processed ++ [filename].

Definition mark_files_processed (filenames : list string) (s : State) : State :=
  {| processed_files := fold_left mark_file filenames (processed_files s);
     last_video_batch := last_video_batch s;
     pending_images := pending_images s;
     last_run := last_run s;
     statistics := statistics s |}.

Definition update_video_batch_time (now : Time) (s : State) : State :=
  {| processed_files := processed_files s;
     last_video_batch := Some now;
     pending_images := pending_images s;
     last_run := last_run s;
     statistics :=
       let st := statistics s in
       mkStatistics (total_batches st) (total_records st)
                    (video_batches st + 1) (image_batches st) |}.

Definition update_image_batch_processed (count : Z) (s : State) : State :=
  {| processed_files := processed_files s;
     last_video_batch := last_video_batch s;
     pending_images := [];
     last_run := last_run s;
     statistics :=
       let st := statistics s in
       mkStatistics (total_batches st) (total_records st)
                    (video_batches st) (image_batches st + 1) |}.

Definition update_statistics (records_processed : Z) (now : Time) (s : State) : State :=
  {| processed_files := processed_files s;
     last_video_batch := last_video_batch s;
     pending_images := pending_images s;
     last_run := Some now;
     statistics :=
       let st := statistics s in
       mkStatistics (total_batches st + 1)
                    (total_records st + records_processed)
                    (video_batches st) (image_batches st) |}.

Definition startswith (prefix s : string) : bool :=
  String.prefix prefix s.

(** [source_type] is [None] for the Python default; an empty string is
    falsy and filters nothing either. *)
Definition get_pending_files (s : State) (all_files : list string)
    (source_type : option string) : list string :=
  let pending :=
    filter (fun f => f ∉ processed_files s) all_files in
  match source_type with
  | Some ty =>
      if bool_decide (ty = "") then pending
      else filter (fun f => startswith (ty +:+ "_") f = true) pending
  | None => pending
  end.

Definition reset_state (s : State) : State := default_state.

Definition max_files : nat := 10000.

(** [processed_files[-max_files:]] keeps the last [max_files] names. *)
Definition cleanup_old_state (days_to_keep : Z) (s : State) : State :=
  if (max_files <? length (processed_files s))%nat then
    {| processed_files :=
         drop (length (processed_files s) - max_files)%nat (processed_files s);
       last_video_batch := last_video_batch s;
       pending_images := pending_images s;
       last_run := last_run s;
       statistics := statistics s |}
  else s.

(** The public operations of the class, as a command language: a sequence
    of calls on one manager is a list of [Op]. *)
Inductive Op :=
| ShouldProcessVideoBatch (now : Time)
| ShouldProcessImageBatch (pending_count : Z)
| MarkFilesProcessed (filenames : list string)
| UpdateVideoBatchTime (now : Time)
| UpdateImageBatchProcessed (count : Z)
| UpdateStatistics (records_processed : Z) (now : Time)
| GetPendingFiles (all_files : list string) (source_type : option string)
| GetStatistics (now : Time)
| ResetState
| CleanupOldState (days_to_keep : Z).

Definition step (s : State) (op : Op) : State :=
  match op with
  | ShouldProcessVideoBatch _ => s
  | ShouldProcessImageBatch _ => s
  | MarkFilesProcessed fs => mark_files_processed fs s
  | UpdateVideoBatchTime now => update_video_batch_time now s
  | UpdateImageBatchProcessed c => update_image_batch_processed c s
  | UpdateStatistics n now => update_statistics n now s
  | GetPendingFiles _ _ => s
  | GetStatistics _ => s
  | ResetState => reset_state s
  | CleanupOldState d => cleanup_old_state d s
  end.

Definition run_ops (ops : list Op) (s : State) : State :=
  fold_left step ops s.

Definition is_reset (op : Op) : bool :=
  match op with ResetState => true | _ => false end.

Definition is_cleanup (op : Op) : bool :=
  match op with CleanupOldState _ => true | _ => false end.

End BatchManager.

(** ** The pandas operations the ETL code uses *)

Module Pandas.

(** A cell.  Floats are carried by their IEEE-754 bit pattern: the ETL
    core never computes with them. *)
Inductive Value :=
| VNone
| VStr (s : string)
| VInt (n : Z)
| VFloat (bits : Z).

Global Instance Value_eq_dec : EqDecision Value.
Proof. solve_decision. Defined.

Definition NaN : Value := VFloat 0x7FF8000000000000.

(** A frame is column-major, as in pandas: an ordered list of labelled
    columns.  Labels may repeat ([rename] can produce that), and the
    number of rows is kept apart because a frame without columns still
    has an index. *)
Record DataFrame := mkDataFrame {
  nrows : nat;
  columns : list (string * list Value)
}.

Definition labels (df : DataFrame) : list string := (columns df).*1.

(** [pd.DataFrame()] *)
Definition empty_frame : DataFrame := mkDataFrame 0 [].

(** [df.empty]: some axis has length 0. *)
Definition empty (df : DataFrame) : bool :=
  (nrows df =? 0)%nat || bool_decide (columns df = []).

(** [label in df.columns] *)
Definition has_column (label : string) (df : DataFrame) : bool :=
  bool_decide (label ∈ labels df).

(** [df[label]]: the data of every column carrying the label.  The empty
    list is pandas' [KeyError], one element is a Series, more is a frame. *)
Definition getitem (label : string) (df : DataFrame) : list (list Value) :=
  (filter (fun c => c.1 = label) (columns df)).*2.

(** [df[label] = data]: an existing label is overwritten in place (every
    column carrying it), a new one is appended. *)
Definition setitem (label : string) (data : list Value) (df : DataFrame) : DataFrame :=
  if has_column label df then
    mkDataFrame (nrows df)
      (map (fun c => if bool_decide (c.1 = label) then (label, data) else c)
           (columns df))
  else
    mkDataFrame (nrows df) (columns df ++ [(label, data)]).

(** [df[label] = scalar] *)
Definition setitem_scalar (label : string) (v : Value) (df : DataFrame) : DataFrame :=
  setitem label (replicate (nrows df) v) df.

(** [df.rename(columns={old: new})]: labels change where they stand, and
    nothing checks that [new] is free. *)
Definition rename (old new : string) (df : DataFrame) : DataFrame :=
  mkDataFrame (nrows df)
    (map (fun c => if bool_decide (c.1 = old) then (new, c.2) else c)
         (columns df)).

(** [df[[l1, l2, ...]]]: for each requested label in turn, every column
    that carries it; a label that is absent raises. *)
Fixpoint select_columns (wanted : list string) (cols : list (string * list Value))
    : Result (list (string * list Value)) :=
  match wanted with
  | [] => Ok []
  | l :: wanted' =>
      match filter (fun c => c.1 = l) cols with
      | [] => Raised (KeyError l)
      | found => rest ← select_columns wanted' cols; Ok (found ++ rest)
      end
  end.

Definition select (wanted : list string) (df : DataFrame) : Result DataFrame :=
  cols ← select_columns wanted (columns df);
  Ok (mkDataFrame (nrows df) cols).

(** The entries of [data] at the positions where [mask] is true. *)
Definition mask_filter {A} (mask : list bool) (data : list A) : list A :=
  (filter (fun p => p.1 = true) (zip mask data)).*2.

(** [df[mask]] for a boolean Series [mask]. *)
Definition filter_rows (mask : list bool) (df : DataFrame) : DataFrame :=
  mkDataFrame (length (filter (fun b => b = true) mask))
    (map (fun c => (c.1, mask_filter mask c.2)) (columns df)).

(** Row [i], and all rows in index order ([df.iterrows()], and the lines
    [to_csv] writes after the header). *)
Definition row (df : DataFrame) (i : nat) : list Value :=
  map (fun c => nth i c.2 VNone) (columns df).

Definition rows (df : DataFrame) : list (list Value) :=
  map (row df) (seq 0 (nrows df)).

(** Every column holds one cell per row. *)
Definition well_formed (df : DataFrame) : Prop :=
  Forall (fun c => length c.2 = nrows df) (columns df).

(** Labels in order of first appearance. *)
Definition add_label (acc : list string) (l : string) : list string :=
  if bool_decide (l ∈ acc) then acc else acc ++ [l].

Definition union_labels (dfs : list DataFrame) : list string :=
  fold_left add_label (concat (map labels dfs)) [].

(** The cells one frame contributes to column [l] of an outer join. *)
Definition cells_for (l : string) (df : DataFrame) : list Value :=
  match getitem l df with
  | d :: _ => d
  | [] => replicate (nrows df) NaN
  end.

(** [pd.concat(dfs, ignore_index=True)].  Frames with the same labels are
    stacked position by position; otherwise the columns are the union of
    the labels, absent cells are NaN, and a frame with a repeated label
    cannot be re-indexed. *)
Definition concat_frames (dfs : list DataFrame) : Result DataFrame :=
  match dfs with
  | [] => Raised (ValueError "No objects to concatenate")
  | df0 :: rest =>
      let total := foldr (fun d n => (nrows d + n)%nat) 0%nat dfs in
      if bool_decide (Forall (fun d => labels d = labels df0) rest) then
        Ok (mkDataFrame total
              (imap (fun i c =>
                       (c.1, concat (map (fun d =>
                                 match columns d !! i with
                                 | Some c' => c'.2
                                 | None => []
                                 end) dfs)))
                    (columns df0)))
      else if bool_decide (Forall (fun d => NoDup (labels d)) dfs) then
        Ok (mkDataFrame total
              (map (fun l => (l, concat (map (cells_for l) dfs)))
                   (union_labels dfs)))
      else Raised (ValueError "Reindexing only valid with uniquely valued Index objects")
  end.

End Pandas.

(** ** Library functions and collaborators outside the modelled code *)

(** What the ETL core calls but does not define: the date formatting of
    [datetime] and pandas, and the transformer, whose module is not part of
    the verified sources.  They are parameters of the model. *)
Record External := mkExternal {
  (** [t.isoformat()] *)
  isoformat : Time -> string;
  (** [t.strftime("%Y-%m-%d")] *)
  strftime_day : Time -> string;
  (** [pd.to_datetime(series).dt.strftime("%Y-%m-%d")]; [None] when pandas
      raises on the column. *)
  to_datetime_day : list Pandas.Value -> option (list Pandas.Value);
  (** [DataTransformer.transform_pipeline(df, add_features=True)] *)
  transform_pipeline : Pandas.DataFrame -> Result Pandas.DataFrame;
  (** [DataTransformer.get_transformation_stats(raw, transformed)], as far
      as the caller depends on it: whether the call and the three lookups in
      its result succeed. *)
  get_transformation_stats : Pandas.DataFrame -> Pandas.DataFrame -> Result unit
}.

(** ** etl_system/loader.py : HiveLoader *)

Module HiveLoader.
Import Pandas.

(** The warehouse table: the stored rows, in the column order of
    [create_detections_table], whose first column is [detection_id].
    The text encoding of cells on their way to Hive (CSV, SQL literals) is
    not modelled: a stored row holds the cells of the written row. *)
Definition Table := list (list Value).

Definition detection_id_of (r : list Value) : Value := hd VNone r.

(** How the warehouse answers during one load: each field tells whether
    the corresponding call returns or raises. *)
Record HiveIO := mkHiveIO {
  (** [get_connection] + [pd.read_sql] in [get_existing_detection_ids] *)
  read_sql_ok : bool;
  (** creating the temporary CSV file in [load_batch] *)
  to_csv_ok : bool;
  (** [get_connection] + [conn.cursor()] in [load_batch] *)
  connection_ok : bool;
  (** [cursor.execute(load_sql)] *)
  load_data_ok : bool;
  (** [cursor.execute(insert_sql)] for the chunk starting at [start_idx] *)
  insert_ok : nat -> bool
}.

Definition rename_map : list (string * string) :=
  [ ("timestamp", "detection_timestamp");
    ("filename", "source_filename");
    ("_extracted_at", "extracted_at");
    ("_processed_at", "processed_at");
    ("_loaded_at", "loaded_at");
    ("_source_file", "source_csv_file") ].

Definition expected_columns : list string :=
  [ "detection_id"; "source_type"; "source_file"; "source_filename";
    "detection_timestamp"; "frame_number"; "frame_timestamp"; "class_id";
    "class_name"; "confidence"; "bbox_x1"; "bbox_y1"; "bbox_x2"; "bbox_y2";
    "bbox_width"; "bbox_height"; "bbox_area"; "center_x"; "center_y";
    "normalized_x1"; "normalized_y1"; "normalized_x2"; "normalized_y2";
    "aspect_ratio"; "relative_area"; "image_width"; "image_height";
    "detection_index"; "size_category"; "confidence_category";
    "horizontal_position"; "vertical_position"; "extracted_at";
    "processed_at"; "loaded_at"; "source_csv_file"; "processing_date" ].

(** One turn of the renaming loop. *)
Definition rename_step (df : DataFrame) (entry : string * string) : DataFrame :=
  if has_column entry.1 df then rename entry.1 entry.2 df else df.

(** One turn of the loop that adds the missing expected columns. *)
Definition add_missing (df : DataFrame) (col : string) : DataFrame :=
  if has_column col df then df else setitem_scalar col VNone df.

(** [range(0, n, step)] *)
Definition range_step (n step : nat) : list nat :=
  map (fun k => (k * step)%nat) (seq 0 ((n + step - 1) / step)).

(** [rows[start:stop]] *)
Definition slice {A} (start stop : nat) (l : list A) : list A :=
  take (stop - start) (drop start l).

Definition chunk_size : nat := 100.

(** One turn of the fallback loop: the chunk is stored and counted when
    its INSERT succeeds, and skipped when it fails. *)
Definition insert_chunk (io : HiveIO) (all_rows : list (list Value))
    (acc : nat * Table) (start_idx : nat) : nat * Table :=
  let end_idx := Nat.min (start_idx + chunk_size) (length all_rows) in
  let batch := slice start_idx end_idx all_rows in
  if insert_ok io start_idx then ((acc.1 + length batch)%nat, acc.2 ++ batch)
  else acc.

(** The [try] block of [load_batch]: the bulk load, and on its failure
    the chunked inserts. *)
Definition write_rows (io : HiveIO) (df : DataFrame) (table : Table)
    : Result (nat * Table) :=
  if negb (to_csv_ok io) then Raised (OtherError "to_csv")
  else if negb (connection_ok io) then Raised (HiveError "connection")
  else if load_data_ok io then Ok (nrows df, table ++ rows df)
  else Ok (fold_left (insert_chunk io (rows df))
                     (range_step (nrows df) chunk_size) (0%nat, table)).

Definition get_existing_detection_ids (io : HiveIO) (table : Table) : list Value :=
  if read_sql_ok io then map detection_id_of table else [].

Section WithExternal.
Variable ext : External.

(** The choice of [processing_date]. *)
Definition add_processing_date (now : Time) (df : DataFrame) : Result DataFrame :=
  let from_column label :=
    match getitem label df with
    | [data] =>
        match to_datetime_day ext data with
        | Some days => Ok (setitem "processing_date" days df)
        | None => Raised (ValueError "to_datetime")
        end
    | _ => Raised (ValueError "to assemble mappings requires at least that [year, month, day] be specified")
    end in
  if has_column "detection_timestamp" df then from_column "detection_timestamp"
  else if has_column "timestamp" df then from_column "timestamp"
  else Ok (setitem_scalar "processing_date" (VStr (strftime_day ext now)) df).

(** The frame [load_batch] builds before it touches the warehouse. *)
Definition prepare (now : Time) (df : DataFrame) : Result DataFrame :=
  let df := setitem_scalar "loaded_at" (VStr (isoformat ext now)) df in
  let df := fold_left rename_step rename_map df in
  df ← add_processing_date now df;
  let df := fold_left add_missing expected_columns df in
  select expected_columns df.

(** [load_batch] returns the number of rows loaded; the model returns
    the table after the call with it. *)
Definition load_batch (io : HiveIO) (now : Time) (df : DataFrame) (table : Table)
    : Result (nat * Table) :=
  if empty df then Ok (0%nat, table)
  else
    df ← prepare now df;
    write_rows io df table.

(** The row mask [~df["detection_id"].isin(existing_ids)]. *)
Definition novel_mask (existing_ids ids : list Value) : list bool :=
  map (fun v => negb (bool_decide (v ∈ existing_ids))) ids.

(** With a repeated [detection_id] label the mask is a frame and
    [df[mask]] is not a row selection; pandas rejects the misaligned
    condition. *)
Definition load_with_deduplication (io : HiveIO) (now : Time) (df : DataFrame)
    (table : Table) : Result (nat * Table) :=
  if empty df then Ok (0%nat, table)
  else
    let existing_ids := get_existing_detection_ids io table in
    match getitem "detection_id" df with
    | [] => Raised (KeyError "detection_id")
    | [ids] =>
        let df_new := filter_rows (novel_mask existing_ids ids) df in
        if empty df_new then Ok (0%nat, table)
        else load_batch io now df_new table
    | _ => Raised (ValueError "Array conditional must be same shape as self")
    end.

End WithExternal.

(** [df_new]: the batch after the dedup filter, for a batch whose id
    column is [ids]. *)
Definition filtered (io : HiveIO) (table : Table) (ids : list Value)
    (df : DataFrame) : DataFrame :=
  filter_rows (novel_mask (get_existing_detection_ids io table) ids) df.

(** The table a load leaves behind: an exception, in [load_batch], comes
    before any write. *)
Definition table_after (r : Result (nat * Table)) (table : Table) : Table :=
  match r with
  | Ok (_, table') => table'
  | Raised _ => table
  end.

End HiveLoader.

(** ** etl_system/extractor.py : DataExtractor *)

Module DataExtractor.
Import Pandas.

(** A file of the staging directory: its name and what [pd.read_csv]
    makes of it ([None] when it raises). *)
Record StagedFile := mkStagedFile {
  name : string;
  content : option DataFrame
}.

Record Categorized := mkCategorized {
  video : list StagedFile;
  image : list StagedFile;
  unknown : list StagedFile
}.

Definition startswith (prefix s : string) : bool := String.prefix prefix s.

Definition endswith (suffix s : string) : bool :=
  String.prefix (String.rev suffix) (String.rev s).

(** One turn of the classifying loop. *)
Definition categorize (acc : Categorized) (file : StagedFile) : Categorized :=
  if startswith "video_" (name file) then
    mkCategorized (video acc ++ [file]) (image acc) (unknown acc)
  else if startswith "image_" (name file) then
    mkCategorized (video acc) (image acc ++ [file]) (unknown acc)
  else
    mkCategorized (video acc) (image acc) (unknown acc ++ [file]).

(** [staging] lists the directory in the order [glob] yields it. *)
Definition scan_staging_files (staging : list StagedFile) : Categorized :=
  let csv_files := filter (fun f => endswith ".csv" (name f) = true) staging in
  fold_left categorize csv_files (mkCategorized [] [] []).

Section WithExternal.
Variable ext : External.

Definition extract_csv (now : Time) (file : StagedFile) : Result DataFrame :=
  match content file with
  | Some df =>
      let df := setitem_scalar "_extracted_at" (VStr (isoformat ext now)) df in
      Ok (setitem_scalar "_source_file" (VStr (name file)) df)
  | None => Raised (OtherError "read_csv")
  end.

(** One turn of the loop of [extract_multiple]: a file that cannot be
    read is skipped. *)
Definition extract_step (now : Time) (dataframes : list DataFrame)
    (file : StagedFile) : list DataFrame :=
  match extract_csv now file with
  | Ok df => dataframes ++ [df]
  | Raised _ => dataframes
  end.

Definition extract_multiple (now : Time) (filepaths : list StagedFile)
    : Result DataFrame :=
  match fold_left (extract_step now) filepaths [] with
  | [] => Ok empty_frame
  | dataframes => concat_frames dataframes
  end.

End WithExternal.

End DataExtractor.

(** ** scripts/run_etl.py : the pipeline, and BatchScheduler.run *)

Module RunEtl.
Import Pandas.

Inductive SourceType := Video | Image.

Definition source_type_name (ty : SourceType) : string :=
  match ty with Video => "video" | Image => "image" end.

Global Instance SourceType_eq_dec : EqDecision SourceType.
Proof. solve_decision. Defined.

(** The steps of one invocation that the log announces. *)
Inductive Phase := Extract | Transform | Load | UpdateState.

Global Instance Phase_eq_dec : EqDecision Phase.
Proof. solve_decision. Defined.

(** The clock readings of one invocation. *)
Record Clock := mkClock {
  at_extract : Time;
  at_load : Time;
  at_statistics : Time;
  at_video_batch : Time
}.

(** What one invocation finds outside the process. *)
Record Invocation := mkInvocation {
  staging : list DataExtractor.StagedFile;
  hive : HiveLoader.HiveIO;
  clock : Clock
}.

Record Outcome := mkOutcome {
  (** [Ok] when the function returns, [Raised] when it re-raises *)
  result : Result unit;
  (** the steps entered, in order *)
  phases : list Phase;
  manager_after : BatchManager.t;
  table_after : HiveLoader.Table
}.

Definition files_of (ty : SourceType) (c : DataExtractor.Categorized)
    : list DataExtractor.StagedFile :=
  match ty with
  | Video => DataExtractor.video c
  | Image => DataExtractor.image c
  end.

(** Step 4 of the pipeline, the only place that changes the manager. *)
Definition update_state (ty : SourceType) (ck : Clock) (pending_files : list string)
    (loaded_count : nat) (s : BatchManager.State) : BatchManager.State :=
  let s := BatchManager.mark_files_processed pending_files s in
  let s := BatchManager.update_statistics (Z.of_nat loaded_count) (at_statistics ck) s in
  match ty with
  | Video => BatchManager.update_video_batch_time (at_video_batch ck) s
  | Image =>
      BatchManager.update_image_batch_processed (Z.of_nat (length pending_files)) s
  end.

Section WithExternal.
Variable ext : External.

(** [loader.get_table_stats()] at the end only feeds the log and catches
    its own errors, so it does not appear. *)
Definition run_etl_pipeline (ty : SourceType) (inv : Invocation)
    (bm : BatchManager.t) (table : HiveLoader.Table) : Outcome :=
  let ck := clock inv in
  let all_files := files_of ty (DataExtractor.scan_staging_files (staging inv)) in
  let pending_files :=
    BatchManager.get_pending_files (BatchManager.state bm)
      (map DataExtractor.name all_files) (Some (source_type_name ty)) in
  if bool_decide (pending_files = []) then mkOutcome (Ok ()) [] bm table
  else
    let files_to_process :=
      filter (fun f => DataExtractor.name f ∈ pending_files) all_files in
    match DataExtractor.extract_multiple ext (at_extract ck) files_to_process with
    | Raised e => mkOutcome (Raised e) [Extract] bm table
    | Ok df_raw =>
        if empty df_raw then mkOutcome (Ok ()) [Extract] bm table
        else
          match
            df_transformed ← transform_pipeline ext df_raw;
            _ ← get_transformation_stats ext df_raw df_transformed;
            Ok df_transformed
          with
          | Raised e => mkOutcome (Raised e) [Extract; Transform] bm table
          | Ok df_transformed =>
              match HiveLoader.load_with_deduplication ext (hive inv)
                      (at_load ck) df_transformed table with
              | Raised e => mkOutcome (Raised e) [Extract; Transform; Load] bm table
              | Ok (loaded_count, table') =>
                  mkOutcome (Ok ()) [Extract; Transform; Load; UpdateState]
                    (BatchManager.with_state bm
                       (update_state ty ck pending_files loaded_count
                          (BatchManager.state bm)))
                    table'
              end
          end
    end.

(** The one-shot branch of [main]: [None] is [--source-type all].  An
    exception ends the process, so the image run does not follow a video
    run that raised.  The result lists the invocations made. *)
Definition run_once (source_type : option SourceType)
    (video_inv image_inv : Invocation)
    (bm : BatchManager.t) (table : HiveLoader.Table)
    : list (SourceType * Outcome) :=
  match source_type with
  | Some Video => [(Video, run_etl_pipeline Video video_inv bm table)]
  | Some Image => [(Image, run_etl_pipeline Image image_inv bm table)]
  | None =>
      let o := run_etl_pipeline Video video_inv bm table in
      match result o with
      | Raised _ => [(Video, o)]
      | Ok _ =>
          [(Video, o);
           (Image, run_etl_pipeline Image image_inv (manager_after o) (table_after o))]
      end
  end.

(** What one turn of the poll loop finds. *)
Record Tick := mkTick {
  video_check_at : Time;
  video_invocation : Invocation;
  image_invocation : Invocation
}.

Record SchedulerState := mkSchedulerState {
  (** the callbacks invoked so far, oldest first *)
  callbacks : list SourceType;
  manager : BatchManager.t;
  table : HiveLoader.Table
}.

(** The body of the [while] loop of [BatchScheduler.run] with
    [etl_callback] as [main] defines it.  An exception of the video
    callback is caught by the loop's handler, which ends the turn before
    the image check. *)
Definition scheduler_turn (st : SchedulerState) (tick : Tick) : SchedulerState :=
  let bm := manager st in
  let after_video :=
    if BatchManager.should_process_video_batch bm (video_check_at tick) then
      let o := run_etl_pipeline Video (video_invocation tick) bm (table st) in
      (result o,
       mkSchedulerState (callbacks st ++ [Video]) (manager_after o) (table_after o))
    else (Ok (), st) in
  match after_video.1 with
  | Raised _ => after_video.2
  | Ok _ =>
      let st := after_video.2 in
      let bm := manager st in
      let pending_images :=
        Z.of_nat (length (BatchManager.pending_images (BatchManager.state bm))) in
      if BatchManager.should_process_image_batch bm pending_images then
        let o := run_etl_pipeline Image (image_invocation tick) bm (table st) in
        mkSchedulerState (callbacks st ++ [Image]) (manager_after o) (table_after o)
      else st
  end.

(** The loop, for as many turns as [ticks] describes. *)
Definition scheduler_run (ticks : list Tick) (bm : BatchManager.t)
    (table : HiveLoader.Table) : SchedulerState :=
  fold_left scheduler_turn ticks (mkSchedulerState [] bm table).

End WithExternal.

(** What the poll loop keeps true from turn to turn when it starts with
    no pending image and a threshold [N]. *)
Definition no_image_run (N : Z) (st : SchedulerState) : Prop :=
  BatchManager.pending_images (BatchManager.state (manager st)) = []
  /\ BatchManager.image_batch_size (manager st) = N
  /\ Image ∉ callbacks st.

End RunEtl.

(** ** hashlib.md5 (RFC 1321) *)

Module MD5.

(** A 32-bit word is a [Z] in [[0, 2^32)]; additions wrap. *)
Definition word (x : Z) : Z := x mod 2 ^ 32.

Definition not32 (x : Z) : Z := Z.lxor x 0xFFFFFFFF.

Definition leftrotate (x c : Z) : Z :=
  word (Z.lor (Z.shiftl x c) (Z.shiftr x (32 - c))).

Definition s : list Z :=
  [ 7; 12; 17; 22; 7; 12; 17; 22; 7; 12; 17; 22; 7; 12; 17; 22;
    5; 9; 14; 20; 5; 9; 14; 20; 5; 9; 14; 20; 5; 9; 14; 20;
    4; 11; 16; 23; 4; 11; 16; 23; 4; 11; 16; 23; 4; 11; 16; 23;
    6; 10; 15; 21; 6; 10; 15; 21; 6; 10; 15; 21; 6; 10; 15; 21 ].

(** [K[i] = floor(2^32 * |sin (i + 1)|)] *)
Definition K : list Z :=
  [ 0xd76aa478; 0xe8c7b756; 0x242070db; 0xc1bdceee;
    0xf57c0faf; 0x4787c62a; 0xa8304613; 0xfd469501;
    0x698098d8; 0x8b44f7af; 0xffff5bb1; 0x895cd7be;
    0x6b901122; 0xfd987193; 0xa679438e; 0x49b40821;
    0xf61e2562; 0xc040b340; 0x265e5a51; 0xe9b6c7aa;
    0xd62f105d; 0x02441453; 0xd8a1e681; 0xe7d3fbc8;
    0x21e1cde6; 0xc33707d6; 0xf4d50d87; 0x455a14ed;
    0xa9e3e905; 0xfcefa3f8; 0x676f02d9; 0x8d2a4c8a;
    0xfffa3942; 0x8771f681; 0x6d9d6122; 0xfde5380c;
    0xa4beea44; 0x4bdecfa9; 0xf6bb4b60; 0xbebfbc70;
    0x289b7ec6; 0xeaa127fa; 0xd4ef3085; 0x04881d05;
    0xd9d4d039; 0xe6db99e5; 0x1fa27cf8; 0xc4ac5665;
    0xf4292244; 0x432aff97; 0xab9423a7; 0xfc93a039;
    0x655b59c3; 0x8f0ccc92; 0xffeff47d; 0x85845dd1;
    0x6fa87e4f; 0xfe2ce6e0; 0xa3014314; 0x4e0811a1;
    0xf7537e82; 0xbd3af235; 0x2ad7d2bb; 0xeb86d391 ].

(** The bytes of a string.  A Rocq string is a sequence of 8-bit
    characters, read here as the UTF-8 encoding [str.encode()] yields. *)
Definition encode (str : string) : list Z :=
  map (fun c => Z.of_N (Ascii.N_of_ascii c)) (String.list_ascii_of_string str).

(** The [n] low bytes of [x], least significant first. *)
Definition le_bytes (n : nat) (x : Z) : list Z :=
  map (fun i => Z.shiftr x (8 * Z.of_nat i) mod 256) (seq 0 n).

Definition le_word (bytes : list Z) : Z :=
  foldr (fun b acc => b + 256 * acc) 0 bytes.

(** Padding: a 1 bit, zeros up to 56 modulo 64, the bit length on 64 bits. *)
Definition pad (msg : list Z) : list Z :=
  let len := Z.of_nat (length msg) in
  msg ++ [0x80] ++ replicate (Z.to_nat ((55 - len) mod 64)) 0
      ++ le_bytes 8 ((8 * len) mod 2 ^ 64).

(** [l] cut into pieces of [n] elements. *)
Fixpoint pieces {A} (fuel n : nat) (l : list A) : list (list A) :=
  match fuel, l with
  | S fuel', _ :: _ => take n l :: pieces fuel' n (drop n l)
  | _, _ => []
  end.

Definition chunks {A} (n : nat) (l : list A) : list (list A) :=
  pieces (length l) n l.

Record State := mkState { A : Z; B : Z; C : Z; D : Z }.

Definition init : State :=
  mkState 0x67452301 0xefcdab89 0x98badcfe 0x10325476.

Definition round (M : list Z) (st : State) (i : nat) : State :=
  let '(mkState a b c d) := st in
  let '(F, g) :=
    if (i <? 16)%nat then
      (Z.lor (Z.land b c) (Z.land (not32 b) d), i)
    else if (i <? 32)%nat then
      (Z.lor (Z.land d b) (Z.land (not32 d) c), ((5 * i + 1) mod 16)%nat)
    else if (i <? 48)%nat then
      (Z.lxor (Z.lxor b c) d, ((3 * i + 5) mod 16)%nat)
    else
      (Z.lxor c (Z.lor b (not32 d)), ((7 * i) mod 16)%nat) in
  let F := word (F + a + nth i K 0 + nth g M 0) in
  mkState d (word (b + leftrotate F (nth i s 0))) b c.

Definition process_chunk (h : State) (chunk : list Z) : State :=
  let M := map le_word (chunks 4 chunk) in
  let st := fold_left (round M) (seq 0 64) h in
  mkState (word (A h + A st)) (word (B h + B st))
          (word (C h + C st)) (word (D h + D st)).

Definition digest_state (msg : list Z) : State :=
  fold_left process_chunk (chunks 64 (pad msg)) init.

Definition hex_digit (n : Z) : string :=
  nth (Z.to_nat n)
    ["0"; "1"; "2"; "3"; "4"; "5"; "6"; "7"; "8"; "9";
     "a"; "b"; "c"; "d"; "e"; "f"] "0".

Definition hex_byte (b : Z) : string :=
  hex_digit (b / 16) +:+ hex_digit (b mod 16).

Definition hex (bytes : list Z) : string :=
  foldr (fun b acc => hex_byte b +:+ acc) "" bytes.

Definition state_bytes (st : State) : list Z :=
  le_bytes 4 (A st) ++ le_bytes 4 (B st) ++ le_bytes 4 (C st) ++ le_bytes 4 (D st).

(** The four state words as one 128-bit number. *)
Definition state_number (st : State) : Z :=
  A st + 2 ^ 32 * B st + 2 ^ 64 * C st + 2 ^ 96 * D st.

Definition is_word (x : Z) : Prop := 0 <= x < 2 ^ 32.

Definition words_state (st : State) : Prop :=
  is_word (A st) /\ is_word (B st) /\ is_word (C st) /\ is_word (D st).

(** [hashlib.md5(data).hexdigest()] *)
Definition hexdigest (msg : list Z) : string :=
  hex (state_bytes (digest_state msg)).

End MD5.

(** ** classification_system/detector.py : ObjectDetector *)

Module ObjectDetector.

(** The entries of [source_info] the id is derived from; [None] is an
    absent key. *)
Record SourceInfo := mkSourceInfo {
  source : option string;
  frame_number : option Z;
  timestamp : option string
}.

(** The f-string: [str] of an [int] is its decimal notation. *)
Definition unique_string (source_info : SourceInfo) (detection_idx : Z) : string :=
  default "" (source source_info) +:+ ":" +:+
  pretty (default 0 (frame_number source_info)) +:+ ":" +:+
  default "" (timestamp source_info) +:+ ":" +:+
  pretty detection_idx.

Definition _generate_detection_id (source_info : SourceInfo) (detection_idx : Z)
    : string :=
  MD5.hexdigest (MD5.encode (unique_string source_info detection_idx)).

(** The [source_info] of [test_generate_detection_id]. *)
Definition test_source_info : SourceInfo :=
  mkSourceInfo (Some "test.mp4") (Some 10) (Some "2024-01-01T00:00:00").

End ObjectDetector.

(** ** Concrete inputs used by the examples below *)

Module Scenario.
Import Pandas.

(** A transformer that finds nothing to clean, and fixed date strings. *)
Definition ext : External :=
  {| isoformat := fun t => "T" +:+ pretty t;
     strftime_day := fun _ => "2024-01-01";
     to_datetime_day := fun data => Some (map (fun _ => VStr "2024-01-01") data);
     transform_pipeline := fun df => Ok df;
     get_transformation_stats := fun _ _ => Ok () |}.

(** A warehouse that answers every call. *)
Definition hive_up : HiveLoader.HiveIO :=
  HiveLoader.mkHiveIO true true true true (fun _ => true).

(** The same, except that reading the existing ids fails. *)
Definition hive_read_fails : HiveLoader.HiveIO :=
  HiveLoader.mkHiveIO false true true true (fun _ => true).

(** The same, except that no connection can be opened for the load. *)
Definition hive_down : HiveLoader.HiveIO :=
  HiveLoader.mkHiveIO true true false true (fun _ => true).

(** The ids [prefix0 .. prefix(n-1)], and a frame of [n] detections
    carrying them. *)
Definition detection_ids (prefix : string) (n : nat) : list Value :=
  map (fun i => VStr (prefix +:+ pretty i)) (seq 0 n).

Definition detections (prefix : string) (n : nat) : DataFrame :=
  mkDataFrame n
    [ ("detection_id", detection_ids prefix n);
      ("class_name", replicate n (VStr "person")) ].

(** A warehouse table holding one row, for detection [id]. *)
Definition table_with (id : string) : HiveLoader.Table :=
  [ VStr id :: replicate 36 VNone ].

Definition one_row (id : string) : DataFrame :=
  mkDataFrame 1 [ ("detection_id", [VStr id]) ].

(** A one-row batch that already carries a [_loaded_at] column. *)
Definition batch_with_loaded_at : DataFrame :=
  mkDataFrame 1
    [ ("detection_id", [VStr "a"]);
      ("_loaded_at", [VStr "2023-12-31T23:59:59"]) ].

(** [n] distinct file names. *)
Definition file_names (n : nat) : list string :=
  map (fun i => "video_" +:+ pretty i) (seq 0 n).

(** The state after marking [names] (distinct) on a fresh manager. *)
Definition state_with_files (names : list string) : BatchManager.State :=
  BatchManager.mkState names None [] None (BatchManager.mkStatistics 0 0 0 0).

Definition clock_at (t : Time) : RunEtl.Clock := RunEtl.mkClock t t t t.

(** The staging area of the design document's scenario: one image file of
    60 rows, and one video file of 50 rows. *)
Definition image_b : DataExtractor.StagedFile :=
  DataExtractor.mkStagedFile "image_b_20240101_100000.csv" (Some (detections "b" 60)).

Definition video_a : DataExtractor.StagedFile :=
  DataExtractor.mkStagedFile "video_a_20240101_100000.csv" (Some (detections "a" 50)).

Definition staging_area : list DataExtractor.StagedFile := [video_a; image_b].

(** An invocation at time [t] that finds this staging area and a working
    warehouse, and one that finds the warehouse unreachable. *)
Definition invocation_at (t : Time) : RunEtl.Invocation :=
  RunEtl.mkInvocation staging_area hive_up (clock_at t).

Definition invocation_hive_down (t : Time) : RunEtl.Invocation :=
  RunEtl.mkInvocation staging_area hive_down (clock_at t).

(** A manager with the default thresholds whose last video batch was at
    time 0. *)
Definition manager_after_video_batch : BatchManager.t :=
  BatchManager.mk 300 100
    (BatchManager.update_video_batch_time 0 BatchManager.default_state).

End Scenario.

(** ** Further operations of the same files *)

(** [BatchManager.get_statistics] *)
Module BatchReport.
Import BatchManager.

(** The dictionary [get_statistics] returns: a copy of the counters, the
    two optional timing entries and the number of processed files.  Both
    timings are kept in microseconds: [minutes_since_last_run] is
    [since_last_run] divided by 60 * 10^6, and
    [seconds_until_next_video_batch] is [until_next_video_batch] divided by
    10^6. *)
Record Report := mkReport {
  counters : Statistics;
  since_last_run : option Z;
  until_next_video_batch : option Z;
  processed_files_count : nat
}.

Definition get_statistics (bm : t) (now : Time) : Report :=
  {| counters := statistics (state bm);
     since_last_run :=
       match last_run (state bm) with
       | Some last => Some (now - last)
       | None => None
       end;
     until_next_video_batch :=
       match last_video_batch (state bm) with
       | Some last_batch =>
           let elapsed := now - last_batch in
           Some (Z.max 0 (video_time_window bm * microseconds - elapsed))
       | None => None
       end;
     processed_files_count := length (processed_files (state bm)) |}.

End BatchReport.

(** [DataExtractor.extract_pending_files] *)
Module ExtractPending.
Import Pandas DataExtractor.

Definition extract_pending_files (ext : External) (now : Time)
    (staging : list StagedFile) (processed_files : list string)
    (source_type : option string) : Result DataFrame :=
  let categorized := scan_staging_files staging in
  all_files ←
    match source_type with
    | Some ty =>
        if bool_decide (ty = "") then Ok (video categorized ++ image categorized)
        else if bool_decide (ty = "video") then Ok (video categorized)
        else if bool_decide (ty = "image") then Ok (image categorized)
        else if bool_decide (ty = "unknown") then Ok (unknown categorized)
        else Raised (KeyError ty)
    | None => Ok (video categorized ++ image categorized)
    end;
  let pending_files := filter (fun f => name f ∉ processed_files) all_files in
  extract_multiple ext now pending_files.

End ExtractPending.

(** [HiveLoader.create_detections_table]: the columns of the table, in the
    order of the CREATE TABLE statement. *)
Module HiveSchema.

Inductive HiveType := STRING | INT | DOUBLE.

Definition detections_columns : list (string * HiveType) :=
  [ ("detection_id", STRING); ("source_type", STRING); ("source_file", STRING);
    ("source_filename", STRING); ("detection_timestamp", STRING);
    ("frame_number", INT); ("frame_timestamp", DOUBLE); ("class_id", INT);
    ("class_name", STRING); ("confidence", DOUBLE);
    ("bbox_x1", DOUBLE); ("bbox_y1", DOUBLE); ("bbox_x2", DOUBLE); ("bbox_y2", DOUBLE);
    ("bbox_width", DOUBLE); ("bbox_height", DOUBLE); ("bbox_area", DOUBLE);
    ("center_x", DOUBLE); ("center_y", DOUBLE);
    ("normalized_x1", DOUBLE); ("normalized_y1", DOUBLE);
    ("normalized_x2", DOUBLE); ("normalized_y2", DOUBLE);
    ("aspect_ratio", DOUBLE); ("relative_area", DOUBLE);
    ("image_width", INT); ("image_height", INT); ("detection_index", INT);
    ("size_category", STRING); ("confidence_category", STRING);
    ("horizontal_position", STRING); ("vertical_position", STRING);
    ("extracted_at", STRING); ("processed_at", STRING); ("loaded_at", STRING);
    ("source_csv_file", STRING); ("processing_date", STRING) ].

End HiveSchema.

(** A byte, as the entries of a message and of a digest are. *)
Definition is_byte (b : Z) : Prop := 0 <= b < 256.

(** Rows in the table minus rows counted in [total_records]. *)
Definition uncounted (bm : BatchManager.t) (table : HiveLoader.Table) : Z :=
  Z.of_nat (length table)
  - BatchManager.total_records (BatchManager.statistics (BatchManager.state bm)).

(** How a manager can differ from an earlier one after pipeline runs: same
    thresholds, the processed files extended at the end, counters that have
    not gone down, and as many batches more as video and image batches
    together. *)
Definition advances (bm bm' : BatchManager.t) : Prop :=
  let st := BatchManager.statistics (BatchManager.state bm) in
  let st' := BatchManager.statistics (BatchManager.state bm') in
  BatchManager.video_time_window bm' = BatchManager.video_time_window bm
  /\ BatchManager.image_batch_size bm' = BatchManager.image_batch_size bm
  /\ BatchManager.processed_files (BatchManager.state bm)
       `prefix_of` BatchManager.processed_files (BatchManager.state bm')
  /\ BatchManager.total_records st <= BatchManager.total_records st'
  /\ BatchManager.video_batches st <= BatchManager.video_batches st'
  /\ BatchManager.image_batches st <= BatchManager.image_batches st'
  /\ BatchManager.total_batches st' - BatchManager.total_batches st
     = (BatchManager.video_batches st' - BatchManager.video_batches st)
       + (BatchManager.image_batches st' - BatchManager.image_batches st).

(** The three tests of [scan_staging_files] on a staged file. *)
Definition is_csv (f : DataExtractor.StagedFile) : Prop :=
  DataExtractor.endswith ".csv" (DataExtractor.name f) = true.
Definition is_video (f : DataExtractor.StagedFile) : Prop :=
  DataExtractor.startswith "video_" (DataExtractor.name f) = true.
Definition is_image (f : DataExtractor.StagedFile) : Prop :=
  DataExtractor.startswith "image_" (DataExtractor.name f) = true.

(** A warehouse that can be reached but stores nothing: the bulk load and
    every INSERT fail. *)
Definition rejects_writes (io : HiveLoader.HiveIO) : Prop :=
  HiveLoader.to_csv_ok io = true /\ HiveLoader.connection_ok io = true
  /\ HiveLoader.load_data_ok io = false
  /\ forall i, HiveLoader.insert_ok io i = false.

(** Further concrete inputs. *)
Module Scenario2.
Import Pandas.

(** A warehouse that accepts the connection but refuses the bulk load and
    every INSERT. *)
Definition hive_rejects_writes : HiveLoader.HiveIO :=
  HiveLoader.mkHiveIO true true true false (fun _ => false).

(** A warehouse that refuses the bulk load and accepts every INSERT. *)
Definition hive_inserts_only : HiveLoader.HiveIO :=
  HiveLoader.mkHiveIO true true true false (fun _ => true).

Definition invocation_rejecting (t : Time) : RunEtl.Invocation :=
  RunEtl.mkInvocation Scenario.staging_area hive_rejects_writes (Scenario.clock_at t).

(** A file [pd.read_csv] cannot read, and a file that is not a CSV. *)
Definition broken_file : DataExtractor.StagedFile :=
  DataExtractor.mkStagedFile "video_broken_20240101_100000.csv" None.

Definition metadata_file : DataExtractor.StagedFile :=
  DataExtractor.mkStagedFile "metadata_20240101_100000.json" None.

Definition other_csv : DataExtractor.StagedFile :=
  DataExtractor.mkStagedFile "notes.csv" (Some (Scenario.detections "n" 1)).

Definition mixed_staging : list DataExtractor.StagedFile :=
  [ Scenario.video_a; metadata_file; broken_file; Scenario.image_b; other_csv ].

(** An invocation at time [t] on [mixed_staging], with a working
    warehouse. *)
Definition invocation_mixed (t : Time) : RunEtl.Invocation :=
  RunEtl.mkInvocation mixed_staging Scenario.hive_up (Scenario.clock_at t).

End Scenario2.

(** * Properties *)

(** ** The batch triggers *)

Section Triggers.
Import BatchManager.

Lemma should_process_video_batch_spec (bm : t) (now : Time) :
  should_process_video_batch bm now = true <->
  last_video_batch (state bm) = None \/
  exists last_batch, last_video_batch (state bm) = Some last_batch /\
                     video_time_window bm * microseconds <= now - last_batch.
Proof.
  unfold should_process_video_batch.
  destruct (last_video_batch (state bm)) as [last_batch|].
  - rewrite Z.leb_le. split.
    + intros H. right. exists last_batch. auto.
    + intros [H | (l & Hl & H)]; [discriminate | congruence].
  - split; auto.
Qed.

Lemma video_trigger_after_update (bm : t) (s : State) (t0 now : Time) :
  should_process_video_batch (with_state bm (update_video_batch_time t0 s)) now
  = (video_time_window bm * microseconds <=? now - t0).
Proof. reflexivity. Qed.

End Triggers.

(** C5.  For every configured threshold [N] and every integer [k],
    [should_process_image_batch k] is true exactly when [k >= N]; a pending
    count of exactly [N] triggers and [N - 1] does not, and the answer does
    not depend on the manager's state, which is where elapsed time lives. *)
Theorem image_trigger_iff_threshold (bm : BatchManager.t) (k : Z) :
  (BatchManager.should_process_image_batch bm k = true
     <-> k >= BatchManager.image_batch_size bm)
  /\ BatchManager.should_process_image_batch bm (BatchManager.image_batch_size bm) = true
  /\ BatchManager.should_process_image_batch bm (BatchManager.image_batch_size bm - 1) = false
  /\ (forall s : BatchManager.State,
        BatchManager.should_process_image_batch (BatchManager.with_state bm s) k
        = BatchManager.should_process_image_batch bm k).
Proof.
  unfold BatchManager.should_process_image_batch.
  repeat split.
  - intros H%Z.leb_le. lia.
  - intros H. apply Z.leb_le. lia.
  - apply Z.leb_refl.
  - apply Z.leb_gt. lia.
Qed.

(** C4, as stated, fails for a window of zero seconds: right after
    [update_video_batch_time] the elapsed time is 0, and [0 >= 0]. *)
Lemma video_trigger_zero_window_fires_at_once :
  ~ (forall (bm : BatchManager.t) (s : BatchManager.State) (now : Time),
       BatchManager.should_process_video_batch
         (BatchManager.with_state bm (BatchManager.update_video_batch_time now s)) now
       = false).
Proof.
  intros H.
  specialize (H (BatchManager.init 0 100) BatchManager.default_state 0).
  vm_compute in H. discriminate.
Qed.

(** C4, amended.  [should_process_video_batch] is true exactly when
    [last_video_batch] is unset or at least [video_time_window] seconds have
    passed since it.  For every positive window [W]: at the instant of
    [update_video_batch_time], and at every later time less than [W] seconds
    after it, the answer is false; once [W] seconds have passed it is
    true. *)
Theorem video_trigger_window (bm : BatchManager.t) (s : BatchManager.State)
    (t0 now : Time) :
  0 < BatchManager.video_time_window bm ->
  let bm' := BatchManager.with_state bm (BatchManager.update_video_batch_time t0 s) in
  (forall (m : BatchManager.t) (t : Time),
     BatchManager.should_process_video_batch m t = true <->
     BatchManager.last_video_batch (BatchManager.state m) = None \/
     exists last_batch,
       BatchManager.last_video_batch (BatchManager.state m) = Some last_batch /\
       BatchManager.video_time_window m * BatchManager.microseconds <= t - last_batch)
  /\ BatchManager.should_process_video_batch bm' t0 = false
  /\ (t0 <= now < t0 + BatchManager.video_time_window bm * BatchManager.microseconds ->
      BatchManager.should_process_video_batch bm' now = false)
  /\ (t0 + BatchManager.video_time_window bm * BatchManager.microseconds <= now ->
      BatchManager.should_process_video_batch bm' now = true).
Proof.
  intros HW bm'. subst bm'.
  split; [exact should_process_video_batch_spec|].
  rewrite !video_trigger_after_update.
  unfold BatchManager.microseconds in *.
  repeat split.
  - apply Z.leb_gt. lia.
  - intros H. apply Z.leb_gt. lia.
  - intros H. apply Z.leb_le. lia.
Qed.

Lemma video_trigger_window_witness :
  0 < BatchManager.video_time_window (BatchManager.init 300 100)
  /\ BatchManager.should_process_video_batch
       (BatchManager.with_state (BatchManager.init 300 100)
          (BatchManager.update_video_batch_time 5000000 BatchManager.default_state))
       5000000 = false.
Proof.
  assert (H : 0 < BatchManager.video_time_window (BatchManager.init 300 100))
    by (simpl; lia).
  split; [exact H|].
  exact (proj1 (proj2 (video_trigger_window (BatchManager.init 300 100)
                         BatchManager.default_state 5000000 5000000 H))).
Defined.

(** ** The processed-file list *)

Section ProcessedFiles.
Import BatchManager.

Lemma mark_file_keeps (processed : list string) (x f : string) :
  f ∈ processed -> f ∈ mark_file processed x.
Proof.
  intros H. unfold mark_file. case_bool_decide; [assumption|].
  apply elem_of_app. now left.
Qed.

Lemma mark_files_keep (filenames processed : list string) (f : string) :
  f ∈ processed -> f ∈ fold_left mark_file filenames processed.
Proof.
  revert processed.
  induction filenames as [|x filenames IH]; intros processed H; simpl.
  - assumption.
  - apply IH, mark_file_keeps, H.
Qed.

Lemma mark_files_fresh (filenames processed : list string) :
  NoDup (processed ++ filenames) ->
  fold_left mark_file filenames processed = processed ++ filenames.
Proof.
  revert processed.
  induction filenames as [|x filenames IH]; intros processed H; simpl.
  - now rewrite app_nil_r.
  - unfold mark_file at 2. case_bool_decide as Hin.
    + apply NoDup_app in H as (_ & H & _).
      exfalso. apply (H x Hin). now left.
    + rewrite IH; rewrite <- app_assoc; [reflexivity | exact H].
Qed.

Lemma step_keeps (op : Op) (s : State) (f : string) :
  is_reset op = false -> is_cleanup op = false ->
  f ∈ processed_files s -> f ∈ processed_files (step s op).
Proof.
  destruct op; simpl; intros Hr Hc H; try assumption; try discriminate.
  now apply mark_files_keep.
Qed.

Lemma cleanup_small (d : Z) (s : State) :
  (length (processed_files s) <= max_files)%nat -> cleanup_old_state d s = s.
Proof.
  intros H. unfold cleanup_old_state.
  destruct (Nat.ltb_spec max_files (length (processed_files s))); [lia | reflexivity].
Qed.

Lemma cleanup_large (d : Z) (s : State) :
  (max_files < length (processed_files s))%nat ->
  processed_files (cleanup_old_state d s)
  = drop (length (processed_files s) - max_files) (processed_files s).
Proof.
  intros H. unfold cleanup_old_state.
  destruct (Nat.ltb_spec max_files (length (processed_files s))); [reflexivity | lia].
Qed.

(** The oldest name goes when the list holds one name too many. *)
Lemma cleanup_drops_oldest (d : Z) (s : State) (f : string) (rest : list string) :
  processed_files s = f :: rest -> NoDup (f :: rest) -> length rest = max_files ->
  f ∉ processed_files (cleanup_old_state d s).
Proof.
  intros Hs Hnd Hlen.
  rewrite cleanup_large by (rewrite Hs; simpl; lia).
  rewrite Hs. simpl length.
  replace (S (length rest) - max_files)%nat with 1%nat by lia.
  simpl. now apply NoDup_cons in Hnd as [? _].
Qed.

Lemma file_names_NoDup (n : nat) : NoDup (Scenario.file_names n).
Proof.
  unfold Scenario.file_names. apply NoDup_fmap_2; [|apply NoDup_seq].
  intros i j H. injection H as H. change (pretty i = pretty j) in H.
  now apply (inj pretty) in H.
Qed.

Lemma state_with_files_reached (names : list string) :
  NoDup names ->
  mark_files_processed names default_state = Scenario.state_with_files names.
Proof.
  intros H. unfold mark_files_processed, Scenario.state_with_files. simpl.
  now rewrite mark_files_fresh.
Qed.

Lemma cleanup_evicts (n : nat) :
  n = max_files ->
  "video_" +:+ pretty 0%nat
    ∉ processed_files
        (cleanup_old_state 7 (Scenario.state_with_files (Scenario.file_names (S n)))).
Proof.
  intros Hn.
  pose proof (file_names_NoDup (S n)) as Hnd.
  apply (cleanup_drops_oldest _ _ _
           (map (fun i : nat => "video_" +:+ pretty i) (seq 1 n)));
    [reflexivity | exact Hnd |].
  now rewrite length_map, length_seq.
Qed.

Lemma cleanup_breaks_monotonicity (n : nat) :
  n = max_files ->
  ~ (forall (ops : list Op) (s : State) (f : string),
       Forall (fun op => is_reset op = false) ops ->
       f ∈ processed_files s ->
       f ∈ processed_files (run_ops ops s)).
Proof.
  intros Hn H.
  apply (cleanup_evicts n Hn).
  apply (H [CleanupOldState 7]
           (Scenario.state_with_files (Scenario.file_names (S n)))).
  - repeat constructor.
  - left.
Qed.

End ProcessedFiles.

(** C7, as stated, fails: [cleanup_old_state] is not a reset, and on a list
    of 10001 names it removes the oldest one. *)
Lemma cleanup_removes_a_processed_file :
  ~ (forall (ops : list BatchManager.Op) (s : BatchManager.State) (f : string),
       Forall (fun op => BatchManager.is_reset op = false) ops ->
       f ∈ BatchManager.processed_files s ->
       f ∈ BatchManager.processed_files (BatchManager.run_ops ops s)).
Proof.
  exact (cleanup_breaks_monotonicity BatchManager.max_files eq_refl).
Qed.

(** C7, amended.  Over every sequence of BatchManager operations that
    contains neither [reset_state] nor [cleanup_old_state], a name once in
    [processed_files] stays there.  [cleanup_old_state] changes nothing
    while the list holds at most 10000 names, and otherwise keeps exactly
    its last 10000 names. *)
Theorem processed_files_grow (ops : list BatchManager.Op) (s : BatchManager.State)
    (f : string) :
  Forall (fun op => BatchManager.is_reset op = false
                    /\ BatchManager.is_cleanup op = false) ops ->
  f ∈ BatchManager.processed_files s ->
  f ∈ BatchManager.processed_files (BatchManager.run_ops ops s)
  /\ (forall d s0,
        (length (BatchManager.processed_files s0) <= 10000)%nat ->
        BatchManager.cleanup_old_state d s0 = s0)
  /\ (forall d s0,
        (10000 < length (BatchManager.processed_files s0))%nat ->
        BatchManager.processed_files (BatchManager.cleanup_old_state d s0)
        = drop (length (BatchManager.processed_files s0) - 10000)
               (BatchManager.processed_files s0)
        /\ length (BatchManager.processed_files (BatchManager.cleanup_old_state d s0))
           = 10000%nat).
Proof.
  intros Hops Hf. split; [|split].
  - revert s Hf. unfold BatchManager.run_ops.
    induction Hops as [|op ops [Hr Hc] _ IH]; intros s Hf; simpl.
    + assumption.
    + apply IH. now apply step_keeps.
  - intros d s0 H. now apply cleanup_small.
  - intros d s0 H.
    rewrite cleanup_large by exact H. split; [reflexivity|].
    rewrite length_drop. change BatchManager.max_files with 10000%nat. lia.
Qed.

Lemma processed_files_grow_witness :
  "video_a.csv" ∈ BatchManager.processed_files
    (BatchManager.run_ops
       [BatchManager.MarkFilesProcessed ["image_b.csv"];
        BatchManager.UpdateStatistics 5 1;
        BatchManager.UpdateImageBatchProcessed 1]
       (Scenario.state_with_files ["video_a.csv"])).
Proof.
  apply (processed_files_grow
           [BatchManager.MarkFilesProcessed ["image_b.csv"];
            BatchManager.UpdateStatistics 5 1;
            BatchManager.UpdateImageBatchProcessed 1]
           (Scenario.state_with_files ["video_a.csv"]) "video_a.csv").
  - repeat constructor.
  - vm_compute. left.
Defined.

(** ** Frames: what the loader's column operations preserve *)

Section FrameFacts.
Import Pandas.

Lemma has_column_getitem (l : string) (df : DataFrame) :
  has_column l df = true <-> getitem l df <> [].
Proof.
  unfold has_column, getitem, labels. rewrite bool_decide_eq_true.
  induction (columns df) as [|c cols IH]; simpl.
  - split; [intros H%elem_of_nil | intros H]; easy.
  - rewrite filter_cons. rewrite elem_of_cons. case_decide as Hc.
    + split; [discriminate | auto].
    + rewrite <- IH. split; [intros [H | H] | intros H]; auto. congruence.
Qed.

Lemma filter_map_same {A} (P : A -> Prop) `{!forall x, Decision (P x)}
    (g : A -> A) (l : list A) :
  (forall x, P (g x) <-> P x) -> (forall x, P x -> g x = x) ->
  filter P (map g l) = filter P l.
Proof.
  intros Hiff Hid.
  induction l as [|x l IH]; [reflexivity|].
  change (map g (x :: l)) with (g x :: map g l).
  rewrite !filter_cons, IH.
  destruct (decide (P (g x))) as [Hg | Hg], (decide (P x)) as [Hx | Hx].
  - now rewrite Hid.
  - pose proof (Hiff x). tauto.
  - pose proof (Hiff x). tauto.
  - reflexivity.
Qed.

Lemma getitem_setitem_ne (l l' : string) (data : list Value) (df : DataFrame) :
  l <> l' -> getitem l (setitem l' data df) = getitem l df.
Proof.
  intros Hne. unfold setitem, getitem.
  destruct (has_column l' df); unfold columns at 1.
  - f_equal. apply filter_map_same; intros c; case_bool_decide; simpl; try tauto.
    + split; congruence.
    + congruence.
  - rewrite filter_app, fmap_app, filter_cons, filter_nil. simpl.
    destruct (decide (l' = l)); [congruence|]. apply app_nil_r.
Qed.

Lemma getitem_rename_ne (l old new : string) (df : DataFrame) :
  l <> old -> l <> new -> getitem l (rename old new df) = getitem l df.
Proof.
  intros Ho Hn. unfold rename, getitem. unfold columns at 1.
  f_equal. apply filter_map_same; intros c; case_bool_decide; simpl; try tauto.
  - split; congruence.
  - congruence.
Qed.

Lemma nrows_setitem (l : string) (data : list Value) (df : DataFrame) :
  nrows (setitem l data df) = nrows df.
Proof. unfold setitem. now destruct (has_column l df). Qed.

Lemma filter_map_commute {A} (P : A -> Prop) `{!forall x, Decision (P x)}
    (g : A -> A) (l : list A) :
  (forall x, P (g x) <-> P x) ->
  filter P (map g l) = map g (filter P l).
Proof.
  intros Hiff.
  induction l as [|x l IH]; [reflexivity|].
  change (map g (x :: l)) with (g x :: map g l).
  rewrite !filter_cons, IH.
  destruct (decide (P (g x))) as [Hg | Hg], (decide (P x)) as [Hx | Hx].
  - reflexivity.
  - pose proof (Hiff x). tauto.
  - pose proof (Hiff x). tauto.
  - reflexivity.
Qed.

Lemma getitem_filter_rows (l : string) (mask : list bool) (df : DataFrame) :
  getitem l (filter_rows mask df) = map (mask_filter mask) (getitem l df).
Proof.
  unfold getitem, filter_rows. unfold columns at 1.
  rewrite filter_map_commute by (intros c; reflexivity).
  generalize (filter (fun c : string * list Value => c.1 = l) (columns df)).
  intros cols. induction cols as [|c cols IH]; [reflexivity|].
  simpl. f_equal. exact IH.
Qed.

Lemma labels_filter_rows (mask : list bool) (df : DataFrame) :
  labels (filter_rows mask df) = labels df.
Proof.
  unfold labels, filter_rows. simpl.
  induction (columns df) as [|c cols IH]; [reflexivity|].
  simpl. f_equal. exact IH.
Qed.

Lemma select_columns_head (wanted w : list string) (l : string)
    (cols r : list (string * list Value)) :
  wanted = l :: w ->
  select_columns wanted cols = Ok r ->
  exists rest, r = filter (fun c => c.1 = l) cols ++ rest.
Proof.
  intros -> H. simpl in H.
  destruct (filter (fun c : string * list Value => c.1 = l) cols) as [|c found];
    [discriminate|].
  destruct (select_columns w cols) as [rest | e]; [|discriminate].
  injection H as <-. now exists rest.
Qed.

(** The rows of a frame whose first column is [data], one cell per row,
    start with the cells of [data]. *)
Lemma first_cells (n : nat) (l : string) (data : list Value)
    (others : list (string * list Value)) :
  length data = n ->
  map (hd VNone) (rows (mkDataFrame n ((l, data) :: others))) = data.
Proof.
  intros <-. unfold rows. simpl. rewrite map_map. simpl.
  apply nth_ext with (d := VNone) (d' := VNone).
  - now rewrite length_map, length_seq.
  - intros i Hi. rewrite length_map, length_seq in Hi.
    rewrite (nth_indep _ VNone (nth 0%nat data VNone))
      by now rewrite length_map, length_seq.
    rewrite (map_nth (fun i => nth i data VNone)).
    now rewrite seq_nth.
Qed.

Lemma mask_filter_true {A} (mask : list bool) (x : A) (data : list A) :
  mask_filter (true :: mask) (x :: data) = x :: mask_filter mask data.
Proof. unfold mask_filter. simpl zip. now rewrite filter_cons_True. Qed.

Lemma mask_filter_false {A} (mask : list bool) (x : A) (data : list A) :
  mask_filter (false :: mask) (x :: data) = mask_filter mask data.
Proof. unfold mask_filter. simpl zip. now rewrite filter_cons_False. Qed.

Lemma mask_filter_nil {A} (mask : list bool) : mask_filter mask (@nil A) = [].
Proof. unfold mask_filter. now destruct mask. Qed.

(** A frame with at least one row is its first row on top of the frame of
    the remaining rows. *)
Lemma rows_cons (n : nat) (cols : list (string * list Value)) :
  rows (mkDataFrame (S n) cols)
  = map (fun c => hd VNone c.2) cols
    :: rows (mkDataFrame n (map (fun c => (c.1, tl c.2)) cols)).
Proof.
  unfold rows, row. simpl nrows. simpl columns.
  rewrite <- cons_seq, <- fmap_S_seq. simpl map. f_equal.
  - apply map_ext. intros [l [|v d]]; reflexivity.
  - rewrite <- list_fmap_compose. apply map_ext. intros i. simpl.
    rewrite map_map. apply map_ext. intros [l [|v d]]; simpl; [now destruct i | reflexivity].
Qed.

(** Selecting rows by a mask selects the same positions in every
    column. *)
Lemma rows_filter_rows (mask : list bool) (n : nat) (cols : list (string * list Value)) :
  length mask = n ->
  Forall (fun c => length c.2 = n) cols ->
  rows (filter_rows mask (mkDataFrame n cols))
  = mask_filter mask (rows (mkDataFrame n cols)).
Proof.
  revert n cols. induction mask as [|b mask IH]; intros n cols Hn Hcols.
  - subst n. reflexivity.
  - destruct n as [|n]; [discriminate|]. injection Hn as Hn.
    rewrite (rows_cons n cols).
    assert (Htl : Forall (fun c : string * list Value => length c.2 = n)
                    (map (fun c => (c.1, tl c.2)) cols)).
    { apply Forall_fmap. eapply Forall_impl; [exact Hcols|].
      intros [l [|v d]]; simpl; [discriminate | congruence]. }
    specialize (IH n _ Hn Htl).
    destruct b.
    + rewrite mask_filter_true, <- IH.
      unfold filter_rows. simpl nrows. simpl columns.
      rewrite filter_cons_True by reflexivity. simpl length.
      rewrite rows_cons. f_equal.
      * rewrite map_map. apply Forall_fmap_ext_1.
        eapply Forall_impl; [exact Hcols|].
        intros [l [|v d]]; simpl; [discriminate|]. intros _.
        rewrite ?mask_filter_true; reflexivity.
      * f_equal. rewrite !map_map. simpl. f_equal.
        apply Forall_fmap_ext_1.
        eapply Forall_impl; [exact Hcols|].
        intros [l [|v d]]; simpl; [discriminate|]. intros _.
        rewrite ?mask_filter_true; reflexivity.
    + rewrite mask_filter_false, <- IH.
      unfold filter_rows. simpl nrows. simpl columns.
      rewrite filter_cons_False by discriminate.
      f_equal. f_equal. rewrite map_map. simpl.
      apply Forall_fmap_ext_1.
      eapply Forall_impl; [exact Hcols|].
      intros [l [|v d]]; simpl; [discriminate|]. intros _.
      rewrite ?mask_filter_false; reflexivity.
Qed.

End FrameFacts.

(** ** The loader: column alignment and the write *)

Section LoaderFacts.
Import Pandas HiveLoader.
Variable ext : External.

Lemma nrows_rename_steps (entries : list (string * string)) (df : DataFrame) :
  nrows (fold_left rename_step entries df) = nrows df.
Proof.
  revert df. induction entries as [|e entries IH]; intros df; simpl; [reflexivity|].
  rewrite IH. unfold rename_step. now destruct (has_column e.1 df).
Qed.

Lemma getitem_rename_steps (l : string) (entries : list (string * string))
    (df : DataFrame) :
  Forall (fun e => l <> e.1 /\ l <> e.2) entries ->
  getitem l (fold_left rename_step entries df) = getitem l df.
Proof.
  intros H. revert df.
  induction H as [|e entries [H1 H2] _ IH]; intros df; simpl; [reflexivity|].
  rewrite IH. unfold rename_step.
  destruct (has_column e.1 df); [now apply getitem_rename_ne | reflexivity].
Qed.

Lemma add_processing_date_keeps (l : string) (now : Time) (df df' : DataFrame) :
  l <> "processing_date" ->
  add_processing_date ext now df = Ok df' ->
  getitem l df' = getitem l df /\ nrows df' = nrows df.
Proof.
  intros Hl. unfold add_processing_date, setitem_scalar.
  repeat match goal with
         | |- context [if ?b then _ else _] => destruct b
         | |- context [match getitem ?x ?d with _ => _ end] =>
             destruct (getitem x d) as [|? [|? ?]]
         | |- context [match to_datetime_day ?e ?d with _ => _ end] =>
             destruct (to_datetime_day e d)
         end;
    intros [= <-] || discriminate;
    (split; [now apply getitem_setitem_ne | apply nrows_setitem]).
Qed.

Lemma nrows_add_missing (cols : list string) (df : DataFrame) :
  nrows (fold_left add_missing cols df) = nrows df.
Proof.
  revert df. induction cols as [|c cols IH]; intros df; simpl; [reflexivity|].
  rewrite IH. unfold add_missing, setitem_scalar.
  destruct (has_column c df); [reflexivity | apply nrows_setitem].
Qed.

Lemma getitem_add_missing (l : string) (cols : list string) (df : DataFrame) :
  getitem l df <> [] ->
  getitem l (fold_left add_missing cols df) = getitem l df.
Proof.
  revert df. induction cols as [|c cols IH]; intros df Hl; simpl; [reflexivity|].
  assert (Hstep : getitem l (add_missing df c) = getitem l df).
  { unfold add_missing, setitem_scalar.
    destruct (has_column c df) eqn:Hc; [reflexivity|].
    apply getitem_setitem_ne. intros ->.
    apply has_column_getitem in Hl. congruence. }
  rewrite IH; [exact Hstep | now rewrite Hstep].
Qed.

(** [prepare], step by step. *)
Lemma prepare_eq (now : Time) (df : DataFrame) :
  prepare ext now df
  = match add_processing_date ext now
            (fold_left rename_step rename_map
               (setitem_scalar "loaded_at" (VStr (isoformat ext now)) df)) with
    | Ok dated => select expected_columns (fold_left add_missing expected_columns dated)
    | Raised e => Raised e
    end.
Proof. reflexivity. Qed.

Lemma renamed_keeps_ids (v : Value) (df : DataFrame) (ids : list Value) :
  getitem "detection_id" df = [ids] ->
  getitem "detection_id"
    (fold_left rename_step rename_map (setitem_scalar "loaded_at" v df)) = [ids]
  /\ nrows (fold_left rename_step rename_map (setitem_scalar "loaded_at" v df))
     = nrows df.
Proof.
  intros Hids. split.
  - rewrite getitem_rename_steps.
    + unfold setitem_scalar. rewrite getitem_setitem_ne; [exact Hids | discriminate].
    + unfold rename_map. repeat constructor; discriminate.
  - rewrite nrows_rename_steps. apply nrows_setitem.
Qed.

Lemma select_first_column (l : string) (w : list string) (df p : DataFrame)
    (ids : list Value) :
  getitem l df = [ids] ->
  select (l :: w) df = Ok p ->
  exists others, p = mkDataFrame (nrows df) ((l, ids) :: others).
Proof.
  intros Hg. unfold select.
  destruct (select_columns (l :: w) (columns df)) as [cols | e] eqn:Hsel;
    [|discriminate].
  intros [= <-].
  eapply select_columns_head in Hsel as [rest ->]; [|reflexivity].
  unfold getitem in Hg.
  destruct (filter (fun c : string * list Value => c.1 = l) (columns df))
    as [|c [|c' found]] eqn:Hfound; try discriminate.
  injection Hg as Hc.
  assert (Hc1 : c.1 = l).
  { assert (Hin : c ∈ filter (fun c : string * list Value => c.1 = l) (columns df))
      by (rewrite Hfound; left).
    now apply list_elem_of_filter in Hin as [? _]. }
  exists rest. destruct c as [c1 c2]. simpl in Hc, Hc1. subst c1 c2. reflexivity.
Qed.

(** The id column of the batch is the first column of the prepared
    frame, and no row is added or lost on the way. *)
Lemma prepare_first_column (now : Time) (df p : DataFrame) (ids : list Value) :
  getitem "detection_id" df = [ids] ->
  prepare ext now df = Ok p ->
  exists others, p = mkDataFrame (nrows df) (("detection_id", ids) :: others).
Proof.
  intros Hids. rewrite prepare_eq.
  destruct (renamed_keeps_ids (VStr (isoformat ext now)) df ids Hids) as [Hg2 Hn2].
  destruct (add_processing_date ext now _) as [dated | e] eqn:Hdate; [|discriminate].
  apply (add_processing_date_keeps "detection_id") in Hdate as [Hg3 Hn3];
    [|discriminate].
  intros Hsel.
  assert (Hg4 : getitem "detection_id" (fold_left add_missing expected_columns dated)
                = [ids]).
  { rewrite getitem_add_missing; rewrite Hg3, Hg2; [reflexivity | discriminate]. }
  apply (select_first_column "detection_id" (tail expected_columns) _ p ids Hg4) in Hsel.
  rewrite nrows_add_missing, Hn3, Hn2 in Hsel. exact Hsel.
Qed.

(** The chunk [rows[start:min(start + size, len)]] is the next [size]
    rows after [start]. *)
Lemma slice_chunk {A} (start size : nat) (l : list A) :
  slice start (Nat.min (start + size) (length l)) l = take size (drop start l).
Proof.
  unfold slice.
  destruct (Nat.le_gt_cases (start + size) (length l)) as [H | H].
  - rewrite Nat.min_l by exact H. f_equal. lia.
  - rewrite Nat.min_r by lia.
    rewrite !take_ge; [reflexivity | |]; rewrite length_drop; lia.
Qed.

(** The fallback loop stores a sub-sequence of the rows and counts what it
    stores. *)
Lemma insert_chunks_sublist (io : HiveIO) (all_rows : list (list Value))
    (m k0 : nat) (acc : nat * Table) :
  exists written,
    fold_left (insert_chunk io all_rows)
              (map (fun k => (k * chunk_size)%nat) (seq k0 m)) acc
    = ((acc.1 + length written)%nat, acc.2 ++ written)
    /\ written `sublist_of` drop (k0 * chunk_size) all_rows.
Proof.
  revert k0 acc. induction m as [|m IH]; intros k0 acc.
  - exists []. simpl. rewrite Nat.add_0_r, app_nil_r. destruct acc.
    split; [reflexivity | apply sublist_nil_l].
  - simpl seq. simpl map. simpl fold_left.
    unfold insert_chunk at 2. rewrite slice_chunk.
    set (batch := take chunk_size (drop (k0 * chunk_size) all_rows)).
    assert (Hsplit : drop (k0 * chunk_size) all_rows
                     = batch ++ drop (S k0 * chunk_size) all_rows).
    { unfold batch.
      rewrite <- (take_drop chunk_size (drop (k0 * chunk_size) all_rows)) at 1.
      f_equal. rewrite drop_drop. f_equal. lia. }
    destruct (insert_ok io (k0 * chunk_size)).
    + destruct (IH (S k0) ((acc.1 + length batch)%nat, acc.2 ++ batch))
        as (w & Hw & Hsub).
      exists (batch ++ w). rewrite Hw. simpl. rewrite length_app, <- app_assoc.
      split; [f_equal; lia|].
      rewrite Hsplit. now apply sublist_app.
    + destruct (IH (S k0) acc) as (w & Hw & Hsub).
      exists w. rewrite Hw. split; [reflexivity|].
      rewrite Hsplit. now apply sublist_inserts_l.
Qed.

Lemma length_rows (df : DataFrame) : length (rows df) = nrows df.
Proof. unfold rows. now rewrite length_map, length_seq. Qed.

(** What a returning [write_rows] has done: it appended a sub-sequence of
    the frame's rows (all of them on the bulk path) and returns how many. *)
Lemma write_rows_ok (io : HiveIO) (df : DataFrame) (table table' : Table) (n : nat) :
  write_rows io df table = Ok (n, table') ->
  exists written,
    table' = table ++ written /\ n = length written
    /\ written `sublist_of` rows df
    /\ (load_data_ok io = true -> written = rows df).
Proof.
  unfold write_rows.
  destruct (to_csv_ok io); [|discriminate].
  destruct (connection_ok io); [|discriminate].
  destruct (load_data_ok io); simpl.
  - intros [= <- <-]. exists (rows df).
    rewrite length_rows. repeat split; auto.
  - unfold range_step.
    destruct (insert_chunks_sublist io (rows df)
                ((nrows df + chunk_size - 1) / chunk_size) 0 (0%nat, table))
      as (w & Hw & Hsub).
    rewrite Hw. simpl. intros [= <- <-]. exists w.
    repeat split; auto. discriminate.
Qed.

(** [write_rows] returns unless the temporary file or the connection
    fails. *)
Lemma write_rows_returns (io : HiveIO) (df : DataFrame) (table : Table) :
  to_csv_ok io = true -> connection_ok io = true ->
  exists n table', write_rows io df table = Ok (n, table').
Proof.
  intros H1 H2. unfold write_rows. rewrite H1, H2. simpl.
  destruct (load_data_ok io); eauto.
  destruct (fold_left _ _ _) as [n t]. eauto.
Qed.

Lemma mask_filter_novel (existing ids : list Value) :
  mask_filter (novel_mask existing ids) ids
  = filter (fun v => v ∉ existing) ids.
Proof.
  induction ids as [|v ids IH]; [reflexivity|].
  unfold novel_mask. simpl map. fold (novel_mask existing ids).
  rewrite filter_cons. case_bool_decide as Hin; simpl negb.
  - rewrite mask_filter_false, IH. now destruct (decide (v ∉ existing)).
  - rewrite mask_filter_true, IH. now destruct (decide (v ∉ existing)).
Qed.

Lemma count_novel (existing ids : list Value) :
  length (filter (fun b => b = true) (novel_mask existing ids))
  = length (filter (fun v => v ∉ existing) ids).
Proof.
  induction ids as [|v ids IH]; [reflexivity|].
  unfold novel_mask. simpl map. fold (novel_mask existing ids).
  rewrite !filter_cons. case_bool_decide as Hin; simpl negb.
  - destruct (decide (false = true)); [discriminate|].
    now destruct (decide (v ∉ existing)).
  - destruct (decide (true = true)); [|congruence].
    destruct (decide (v ∉ existing)); [simpl; now rewrite IH | tauto].
Qed.

Lemma length_novel_mask (existing ids : list Value) :
  length (novel_mask existing ids) = length ids.
Proof. unfold novel_mask. apply length_map. Qed.

Lemma load_with_deduplication_eq (io : HiveIO) (now : Time) (df : DataFrame)
    (table : Table) (ids : list Value) :
  empty df = false ->
  getitem "detection_id" df = [ids] ->
  load_with_deduplication ext io now df table
  = if empty (filtered io table ids df) then Ok (0%nat, table)
    else load_batch ext io now (filtered io table ids df) table.
Proof.
  intros He Hids. unfold load_with_deduplication, filtered. now rewrite He, Hids.
Qed.

Lemma filtered_ids (io : HiveIO) (table : Table) (ids : list Value) (df : DataFrame) :
  getitem "detection_id" df = [ids] ->
  getitem "detection_id" (filtered io table ids df)
  = [filter (fun v => v ∉ get_existing_detection_ids io table) ids]
  /\ nrows (filtered io table ids df)
     = length (filter (fun v => v ∉ get_existing_detection_ids io table) ids).
Proof.
  intros Hids. unfold filtered. rewrite getitem_filter_rows, Hids. simpl.
  now rewrite mask_filter_novel, count_novel.
Qed.

Lemma filtered_empty (io : HiveIO) (table : Table) (ids : list Value) (df : DataFrame) :
  getitem "detection_id" df = [ids] ->
  empty (filtered io table ids df) = true
  <-> filter (fun v => v ∉ get_existing_detection_ids io table) ids = [].
Proof.
  intros Hids. destruct (filtered_ids io table ids df Hids) as [Hg Hn].
  unfold empty. rewrite Hn.
  assert (Hcols : columns (filtered io table ids df) <> []).
  { intros Hnil. unfold getitem in Hg. rewrite Hnil in Hg. discriminate. }
  rewrite orb_true_iff, Nat.eqb_eq, bool_decide_eq_true.
  split.
  - intros [H | H]; [now apply length_zero_iff_nil | contradiction].
  - intros ->. now left.
Qed.

(** What a returning [load_batch] has done to a batch with one id column
    of [ids]. *)
Lemma load_batch_ok (io : HiveIO) (now : Time) (df : DataFrame) (table table' : Table)
    (ids : list Value) (n : nat) :
  empty df = false ->
  getitem "detection_id" df = [ids] ->
  length ids = nrows df ->
  load_batch ext io now df table = Ok (n, table') ->
  exists prepared written,
    prepare ext now df = Ok prepared
    /\ table' = table ++ written
    /\ n = length written
    /\ written `sublist_of` rows prepared
    /\ map detection_id_of written `sublist_of` ids
    /\ (load_data_ok io = true ->
        written = rows prepared /\ map detection_id_of written = ids).
Proof.
  intros He Hids Hlen. unfold load_batch. rewrite He.
  destruct (prepare ext now df) as [prepared | e] eqn:Hprep; [|discriminate].
  change (write_rows io prepared table = Ok (n, table') ->
          exists prepared0 written,
            Ok prepared = Ok prepared0 /\ table' = table ++ written
            /\ n = length written /\ written `sublist_of` rows prepared0
            /\ map detection_id_of written `sublist_of` ids
            /\ (load_data_ok io = true ->
                written = rows prepared0 /\ map detection_id_of written = ids)).
  intros Hw. apply write_rows_ok in Hw as (written & -> & -> & Hsub & Hall).
  destruct (prepare_first_column now df prepared ids Hids Hprep) as [others ->].
  pose proof (first_cells (nrows df) "detection_id" ids others Hlen) as Hfirst.
  exists (mkDataFrame (nrows df) (("detection_id", ids) :: others)), written.
  split; [reflexivity|]. split; [reflexivity|]. split; [reflexivity|].
  split; [exact Hsub|]. split.
  - rewrite <- Hfirst. now apply (fmap_sublist detection_id_of).
  - intros Hb. split; [now apply Hall|]. rewrite (Hall Hb). exact Hfirst.
Qed.

Lemma column_length (l : string) (df : DataFrame) (data : list Value) :
  well_formed df -> getitem l df = [data] -> length data = nrows df.
Proof.
  intros Hwf Hg. unfold well_formed in Hwf. rewrite Forall_forall in Hwf.
  unfold getitem in Hg.
  destruct (filter (fun c : string * list Value => c.1 = l) (columns df))
    as [|c [|c' found]] eqn:Hf; try discriminate.
  injection Hg as <-. apply Hwf.
  assert (Hin : c ∈ filter (fun c : string * list Value => c.1 = l) (columns df))
    by (rewrite Hf; left).
  now apply list_elem_of_filter in Hin as [_ ?].
Qed.

Lemma filter_novel_nil (existing ids : list Value) :
  Forall (fun v => v ∈ existing) ids ->
  filter (fun v => v ∉ existing) ids = [].
Proof.
  intros H. induction H as [|v ids Hv _ IH]; [reflexivity|].
  rewrite filter_cons. destruct (decide (v ∉ existing)); [contradiction | exact IH].
Qed.

End LoaderFacts.

(** C6.  For a non-empty batch with its [detection_id] column,
    [load_with_deduplication] keeps exactly the rows whose id is not in the
    fetched set of existing ids.  When nothing is left (in particular when
    every id of the batch is in the set) it returns 0 and the table is
    untouched.  Otherwise it is [load_batch] on the kept rows: what it
    appends to the table is a sub-sequence of the kept rows (all of them
    when the bulk load works) and its result is the number of rows appended;
    it does return when the frame can be prepared and the temporary file and
    the connection are available. *)
Theorem load_with_deduplication_filters (ext : External) (io : HiveLoader.HiveIO)
    (now : Time) (df : Pandas.DataFrame) (table : HiveLoader.Table)
    (ids : list Pandas.Value) :
  Pandas.empty df = false ->
  Pandas.getitem "detection_id" df = [ids] ->
  Pandas.well_formed df ->
  let existing := HiveLoader.get_existing_detection_ids io table in
  let df_new := Pandas.filter_rows (HiveLoader.novel_mask existing ids) df in
  let result := HiveLoader.load_with_deduplication ext io now df table in
  Pandas.rows df_new = Pandas.mask_filter (HiveLoader.novel_mask existing ids) (Pandas.rows df)
  /\ Pandas.getitem "detection_id" df_new = [filter (fun v => v ∉ existing) ids]
  /\ (Pandas.empty df_new = true -> result = Ok (0%nat, table))
  /\ (Forall (fun v => v ∈ existing) ids -> result = Ok (0%nat, table))
  /\ (Pandas.empty df_new = false ->
      result = HiveLoader.load_batch ext io now df_new table
      /\ (forall n table',
            result = Ok (n, table') ->
            exists prepared written,
              HiveLoader.prepare ext now df_new = Ok prepared
              /\ table' = table ++ written
              /\ n = length written
              /\ written `sublist_of` Pandas.rows prepared
              /\ map HiveLoader.detection_id_of written
                   `sublist_of` filter (fun v => v ∉ existing) ids
              /\ (HiveLoader.load_data_ok io = true -> written = Pandas.rows prepared))
      /\ (forall prepared,
            HiveLoader.prepare ext now df_new = Ok prepared ->
            HiveLoader.to_csv_ok io = true -> HiveLoader.connection_ok io = true ->
            exists n table', result = Ok (n, table'))).
Proof.
  intros He Hids Hwf existing df_new result.
  pose proof (load_with_deduplication_eq ext io now df table ids He Hids) as Heq.
  fold result in Heq. change (HiveLoader.filtered io table ids df) with df_new in Heq.
  destruct (filtered_ids io table ids df Hids) as [Hg Hn].
  change (HiveLoader.filtered io table ids df) with df_new in Hg, Hn.
  fold existing in Hg, Hn.
  pose proof (filtered_empty io table ids df Hids) as Hempty.
  change (HiveLoader.filtered io table ids df) with df_new in Hempty.
  fold existing in Hempty.
  pose proof (column_length _ _ _ Hwf Hids) as Hlen.
  split; [|split; [exact Hg | split; [|split; [|]]]].
  - subst df_new. destruct df as [n cols]. simpl in *.
    apply rows_filter_rows; [|exact Hwf].
    now rewrite length_novel_mask.
  - intros H. now rewrite Heq, H.
  - intros H. rewrite Heq.
    replace (Pandas.empty df_new) with true; [reflexivity|].
    symmetry. apply Hempty. now apply filter_novel_nil.
  - intros H. rewrite Heq, H. split; [reflexivity | split].
    + intros n table' Hload.
      destruct (load_batch_ok ext io now df_new table table' _ n H Hg (eq_sym Hn) Hload)
        as (prepared & written & Hp & Ht & Hc & Hsub & Hidsub & Hall).
      exists prepared, written. repeat split; auto. intros Hb. now apply Hall.
    + intros prepared Hp H1 H2. unfold HiveLoader.load_batch. rewrite H, Hp.
      now apply write_rows_returns.
Qed.

Lemma load_with_deduplication_filters_witness :
  Pandas.empty (Scenario.detections "d" 3) = false
  /\ Pandas.getitem "detection_id" (Scenario.detections "d" 3)
     = [Scenario.detection_ids "d" 3]
  /\ HiveLoader.load_with_deduplication Scenario.ext Scenario.hive_up 0
       (Scenario.detections "d" 3) (Scenario.table_with "d1")
     = HiveLoader.load_batch Scenario.ext Scenario.hive_up 0
         (Pandas.filter_rows
            (HiveLoader.novel_mask
               (HiveLoader.get_existing_detection_ids Scenario.hive_up
                  (Scenario.table_with "d1"))
               (Scenario.detection_ids "d" 3))
            (Scenario.detections "d" 3))
         (Scenario.table_with "d1").
Proof.
  assert (He : Pandas.empty (Scenario.detections "d" 3) = false) by reflexivity.
  assert (Hids : Pandas.getitem "detection_id" (Scenario.detections "d" 3)
                 = [Scenario.detection_ids "d" 3]) by reflexivity.
  assert (Hwf : Pandas.well_formed (Scenario.detections "d" 3))
    by (repeat constructor).
  split; [exact He | split; [exact Hids|]].
  refine (proj1 (proj2 (proj2 (proj2 (proj2
            (load_with_deduplication_filters Scenario.ext Scenario.hive_up 0
               (Scenario.detections "d" 3) (Scenario.table_with "d1")
               (Scenario.detection_ids "d" 3) He Hids Hwf)))) _)).
  reflexivity.
Defined.

Example dedup_writes_only_novel_rows :
  HiveLoader.load_with_deduplication Scenario.ext Scenario.hive_up 0
    (Scenario.detections "d" 3) (Scenario.table_with "d1")
  = Ok (2%nat,
        Scenario.table_with "d1"
        ++ Pandas.rows
             (Pandas.mkDataFrame 2
                (map (fun l =>
                        (l, if bool_decide (l = "detection_id")
                            then [Pandas.VStr "d0"; Pandas.VStr "d2"]
                            else if bool_decide (l = "class_name")
                            then replicate 2 (Pandas.VStr "person")
                            else if bool_decide (l = "loaded_at")
                            then replicate 2 (Pandas.VStr "T0")
                            else if bool_decide (l = "processing_date")
                            then replicate 2 (Pandas.VStr "2024-01-01")
                            else replicate 2 Pandas.VNone))
                     HiveLoader.expected_columns))).
Proof. vm_compute. reflexivity. Qed.

(** ** Re-run safety of the load *)

Section Rerun.
Import Pandas HiveLoader.
Variable ext : External.

Lemma NoDup_after_write (table written : Table) (ids : list Value) :
  NoDup (map detection_id_of table) ->
  NoDup ids ->
  map detection_id_of written
    `sublist_of` filter (fun v => v ∉ map detection_id_of table) ids ->
  NoDup (map detection_id_of (table ++ written)).
Proof.
  intros Htable Hids Hsub. rewrite map_app. apply NoDup_app.
  split; [exact Htable|]. split.
  - intros v Hv Hw.
    apply (elem_of_sublist _ _ _ Hw) in Hsub.
    apply list_elem_of_filter in Hsub as [Hnot _]. contradiction.
  - eapply sublist_NoDup; [|exact Hsub]. now apply NoDup_filter.
Qed.

(** With a working id read and a batch that carries each id once, a load
    keeps the ids of the table distinct. *)
Lemma load_keeps_ids_distinct (io : HiveIO) (now : Time) (df : DataFrame)
    (table : Table) :
  read_sql_ok io = true ->
  NoDup (map detection_id_of table) ->
  (forall ids, getitem "detection_id" df = [ids] -> NoDup ids) ->
  NoDup (map detection_id_of
           (table_after (load_with_deduplication ext io now df table) table)).
Proof.
  intros Hread Htable Hbatch.
  destruct (empty df) eqn:He.
  { unfold load_with_deduplication. now rewrite He. }
  destruct (getitem "detection_id" df) as [|ids [|ids' more]] eqn:Hids.
  - unfold load_with_deduplication. now rewrite He, Hids.
  - rewrite (load_with_deduplication_eq ext io now df table ids He Hids).
    destruct (filtered_ids io table ids df Hids) as [Hg Hn].
    destruct (empty (filtered io table ids df)) eqn:Hnew; [exact Htable|].
    destruct (load_batch ext io now (filtered io table ids df) table)
      as [[n table'] | e] eqn:Hload; [|exact Htable].
    destruct (load_batch_ok ext io now _ table table' _ n Hnew Hg (eq_sym Hn) Hload)
      as (prepared & written & _ & -> & _ & _ & Hsub & _).
    simpl. apply (NoDup_after_write table written ids Htable (Hbatch ids eq_refl)).
    unfold get_existing_detection_ids in Hsub. now rewrite Hread in Hsub.
  - unfold load_with_deduplication. now rewrite He, Hids.
Qed.

(** After a load whose bulk write went through, loading the same batch
    again finds every id in the table. *)
Lemma reload_loads_nothing (io io' : HiveIO) (now now' : Time) (df : DataFrame)
    (table table' : Table) (n : nat) :
  read_sql_ok io = true -> load_data_ok io = true -> read_sql_ok io' = true ->
  load_with_deduplication ext io now df table = Ok (n, table') ->
  load_with_deduplication ext io' now' df table' = Ok (0%nat, table').
Proof.
  intros Hread Hbulk Hread' Hload.
  destruct (empty df) eqn:He.
  { unfold load_with_deduplication in *. now rewrite He in *. }
  destruct (getitem "detection_id" df) as [|ids [|ids' more]] eqn:Hids;
    try (unfold load_with_deduplication in Hload; rewrite He, Hids in Hload;
         discriminate).
  rewrite (load_with_deduplication_eq ext io now df table ids He Hids) in Hload.
  rewrite (load_with_deduplication_eq ext io' now' df table' ids He Hids).
  assert (Hall : Forall (fun v => v ∈ map detection_id_of table') ids).
  { destruct (filtered_ids io table ids df Hids) as [Hg Hn].
    unfold get_existing_detection_ids in Hg, Hn. rewrite Hread in Hg, Hn.
    destruct (empty (filtered io table ids df)) eqn:Hnew.
    - injection Hload as <- <-.
      apply (filtered_empty io table ids df Hids) in Hnew.
      unfold get_existing_detection_ids in Hnew. rewrite Hread in Hnew.
      apply Forall_forall. intros v Hv.
      destruct (decide (v ∈ map detection_id_of table)) as [Hin | Hnin]; [exact Hin|].
      assert (Hf : v ∈ filter (fun v => v ∉ map detection_id_of table) ids)
        by now apply list_elem_of_filter.
      rewrite Hnew in Hf. now apply elem_of_nil in Hf.
    - destruct (load_batch_ok ext io now _ table table' _ n Hnew Hg (eq_sym Hn) Hload)
        as (prepared & written & _ & -> & _ & _ & _ & Hfull).
      destruct (Hfull Hbulk) as [_ Hw].
      apply Forall_forall. intros v Hv. rewrite map_app, elem_of_app.
      destruct (decide (v ∈ map detection_id_of table)) as [Hin | Hnin];
        [now left | right].
      rewrite Hw. now apply list_elem_of_filter. }
  replace (empty (filtered io' table' ids df)) with true; [reflexivity|].
  symmetry. apply (filtered_empty io' table' ids df Hids).
  unfold get_existing_detection_ids. rewrite Hread'.
  now apply filter_novel_nil.
Qed.

End Rerun.

(** C1, as stated, fails twice over.  When the read of the existing ids
    fails, the loader takes the table to be empty and writes a row whose id
    is already there; and a batch that carries one new id on two rows is
    written whole. *)
Lemma load_can_duplicate_ids :
  ~ (forall (ext : External) (io : HiveLoader.HiveIO) (now : Time)
            (df : Pandas.DataFrame) (table : HiveLoader.Table),
       NoDup (map HiveLoader.detection_id_of table) ->
       NoDup (map HiveLoader.detection_id_of
                (HiveLoader.table_after
                   (HiveLoader.load_with_deduplication ext io now df table) table)))
  /\ ~ (forall (ext : External) (io : HiveLoader.HiveIO) (now : Time)
               (df : Pandas.DataFrame) (table : HiveLoader.Table),
          HiveLoader.read_sql_ok io = true ->
          NoDup (map HiveLoader.detection_id_of table) ->
          NoDup (map HiveLoader.detection_id_of
                   (HiveLoader.table_after
                      (HiveLoader.load_with_deduplication ext io now df table) table))).
Proof.
  split.
  - intros H.
    specialize (H Scenario.ext Scenario.hive_read_fails 0
                  (Scenario.one_row "a") (Scenario.table_with "a")).
    vm_compute in H.
    assert (Hnd : NoDup [Pandas.VStr "a"]) by (apply NoDup_singleton).
    apply H in Hnd. apply NoDup_cons in Hnd as [Hnin _]. apply Hnin. left.
  - intros H.
    specialize (H Scenario.ext Scenario.hive_up 0
                  (Pandas.mkDataFrame 2
                     [("detection_id", [Pandas.VStr "b"; Pandas.VStr "b"])])
                  [] eq_refl).
    vm_compute in H.
    specialize (H (NoDup_nil_2)).
    apply NoDup_cons in H as [Hnin _]. apply Hnin. left.
Qed.

(** C1, amended.  When the read of the existing ids succeeds and the batch
    carries each [detection_id] on at most one row, a load keeps 'at most
    one warehouse row per detection_id', whether it returns or raises; and
    once a load has gone through on the bulk path, loading the same batch
    again returns 0 and leaves the table as it is.  When the read of the
    existing ids fails, the loader filters against the empty set. *)
Theorem load_keeps_one_row_per_id (ext : External) (io : HiveLoader.HiveIO)
    (now : Time) (df : Pandas.DataFrame) (table : HiveLoader.Table) :
  HiveLoader.read_sql_ok io = true ->
  NoDup (map HiveLoader.detection_id_of table) ->
  (forall ids, Pandas.getitem "detection_id" df = [ids] -> NoDup ids) ->
  NoDup (map HiveLoader.detection_id_of
           (HiveLoader.table_after
              (HiveLoader.load_with_deduplication ext io now df table) table))
  /\ (forall n table' io' now',
        HiveLoader.load_data_ok io = true ->
        HiveLoader.read_sql_ok io' = true ->
        HiveLoader.load_with_deduplication ext io now df table = Ok (n, table') ->
        HiveLoader.load_with_deduplication ext io' now' df table' = Ok (0%nat, table'))
  /\ (forall io' table0,
        HiveLoader.read_sql_ok io' = false ->
        HiveLoader.get_existing_detection_ids io' table0 = []).
Proof.
  intros Hread Htable Hbatch. split; [|split].
  - now apply load_keeps_ids_distinct.
  - intros n table' io' now' Hbulk Hread' Hload.
    now apply (reload_loads_nothing ext io io' now now' df table table' n).
  - intros io' table0 H. unfold HiveLoader.get_existing_detection_ids. now rewrite H.
Qed.

Lemma load_keeps_one_row_per_id_witness :
  HiveLoader.read_sql_ok Scenario.hive_up = true
  /\ NoDup (map HiveLoader.detection_id_of (Scenario.table_with "d1"))
  /\ NoDup (map HiveLoader.detection_id_of
             (HiveLoader.table_after
                (HiveLoader.load_with_deduplication Scenario.ext Scenario.hive_up 0
                   (Scenario.detections "d" 3) (Scenario.table_with "d1"))
                (Scenario.table_with "d1"))).
Proof.
  assert (Htable : NoDup (map HiveLoader.detection_id_of (Scenario.table_with "d1")))
    by (apply NoDup_singleton).
  assert (Hbatch : forall ids,
             Pandas.getitem "detection_id" (Scenario.detections "d" 3) = [ids] ->
             NoDup ids).
  { intros ids [= <-]. apply (bool_decide_unpack _). vm_compute. exact I. }
  split; [reflexivity | split; [exact Htable|]].
  exact (proj1 (load_keeps_one_row_per_id Scenario.ext Scenario.hive_up 0
                  (Scenario.detections "d" 3) (Scenario.table_with "d1")
                  eq_refl Htable Hbatch)).
Defined.

(** ** The written schema *)

(** C9 fails on a batch that carries a [_loaded_at] column: [load_batch]
    first sets [loaded_at], then renames [_loaded_at] to [loaded_at], and the
    selection by the expected list returns both columns.  The frame written
    has 38 columns, [loaded_at] twice. *)
Theorem prepare_repeats_loaded_at :
  exists prepared,
    HiveLoader.prepare Scenario.ext 0 Scenario.batch_with_loaded_at = Ok prepared
    /\ length (Pandas.labels prepared) = 38%nat
    /\ length HiveLoader.expected_columns = 37%nat
    /\ filter (fun l => l = "loaded_at") (Pandas.labels prepared)
       = ["loaded_at"; "loaded_at"]
    /\ HiveLoader.load_batch Scenario.ext Scenario.hive_up 0
         Scenario.batch_with_loaded_at []
       = Ok (1%nat, Pandas.rows prepared)
    /\ Forall (fun r => length r = 38%nat) (Pandas.rows prepared).
Proof.
  eexists. split; [vm_compute; reflexivity|].
  split; [reflexivity|]. split; [reflexivity|]. split; [reflexivity|].
  split; [vm_compute; reflexivity|].
  repeat constructor.
Qed.

(** ** The pipeline and the scheduler *)

Section Pipeline.
Import RunEtl.
Variable ext : External.

(** The ways one invocation can end. *)
Lemma run_etl_pipeline_cases (ty : SourceType) (inv : Invocation)
    (bm : BatchManager.t) (table : HiveLoader.Table) :
  let o := run_etl_pipeline ext ty inv bm table in
  let pending :=
    BatchManager.get_pending_files (BatchManager.state bm)
      (map DataExtractor.name
           (files_of ty (DataExtractor.scan_staging_files (staging inv))))
      (Some (source_type_name ty)) in
  (pending = [] /\ o = mkOutcome (Ok ()) [] bm table)
  \/ (pending <> [] /\ exists r, o = mkOutcome r [Extract] bm table)
  \/ (pending <> [] /\ exists e, o = mkOutcome (Raised e) [Extract; Transform] bm table)
  \/ (pending <> [] /\ exists e df,
        HiveLoader.load_with_deduplication ext (hive inv) (at_load (clock inv)) df table
        = Raised e
        /\ o = mkOutcome (Raised e) [Extract; Transform; Load] bm table)
  \/ (pending <> [] /\ exists df n table',
        HiveLoader.load_with_deduplication ext (hive inv) (at_load (clock inv)) df table
        = Ok (n, table')
        /\ o = mkOutcome (Ok ()) [Extract; Transform; Load; UpdateState]
                (BatchManager.with_state bm
                   (update_state ty (clock inv) pending n (BatchManager.state bm)))
                table').
Proof.
  intros o pending. subst o. unfold run_etl_pipeline. fold pending.
  case_bool_decide as Hp; [left; auto|]. right.
  destruct (DataExtractor.extract_multiple ext _ _) as [df_raw | e]; [|left; eauto].
  destruct (Pandas.empty df_raw); [left; eauto|]. right.
  destruct (transform_pipeline ext df_raw) as [df_t | e]; simpl; [|left; eauto].
  destruct (get_transformation_stats ext df_raw df_t) as [[] | e]; simpl; [|left; eauto].
  right.
  destruct (HiveLoader.load_with_deduplication ext (hive inv) (at_load (clock inv))
              df_t table) as [[n table'] | e] eqn:Hload.
  - right. split; [exact Hp|]. exists df_t, n, table'. auto.
  - left. split; [exact Hp|]. exists e, df_t. auto.
Qed.

(** The only way an invocation changes the manager: the extraction gave a
    non-empty frame, the transformer returned on it, and
    [load_with_deduplication] returned on the transformer's result. *)
Lemma run_etl_pipeline_changes (ty : SourceType) (inv : Invocation)
    (bm : BatchManager.t) (table : HiveLoader.Table) :
  let o := run_etl_pipeline ext ty inv bm table in
  let all_files := files_of ty (DataExtractor.scan_staging_files (staging inv)) in
  let pending_files :=
    BatchManager.get_pending_files (BatchManager.state bm)
      (map DataExtractor.name all_files) (Some (source_type_name ty)) in
  let files_to_process :=
    filter (fun f => DataExtractor.name f ∈ pending_files) all_files in
  manager_after o <> bm ->
  exists df_raw df_transformed loaded_count,
    pending_files <> []
    /\ DataExtractor.extract_multiple ext (at_extract (clock inv)) files_to_process
       = Ok df_raw
    /\ Pandas.empty df_raw = false
    /\ transform_pipeline ext df_raw = Ok df_transformed
    /\ get_transformation_stats ext df_raw df_transformed = Ok ()
    /\ HiveLoader.load_with_deduplication ext (hive inv) (at_load (clock inv))
         df_transformed table
       = Ok (loaded_count, table_after o)
    /\ o = mkOutcome (Ok ()) [Extract; Transform; Load; UpdateState]
             (BatchManager.with_state bm
                (update_state ty (clock inv) pending_files loaded_count
                   (BatchManager.state bm)))
             (table_after o).
Proof.
  intros o all_files pending_files files_to_process. subst o.
  unfold run_etl_pipeline. fold all_files. fold pending_files. fold files_to_process.
  case_bool_decide as Hp; [intros H; now contradiction H|].
  destruct (DataExtractor.extract_multiple ext (at_extract (clock inv)) files_to_process)
    as [df_raw | e]; [|intros H; now contradiction H].
  destruct (Pandas.empty df_raw) eqn:Hempty; [intros H; now contradiction H|].
  destruct (transform_pipeline ext df_raw) as [df_t | e] eqn:Ht; cbn [mbind Result_bind];
    [|intros H; now contradiction H].
  destruct (get_transformation_stats ext df_raw df_t) as [[] | e] eqn:Hs;
    cbn [mbind Result_bind]; [|intros H; now contradiction H].
  destruct (HiveLoader.load_with_deduplication ext (hive inv) (at_load (clock inv))
              df_t table) as [[n table'] | e] eqn:Hload;
    [|intros H; now contradiction H].
  intros _. exists df_raw, df_t, n. cbn [table_after]. repeat split; auto.
Qed.

Lemma update_state_pending_images (ty : SourceType) (ck : Clock)
    (pending : list string) (n : nat) (s : BatchManager.State) :
  BatchManager.pending_images s = [] ->
  BatchManager.pending_images (update_state ty ck pending n s) = [].
Proof. intros H. destruct ty; simpl; [exact H | reflexivity]. Qed.

(** An invocation keeps the thresholds, and an empty [pending_images]. *)
Lemma run_etl_pipeline_keeps (ty : SourceType) (inv : Invocation)
    (bm : BatchManager.t) (table : HiveLoader.Table) :
  let bm' := manager_after (run_etl_pipeline ext ty inv bm table) in
  BatchManager.image_batch_size bm' = BatchManager.image_batch_size bm
  /\ BatchManager.video_time_window bm' = BatchManager.video_time_window bm
  /\ (BatchManager.pending_images (BatchManager.state bm) = [] ->
      BatchManager.pending_images (BatchManager.state bm') = []).
Proof.
  destruct (run_etl_pipeline_cases ty inv bm table)
    as [[_ ->] | [[_ [r ->]] | [[_ [e ->]] | [[_ (e & df & _ & ->)]
       | [_ (df & n & table' & _ & ->)]]]]]; simpl; auto.
  repeat split. apply update_state_pending_images.
Qed.

Lemma run_ops_pending_images (ops : list BatchManager.Op) (s : BatchManager.State) :
  BatchManager.pending_images s = [] ->
  BatchManager.pending_images (BatchManager.run_ops ops s) = [].
Proof.
  revert s. unfold BatchManager.run_ops.
  induction ops as [|op ops IH]; intros s H; simpl; [exact H|].
  apply IH. destruct op; simpl; auto.
  unfold BatchManager.cleanup_old_state. now destruct (_ <? _)%nat.
Qed.

Lemma image_trigger_needs_pending (bm : BatchManager.t) :
  1 <= BatchManager.image_batch_size bm ->
  BatchManager.pending_images (BatchManager.state bm) = [] ->
  BatchManager.should_process_image_batch bm
    (Z.of_nat (length (BatchManager.pending_images (BatchManager.state bm)))) = false.
Proof.
  intros HN ->. unfold BatchManager.should_process_image_batch. simpl.
  apply Z.leb_gt. lia.
Qed.

Lemma scheduler_turn_no_image_run (N : Z) (st : SchedulerState) (tick : Tick) :
  1 <= N -> no_image_run N st -> no_image_run N (scheduler_turn ext st tick).
Proof.
  intros HN (Hp & Hsize & Hcb). unfold scheduler_turn.
  destruct (BatchManager.should_process_video_batch (manager st) (video_check_at tick)).
  - destruct (run_etl_pipeline_keeps Video (video_invocation tick) (manager st) (table st))
      as (Hs & _ & Hp').
    specialize (Hp' Hp).
    assert (Hcb' : Image ∉ callbacks st ++ [Video]).
    { rewrite elem_of_app. intros [H | H]; [contradiction|].
      apply list_elem_of_singleton in H. discriminate. }
    simpl.
    destruct (result (run_etl_pipeline ext Video (video_invocation tick)
                        (manager st) (table st))).
    + simpl. rewrite image_trigger_needs_pending; [|lia | exact Hp'].
      repeat split; simpl; auto. congruence.
    + repeat split; simpl; auto. congruence.
  - simpl. rewrite image_trigger_needs_pending; [|lia | exact Hp].
    repeat split; auto.
Qed.

Lemma scheduler_run_no_image_run (N : Z) (ticks : list Tick) (st : SchedulerState) :
  1 <= N -> no_image_run N st ->
  no_image_run N (fold_left (scheduler_turn ext) ticks st).
Proof.
  intros HN. revert st.
  induction ticks as [|tick ticks IH]; intros st H; simpl; [exact H|].
  apply IH. now apply scheduler_turn_no_image_run.
Qed.

End Pipeline.

(** C3.  When an invocation of the pipeline ends in an exception, the
    manager is exactly what it was ([processed_files], [last_video_batch],
    [pending_images], [last_run] and every counter), the state update was
    not entered, the table is untouched and the same files are pending for
    the next run.  The state is changed only after [load_with_deduplication]
    has returned: an invocation that changes the manager has extracted a
    non-empty frame from the pending files, had the transformer return on
    it, and had [load_with_deduplication] return a count on the transformer's
    result; the table afterwards is the table of that load, and the manager
    is the old one updated with the pending files and that count. *)
Theorem failed_invocation_leaves_state (ext : External) (ty : RunEtl.SourceType)
    (inv : RunEtl.Invocation) (bm : BatchManager.t) (table : HiveLoader.Table)
    (e : Exn) :
  RunEtl.result (RunEtl.run_etl_pipeline ext ty inv bm table) = Raised e ->
  let o := RunEtl.run_etl_pipeline ext ty inv bm table in
  RunEtl.manager_after o = bm
  /\ RunEtl.table_after o = table
  /\ (RunEtl.UpdateState ∉ RunEtl.phases o)
  /\ (forall all_files source_type,
        BatchManager.get_pending_files (BatchManager.state (RunEtl.manager_after o))
          all_files source_type
        = BatchManager.get_pending_files (BatchManager.state bm) all_files source_type)
  /\ (forall ty' inv' bm' table',
        let o' := RunEtl.run_etl_pipeline ext ty' inv' bm' table' in
        let all_files :=
          RunEtl.files_of ty' (DataExtractor.scan_staging_files (RunEtl.staging inv')) in
        let pending_files :=
          BatchManager.get_pending_files (BatchManager.state bm')
            (map DataExtractor.name all_files) (Some (RunEtl.source_type_name ty')) in
        let files_to_process :=
          filter (fun f => DataExtractor.name f ∈ pending_files) all_files in
        RunEtl.manager_after o' <> bm' ->
        RunEtl.result o' = Ok ()
        /\ RunEtl.phases o'
           = [RunEtl.Extract; RunEtl.Transform; RunEtl.Load; RunEtl.UpdateState]
        /\ exists df_raw df_transformed loaded_count,
             DataExtractor.extract_multiple ext (RunEtl.at_extract (RunEtl.clock inv'))
               files_to_process = Ok df_raw
             /\ Pandas.empty df_raw = false
             /\ transform_pipeline ext df_raw = Ok df_transformed
             /\ get_transformation_stats ext df_raw df_transformed = Ok ()
             /\ HiveLoader.load_with_deduplication ext (RunEtl.hive inv')
                  (RunEtl.at_load (RunEtl.clock inv')) df_transformed table'
                = Ok (loaded_count, RunEtl.table_after o')
             /\ RunEtl.manager_after o'
                = BatchManager.with_state bm'
                    (RunEtl.update_state ty' (RunEtl.clock inv') pending_files
                       loaded_count (BatchManager.state bm')))
  /\ (forall ty' inv' bm' table' df_raw df_transformed e',
        let all_files :=
          RunEtl.files_of ty' (DataExtractor.scan_staging_files (RunEtl.staging inv')) in
        let pending_files :=
          BatchManager.get_pending_files (BatchManager.state bm')
            (map DataExtractor.name all_files) (Some (RunEtl.source_type_name ty')) in
        let files_to_process :=
          filter (fun f => DataExtractor.name f ∈ pending_files) all_files in
        pending_files <> [] ->
        DataExtractor.extract_multiple ext (RunEtl.at_extract (RunEtl.clock inv'))
          files_to_process = Ok df_raw ->
        Pandas.empty df_raw = false ->
        transform_pipeline ext df_raw = Ok df_transformed ->
        get_transformation_stats ext df_raw df_transformed = Ok () ->
        HiveLoader.load_with_deduplication ext (RunEtl.hive inv')
          (RunEtl.at_load (RunEtl.clock inv')) df_transformed table' = Raised e' ->
        RunEtl.run_etl_pipeline ext ty' inv' bm' table'
        = RunEtl.mkOutcome (Raised e')
            [RunEtl.Extract; RunEtl.Transform; RunEtl.Load] bm' table').
Proof.
  intros Hraised o. subst o.
  assert (Hsame : RunEtl.manager_after (RunEtl.run_etl_pipeline ext ty inv bm table) = bm
                  /\ RunEtl.table_after (RunEtl.run_etl_pipeline ext ty inv bm table) = table
                  /\ RunEtl.UpdateState
                       ∉ RunEtl.phases (RunEtl.run_etl_pipeline ext ty inv bm table)).
  { destruct (run_etl_pipeline_cases ext ty inv bm table)
      as [[_ Ho] | [[_ [r Ho]] | [[_ [e' Ho]] | [[_ (e' & df & _ & Ho)]
         | [_ (df & n & table' & _ & Ho)]]]]]; rewrite Ho in Hraised |- *; simpl in *;
      try discriminate; repeat split; auto;
      intros Hin; repeat (apply elem_of_cons in Hin as [Hin | Hin]; [discriminate|]);
      now apply elem_of_nil in Hin. }
  destruct Hsame as (Hbm & Htable & Hphase).
  split; [exact Hbm|]. split; [exact Htable|]. split; [exact Hphase|].
  split; [|split].
  - intros all_files source_type. now rewrite Hbm.
  - intros ty' inv' bm' table' o' all_files pending_files files_to_process Hchanged.
    destruct (run_etl_pipeline_changes ext ty' inv' bm' table' Hchanged)
      as (df_raw & df_t & n & _ & Hextract & Hempty & Ht & Hs & Hload & Ho).
    fold o' in Hload, Ho. fold all_files in Hextract, Ho.
    fold pending_files in Hextract, Ho. fold files_to_process in Hextract.
    split; [now rewrite Ho|]. split; [now rewrite Ho|].
    exists df_raw, df_t, n. repeat split; auto. now rewrite Ho at 1.
  - intros ty' inv' bm' table' df_raw df_t e' all_files pending_files files_to_process
           Hp Hextract Hempty Ht Hs Hload.
    unfold RunEtl.run_etl_pipeline. fold all_files. fold pending_files.
    fold files_to_process.
    rewrite bool_decide_eq_false_2 by exact Hp.
    rewrite Hextract, Hempty, Ht. cbn [mbind Result_bind]. rewrite Hs.
    cbn [mbind Result_bind]. now rewrite Hload.
Qed.

Lemma failed_invocation_leaves_state_witness :
  RunEtl.result
    (RunEtl.run_etl_pipeline Scenario.ext RunEtl.Image (Scenario.invocation_hive_down 7)
       (BatchManager.init 300 100) [])
  = Raised (HiveError "connection")
  /\ RunEtl.manager_after
       (RunEtl.run_etl_pipeline Scenario.ext RunEtl.Image (Scenario.invocation_hive_down 7)
          (BatchManager.init 300 100) [])
     = BatchManager.init 300 100.
Proof.
  assert (H : RunEtl.result
                (RunEtl.run_etl_pipeline Scenario.ext RunEtl.Image
                   (Scenario.invocation_hive_down 7) (BatchManager.init 300 100) [])
              = Raised (HiveError "connection")) by (vm_compute; reflexivity).
  split; [exact H|].
  exact (proj1 (failed_invocation_leaves_state Scenario.ext RunEtl.Image
                  (Scenario.invocation_hive_down 7) (BatchManager.init 300 100) []
                  (HiveError "connection") H)).
Defined.

Section OneShot.
Import RunEtl.
Variable ext : External.

(** The pipeline reads the manager's state and nothing else of it: the
    thresholds only travel through. *)
Lemma run_etl_pipeline_thresholds (ty : SourceType) (inv : Invocation)
    (w n w' n' : Z) (s : BatchManager.State) (table : HiveLoader.Table) :
  let o := run_etl_pipeline ext ty inv (BatchManager.mk w n s) table in
  let o' := run_etl_pipeline ext ty inv (BatchManager.mk w' n' s) table in
  phases o = phases o' /\ result o = result o' /\ table_after o = table_after o'
  /\ BatchManager.state (manager_after o) = BatchManager.state (manager_after o').
Proof.
  intros o o'. subst o o'. unfold run_etl_pipeline.
  cbn [BatchManager.state].
  set (pending := BatchManager.get_pending_files s _ _).
  destruct (bool_decide (pending = [])); [repeat split|].
  destruct (DataExtractor.extract_multiple ext _ _) as [df_raw | e];
    [|repeat split].
  destruct (Pandas.empty df_raw); [repeat split|].
  destruct (transform_pipeline ext df_raw) as [df_t | e];
    cbn [mbind Result_bind]; [|repeat split].
  destruct (get_transformation_stats ext df_raw df_t) as [[] | e];
    cbn [mbind Result_bind]; [|repeat split].
  destruct (HiveLoader.load_with_deduplication ext (hive inv) (at_load (clock inv))
              df_t table) as [[k table'] | e]; repeat split.
Qed.

Lemma run_etl_pipeline_idle (ty : SourceType) (inv : Invocation)
    (bm : BatchManager.t) (table : HiveLoader.Table) :
  phases (run_etl_pipeline ext ty inv bm table) = [] <->
  BatchManager.get_pending_files (BatchManager.state bm)
    (map DataExtractor.name
         (files_of ty (DataExtractor.scan_staging_files (staging inv))))
    (Some (source_type_name ty)) = [].
Proof.
  destruct (run_etl_pipeline_cases ext ty inv bm table)
    as [[Hp ->] | [[Hp [r ->]] | [[Hp [e ->]] | [[Hp (e & df & _ & ->)]
       | [Hp (df & n & table' & _ & ->)]]]]]; simpl;
    split; intros H; try discriminate; try contradiction; auto.
Qed.

End OneShot.

Example spec_scenario_image_run_loads :
  let o := RunEtl.run_etl_pipeline Scenario.ext RunEtl.Image (Scenario.invocation_at 0)
             (BatchManager.init 300 100) [] in
  BatchManager.should_process_image_batch (BatchManager.init 300 100) 60 = false
  /\ RunEtl.phases o = [RunEtl.Extract; RunEtl.Transform; RunEtl.Load; RunEtl.UpdateState]
  /\ BatchManager.processed_files (BatchManager.state (RunEtl.manager_after o))
     = ["image_b_20240101_100000.csv"]
  /\ BatchManager.image_batches
       (BatchManager.statistics (BatchManager.state (RunEtl.manager_after o))) = 1
  /\ length (RunEtl.table_after o) = 60%nat.
Proof. vm_compute. repeat split. Qed.

Example one_shot_video_run_loads :
  let o := RunEtl.run_etl_pipeline Scenario.ext RunEtl.Video (Scenario.invocation_at 1000000)
             Scenario.manager_after_video_batch [] in
  BatchManager.should_process_video_batch Scenario.manager_after_video_batch 1000000 = false
  /\ RunEtl.phases o = [RunEtl.Extract; RunEtl.Transform; RunEtl.Load; RunEtl.UpdateState]
  /\ BatchManager.processed_files (BatchManager.state (RunEtl.manager_after o))
     = ["video_a_20240101_100000.csv"]
  /\ length (RunEtl.table_after o) = 50%nat.
Proof. vm_compute. repeat split. Qed.

(** C2, as stated, fails in one-shot mode: [run_etl_pipeline] never asks the
    trigger.  With the last video batch one second old (window 300 s) the
    video run extracts, transforms, loads and marks its file; with 60
    pending image rows (threshold 100) the image run does the same. *)
Lemma one_shot_run_ignores_trigger :
  ~ (forall (ext : External) (inv : RunEtl.Invocation) (bm : BatchManager.t)
            (table : HiveLoader.Table) (now : Time),
       BatchManager.should_process_video_batch bm now = false ->
       RunEtl.phases (RunEtl.run_etl_pipeline ext RunEtl.Video inv bm table) = [])
  /\ ~ (forall (ext : External) (inv : RunEtl.Invocation) (bm : BatchManager.t)
               (table : HiveLoader.Table) (pending_count : Z),
          BatchManager.should_process_image_batch bm pending_count = false ->
          RunEtl.phases (RunEtl.run_etl_pipeline ext RunEtl.Image inv bm table) = []).
Proof.
  split; intros H.
  - specialize (H Scenario.ext (Scenario.invocation_at 1000000)
                  Scenario.manager_after_video_batch [] 1000000 eq_refl).
    destruct one_shot_video_run_loads as (_ & Hphases & _).
    rewrite Hphases in H. discriminate H.
  - specialize (H Scenario.ext (Scenario.invocation_at 0)
                  (BatchManager.init 300 100) [] 60 eq_refl).
    destruct spec_scenario_image_run_loads as (_ & Hphases & _).
    rewrite Hphases in H. discriminate H.
Qed.

(** C2, amended.  In continuous mode each turn of the scheduler evaluates
    the video trigger and then, unless the video run raised, the image
    trigger (on the length of [pending_images]); the pipeline is invoked for
    a type exactly when its trigger is satisfied, and a turn with neither
    trigger satisfied changes nothing.  An invocation of the pipeline itself
    (the one-shot mode calls it directly) evaluates no trigger: its outcome
    does not depend on the thresholds, and it stops before extracting exactly
    when no staged file of the type is unprocessed. *)
Theorem scheduler_gates_pipeline (ext : External) (st : RunEtl.SchedulerState)
    (tick : RunEtl.Tick) :
  let bm := RunEtl.manager st in
  let video_due := BatchManager.should_process_video_batch bm (RunEtl.video_check_at tick) in
  let video_run :=
    RunEtl.run_etl_pipeline ext RunEtl.Video (RunEtl.video_invocation tick) bm
      (RunEtl.table st) in
  let video_raised :=
    video_due && match RunEtl.result video_run with Raised _ => true | Ok _ => false end in
  let bm1 := if video_due then RunEtl.manager_after video_run else bm in
  let image_due :=
    BatchManager.should_process_image_batch bm1
      (Z.of_nat (length (BatchManager.pending_images (BatchManager.state bm1)))) in
  let st' := RunEtl.scheduler_turn ext st tick in
  RunEtl.callbacks st'
  = RunEtl.callbacks st ++ (if video_due then [RunEtl.Video] else [])
      ++ (if negb video_raised && image_due then [RunEtl.Image] else [])
  /\ (video_due = false -> image_due = false -> st' = st)
  /\ (forall ty inv bm0 table0,
        RunEtl.phases (RunEtl.run_etl_pipeline ext ty inv bm0 table0) = [] <->
        BatchManager.get_pending_files (BatchManager.state bm0)
          (map DataExtractor.name
               (RunEtl.files_of ty (DataExtractor.scan_staging_files (RunEtl.staging inv))))
          (Some (RunEtl.source_type_name ty)) = [])
  /\ (forall ty inv w n w' n' s table0,
        let o := RunEtl.run_etl_pipeline ext ty inv (BatchManager.mk w n s) table0 in
        let o' := RunEtl.run_etl_pipeline ext ty inv (BatchManager.mk w' n' s) table0 in
        RunEtl.phases o = RunEtl.phases o' /\ RunEtl.result o = RunEtl.result o'
        /\ RunEtl.table_after o = RunEtl.table_after o'
        /\ BatchManager.state (RunEtl.manager_after o)
           = BatchManager.state (RunEtl.manager_after o')).
Proof.
  intros bm video_due video_run video_raised bm1 image_due st'.
  split; [|split; [|split]].
  - subst st' video_raised image_due bm1. unfold RunEtl.scheduler_turn.
    fold bm. fold video_due. fold video_run.
    destruct video_due; simpl.
    + destruct (RunEtl.result video_run); simpl.
      * destruct (BatchManager.should_process_image_batch _ _); simpl;
          now rewrite <- ?app_assoc, ?app_nil_r.
      * reflexivity.
    + destruct (BatchManager.should_process_image_batch _ _); simpl;
        now rewrite ?app_nil_r.
  - intros Hv Hi. subst st' image_due bm1. unfold RunEtl.scheduler_turn.
    fold bm. fold video_due. rewrite Hv in *. simpl. fold bm. now rewrite Hi.
  - intros ty inv bm0 table0. apply run_etl_pipeline_idle.
  - intros ty inv w n w' n' s table0. apply run_etl_pipeline_thresholds.
Qed.

(** C10.  From the default state no sequence of BatchManager operations
    puts anything into [pending_images].  So, with a threshold of at least
    1, the scheduler always asks [should_process_image_batch] about a count
    of 0, gets false, and never invokes the image callback, however many
    turns it runs and whatever the video runs do. *)
Theorem image_callback_never_runs (ext : External) (window batch_size : Z)
    (ticks : list RunEtl.Tick) (table : HiveLoader.Table) :
  1 <= batch_size ->
  let st := RunEtl.scheduler_run ext ticks (BatchManager.init window batch_size) table in
  (forall ops : list BatchManager.Op,
     BatchManager.pending_images (BatchManager.run_ops ops BatchManager.default_state) = [])
  /\ BatchManager.should_process_image_batch (BatchManager.init window batch_size) 0 = false
  /\ BatchManager.pending_images (BatchManager.state (RunEtl.manager st)) = []
  /\ BatchManager.should_process_image_batch (RunEtl.manager st)
       (Z.of_nat (length (BatchManager.pending_images
                            (BatchManager.state (RunEtl.manager st))))) = false
  /\ RunEtl.Image ∉ RunEtl.callbacks st.
Proof.
  intros HN st.
  assert (Hinv : RunEtl.no_image_run batch_size st).
  { subst st. unfold RunEtl.scheduler_run.
    apply scheduler_run_no_image_run; [exact HN|].
    repeat split; simpl; auto. apply not_elem_of_nil. }
  destruct Hinv as (Hp & Hsize & Hcb).
  split; [|split; [|split; [|split]]]; auto.
  - intros ops. now apply run_ops_pending_images.
  - unfold BatchManager.should_process_image_batch. simpl. apply Z.leb_gt. lia.
  - apply image_trigger_needs_pending; [lia | exact Hp].
Qed.

Lemma image_callback_never_runs_witness :
  1 <= 100
  /\ RunEtl.Image
       ∉ RunEtl.callbacks
           (RunEtl.scheduler_run Scenario.ext
              [RunEtl.mkTick 0 (Scenario.invocation_at 0) (Scenario.invocation_at 1);
               RunEtl.mkTick 60000000 (Scenario.invocation_at 60000000)
                 (Scenario.invocation_at 60000001)]
              (BatchManager.init 300 100) []).
Proof.
  assert (H : 1 <= 100) by lia.
  split; [exact H|].
  exact (proj2 (proj2 (proj2 (proj2
           (image_callback_never_runs Scenario.ext 300 100
              [RunEtl.mkTick 0 (Scenario.invocation_at 0) (Scenario.invocation_at 1);
               RunEtl.mkTick 60000000 (Scenario.invocation_at 60000000)
                 (Scenario.invocation_at 60000001)]
              [] H))))).
Defined.

(** ** Detection ids *)

Section Pigeonhole.

Lemma find_value (f : nat -> Z) (v : Z) (n : nat) :
  (exists i, (i <= n)%nat /\ f i = v) \/ (forall i, (i <= n)%nat -> f i <> v).
Proof.
  induction n as [|n [(i & Hi & Hv) | IH]].
  - destruct (Z.eq_dec (f 0%nat) v) as [H | H].
    + left. exists 0%nat. auto.
    + right. intros i Hi. now replace i with 0%nat by lia.
  - left. exists i. split; [lia | exact Hv].
  - destruct (Z.eq_dec (f (S n)) v) as [H | H].
    + left. exists (S n). auto.
    + right. intros i Hi.
      destruct (Nat.eq_dec i (S n)) as [-> | Hne]; [exact H | apply IH; lia].
Qed.

(** [n + 1] values below [n]: two of them are equal. *)
Lemma pigeonhole (n : nat) (f : nat -> Z) :
  (forall i, (i <= n)%nat -> 0 <= f i < Z.of_nat n) ->
  exists i j, (i < j <= n)%nat /\ f i = f j.
Proof.
  revert f. induction n as [|n IH]; intros f Hf.
  - specialize (Hf 0%nat (Nat.le_refl _)). simpl in Hf. lia.
  - destruct (find_value f (f (S n)) n) as [(i & Hi & Hv) | Hfresh].
    + exists i, (S n). split; [lia | exact Hv].
    + set (g := fun i => if f i =? Z.of_nat n then f (S n) else f i).
      destruct (IH g) as (i & j & Hij & Hg).
      * intros i Hi. unfold g.
        pose proof (Hf i ltac:(lia)) as Hbi.
        pose proof (Hf (S n) ltac:(lia)) as Hbn.
        pose proof (Hfresh i Hi) as Hne.
        destruct (Z.eqb_spec (f i) (Z.of_nat n)); lia.
      * exists i, j. split; [lia|].
        unfold g in Hg.
        pose proof (Hfresh i ltac:(lia)) as Hi.
        pose proof (Hfresh j ltac:(lia)) as Hj.
        destruct (Z.eqb_spec (f i) (Z.of_nat n)), (Z.eqb_spec (f j) (Z.of_nat n));
          congruence.
Qed.

(** Infinitely many inputs, finitely many values. *)
Lemma bounded_function_collides (N : Z) (f : nat -> Z) :
  (forall i, 0 <= f i < N) -> exists i j, i <> j /\ f i = f j.
Proof.
  intros Hf.
  assert (HN : 0 < N) by (specialize (Hf 0%nat); lia).
  destruct (pigeonhole (Z.to_nat N) f) as (i & j & Hij & Heq).
  - intros i _. rewrite Z2Nat.id by lia. apply Hf.
  - exists i, j. split; [lia | exact Heq].
Qed.

End Pigeonhole.

Section DigestFacts.
Import MD5.

Lemma word_is_word (x : Z) : is_word (word x).
Proof. unfold is_word, word. apply Z.mod_pos_bound. reflexivity. Qed.

Lemma process_chunk_words (h : State) (chunk : list Z) :
  words_state (process_chunk h chunk).
Proof. unfold process_chunk, words_state. cbn [A B C D]. repeat split; apply word_is_word. Qed.

Lemma fold_process_chunk_words (chunks : list (list Z)) (h : State) :
  words_state h -> words_state (fold_left process_chunk chunks h).
Proof.
  revert h. induction chunks as [|c chunks IH]; intros h Hh; simpl; [exact Hh|].
  apply IH, process_chunk_words.
Qed.

Lemma digest_state_words (msg : list Z) : words_state (digest_state msg).
Proof.
  unfold digest_state. apply fold_process_chunk_words.
  unfold words_state, is_word, init. simpl. lia.
Qed.

Lemma state_number_bound (st : State) :
  words_state st -> 0 <= state_number st < 2 ^ 128.
Proof.
  unfold words_state, is_word, state_number. intros (HA & HB & HC & HD). lia.
Qed.

Lemma state_number_inj (st st' : State) :
  words_state st -> words_state st' ->
  state_number st = state_number st' -> st = st'.
Proof.
  unfold words_state, is_word, state_number.
  destruct st as [a b c d], st' as [a' b' c' d']. simpl.
  intros (HA & HB & HC & HD) (HA' & HB' & HC' & HD') H.
  assert (d = d') by lia. subst d'.
  assert (c = c') by lia. subst c'.
  assert (b = b') by lia. subst b'.
  assert (a = a') by lia. now subst a'.
Qed.

Lemma hex_digit_length (n : Z) : String.length (hex_digit n) = 1%nat.
Proof.
  unfold hex_digit. generalize (Z.to_nat n). intros k.
  do 16 (destruct k as [|k]; [reflexivity|]). simpl. now destruct k.
Qed.

Lemma string_length_app (s1 s2 : string) :
  String.length (s1 +:+ s2) = (String.length s1 + String.length s2)%nat.
Proof. induction s1 as [|c s1 IH]; simpl; [reflexivity | now rewrite IH]. Qed.

Lemma hex_length (bytes : list Z) :
  String.length (hex bytes) = (2 * length bytes)%nat.
Proof.
  induction bytes as [|b bytes IH]; [reflexivity|].
  simpl hex. unfold hex_byte.
  rewrite !string_length_app, !hex_digit_length, IH. simpl. lia.
Qed.

Lemma hexdigest_length (msg : list Z) : String.length (hexdigest msg) = 32%nat.
Proof.
  unfold hexdigest. rewrite hex_length. unfold state_bytes, le_bytes.
  now rewrite !length_app, !length_map, !length_seq.
Qed.

End DigestFacts.

Section DetectionIds.
Import ObjectDetector.

Lemma unique_string_inj (source_info : SourceInfo) (idx1 idx2 : Z) :
  unique_string source_info idx1 = unique_string source_info idx2 -> idx1 = idx2.
Proof.
  unfold unique_string. intros H.
  repeat apply (inj (String.app _)) in H.
  now apply (inj pretty) in H.
Qed.

(** For every [source_info], two different indexes share an id. *)
Lemma some_indexes_collide (source_info : SourceInfo) :
  exists idx1 idx2 : Z,
    idx1 <> idx2
    /\ _generate_detection_id source_info idx1 = _generate_detection_id source_info idx2.
Proof.
  set (st := fun k : nat =>
               MD5.digest_state (MD5.encode (unique_string source_info (Z.of_nat k)))).
  destruct (bounded_function_collides (2 ^ 128) (fun k => MD5.state_number (st k)))
    as (i & j & Hij & Heq).
  - intros k. apply state_number_bound, digest_state_words.
  - exists (Z.of_nat i), (Z.of_nat j). split; [lia|].
    apply state_number_inj in Heq; [|apply digest_state_words..].
    unfold _generate_detection_id, MD5.hexdigest. unfold st in Heq. now rewrite Heq.
Qed.

End DetectionIds.

(** Distinct ids for distinct indexes cannot hold over all integers: an
    id has 128 bits and the indexes are unbounded, so for every
    [source_info] some two different indexes get the same id.  The argument
    counts; it names no such pair. *)
Lemma detection_ids_not_injective :
  ~ (forall (source_info : ObjectDetector.SourceInfo) (idx1 idx2 : Z),
       idx1 <> idx2 ->
       ObjectDetector._generate_detection_id source_info idx1
       <> ObjectDetector._generate_detection_id source_info idx2).
Proof.
  intros H.
  destruct (some_indexes_collide ObjectDetector.test_source_info)
    as (idx1 & idx2 & Hne & Heq).
  exact (H ObjectDetector.test_source_info idx1 idx2 Hne Heq).
Qed.

Example md5_empty : MD5.hexdigest (MD5.encode "") = "d41d8cd98f00b204e9800998ecf8427e".
Proof. vm_compute. reflexivity. Qed.

Example md5_abc : MD5.hexdigest (MD5.encode "abc") = "900150983cd24fb0d6963f7d28e17f72".
Proof. vm_compute. reflexivity. Qed.

Example md5_two_chunks :
  MD5.hexdigest (MD5.encode (String.concat "" (replicate 56 "a")))
  = "3b0c8ac703f828b04c6c197006d17218".
Proof. vm_compute. reflexivity. Qed.

Example md5_120 :
  MD5.hexdigest (MD5.encode (String.concat "" (replicate 120 "a")))
  = "5f61c0ccad4cac44c75ff505e1f1e537".
Proof. vm_compute. reflexivity. Qed.

Example detection_id_test_0 :
  ObjectDetector._generate_detection_id ObjectDetector.test_source_info 0
  = "437d50e4035c555c8f9b23834a549420".
Proof. vm_compute. reflexivity. Qed.

Example detection_id_test_1 :
  ObjectDetector._generate_detection_id ObjectDetector.test_source_info 1
  = "9e8cfee9000215457e23217353ebfa86".
Proof. vm_compute. reflexivity. Qed.

(** * Further properties of the modelled code *)

(** ** BatchManager: marking and pending files *)

Section Marking.
Import BatchManager.

Lemma mark_file_elem (processed : list string) (x f : string) :
  f ∈ mark_file processed x <-> f ∈ processed \/ f = x.
Proof.
  unfold mark_file. case_bool_decide as Hx.
  - split; [auto | intros [H | ->]; auto].
  - rewrite elem_of_app, list_elem_of_singleton. tauto.
Qed.

Lemma mark_files_elem (filenames processed : list string) (f : string) :
  f ∈ fold_left mark_file filenames processed <-> f ∈ processed \/ f ∈ filenames.
Proof.
  revert processed. induction filenames as [|x filenames IH]; intros processed; simpl.
  - rewrite elem_of_nil. tauto.
  - rewrite IH, mark_file_elem, elem_of_cons. tauto.
Qed.

Lemma mark_file_NoDup (processed : list string) (x : string) :
  NoDup processed -> NoDup (mark_file processed x).
Proof.
  intros H. unfold mark_file. case_bool_decide as Hx; [exact H|].
  apply NoDup_app. split; [exact H|]. split.
  - intros y Hy Hyx. apply list_elem_of_singleton in Hyx. now subst.
  - apply NoDup_singleton.
Qed.

Lemma mark_files_NoDup (filenames processed : list string) :
  NoDup processed -> NoDup (fold_left mark_file filenames processed).
Proof.
  revert processed. induction filenames as [|x filenames IH]; intros processed H; simpl.
  - exact H.
  - apply IH, mark_file_NoDup, H.
Qed.

Lemma mark_file_prefix (processed : list string) (x : string) :
  processed `prefix_of` mark_file processed x.
Proof.
  unfold mark_file. case_bool_decide; [reflexivity | now apply prefix_app_r].
Qed.

Lemma mark_files_prefix (filenames processed : list string) :
  processed `prefix_of` fold_left mark_file filenames processed.
Proof.
  revert processed. induction filenames as [|x filenames IH]; intros processed; simpl.
  - reflexivity.
  - etransitivity; [apply mark_file_prefix | apply IH].
Qed.

Lemma mark_files_known (filenames processed : list string) :
  Forall (fun f => f ∈ processed) filenames ->
  fold_left mark_file filenames processed = processed.
Proof.
  intros H. induction H as [|x filenames Hx _ IH]; simpl; [reflexivity|].
  unfold mark_file at 2. now rewrite bool_decide_eq_true_2.
Qed.

End Marking.

(** X1.  [mark_files_processed] adds exactly the given names: afterwards a
    name is processed iff it was before or is one of them; the old list is
    kept as a prefix (new names go to the end, in call order); a list
    without repetition stays without repetition; nothing else in the state
    changes; and marking the same names again changes nothing. *)
Theorem mark_files_processed_adds (filenames : list string) (s : BatchManager.State) :
  let s' := BatchManager.mark_files_processed filenames s in
  (forall f, f ∈ BatchManager.processed_files s'
             <-> f ∈ BatchManager.processed_files s \/ f ∈ filenames)
  /\ BatchManager.processed_files s `prefix_of` BatchManager.processed_files s'
  /\ (NoDup (BatchManager.processed_files s) -> NoDup (BatchManager.processed_files s'))
  /\ BatchManager.last_video_batch s' = BatchManager.last_video_batch s
  /\ BatchManager.pending_images s' = BatchManager.pending_images s
  /\ BatchManager.last_run s' = BatchManager.last_run s
  /\ BatchManager.statistics s' = BatchManager.statistics s
  /\ BatchManager.mark_files_processed filenames s' = s'.
Proof.
  intros s'. subst s'. simpl.
  split; [intros f; apply mark_files_elem|].
  split; [apply mark_files_prefix|].
  split; [apply mark_files_NoDup|].
  repeat (split; [reflexivity|]).
  unfold BatchManager.mark_files_processed. simpl. f_equal.
  apply mark_files_known. apply Forall_forall. intros f Hf.
  apply mark_files_elem. now right.
Qed.

Section Pending.
Import BatchManager.

Lemma get_pending_files_elem (s : State) (all_files : list string)
    (source_type : option string) (f : string) :
  f ∈ get_pending_files s all_files source_type ->
  f ∈ all_files /\ f ∉ processed_files s.
Proof.
  unfold get_pending_files.
  destruct source_type as [ty|]; [case_bool_decide|];
    rewrite ?list_elem_of_filter; tauto.
Qed.

Lemma get_pending_files_sublist (s : State) (all_files : list string)
    (source_type : option string) :
  get_pending_files s all_files source_type `sublist_of` all_files.
Proof.
  unfold get_pending_files.
  destruct source_type as [ty|]; [case_bool_decide|]; try apply sublist_filter.
  etransitivity; apply sublist_filter.
Qed.

Lemma filter_nil_iff {A} (P : A -> Prop) `{!forall x, Decision (P x)} (l : list A) :
  filter P l = [] <-> Forall (fun x => ~ P x) l.
Proof.
  induction l as [|x l IH]; [split; auto|].
  rewrite filter_cons, Forall_cons. destruct (decide (P x)) as [Hx | Hx].
  - split; [discriminate | tauto].
  - rewrite IH. tauto.
Qed.

(** Once the pending files are marked, none of them is pending. *)
Lemma pending_after_marking (s : State) (all_files : list string)
    (source_type : option string) :
  get_pending_files
    (mark_files_processed (get_pending_files s all_files source_type) s)
    all_files source_type = [].
Proof.
  set (pending := get_pending_files s all_files source_type).
  assert (Hdone : forall f, f ∈ all_files ->
                    f ∉ processed_files (mark_files_processed pending s) ->
                    (f ∉ processed_files s) /\ (f ∉ pending)).
  { intros f Hf Hn. simpl in Hn. rewrite mark_files_elem in Hn. tauto. }
  unfold get_pending_files at 1.
  assert (Hfilter : forall f, f ∈ all_files ->
                      f ∉ processed_files (mark_files_processed pending s) ->
                      match source_type with
                      | Some ty => ty <> "" /\ startswith (ty +:+ "_") f = false
                      | None => False
                      end).
  { intros f Hf Hn. destruct (Hdone f Hf Hn) as [Hs Hp].
    unfold pending, get_pending_files in Hp.
    destruct source_type as [ty|].
    - case_bool_decide as Hty.
      + exfalso. apply Hp. now apply list_elem_of_filter.
      + split; [exact Hty|].
        destruct (startswith (ty +:+ "_") f) eqn:Hpre; [|reflexivity].
        exfalso. apply Hp. rewrite !list_elem_of_filter. auto.
    - apply Hp. now apply list_elem_of_filter. }
  destruct source_type as [ty|]; [case_bool_decide as Hty|].
  - apply filter_nil_iff, Forall_forall. intros f Hf Hn.
    now destruct (Hfilter f Hf Hn).
  - apply filter_nil_iff, Forall_forall. intros f Hf Hpre.
    apply list_elem_of_filter in Hf as [Hn Hf].
    destruct (Hfilter f Hf Hn) as [_ Hno]. congruence.
  - apply filter_nil_iff, Forall_forall. intros f Hf Hn.
    exact (Hfilter f Hf Hn).
Qed.

End Pending.

(** X2.  [get_pending_files] returns, in the order of [all_files], names
    that are in [all_files] and not in [processed_files]; with a
    [source_type] every name starts with that type and an underscore; and
    after [mark_files_processed] on its result the same call returns
    nothing. *)
Theorem get_pending_files_pending (s : BatchManager.State) (all_files : list string)
    (source_type : option string) :
  let pending := BatchManager.get_pending_files s all_files source_type in
  pending `sublist_of` all_files
  /\ (forall f, f ∈ pending -> f ∈ all_files /\ f ∉ BatchManager.processed_files s)
  /\ (forall ty f, source_type = Some ty -> ty <> "" -> f ∈ pending ->
        BatchManager.startswith (ty +:+ "_") f = true)
  /\ (source_type = None ->
      forall f, f ∈ all_files -> f ∉ BatchManager.processed_files s -> f ∈ pending)
  /\ BatchManager.get_pending_files (BatchManager.mark_files_processed pending s)
       all_files source_type = [].
Proof.
  intros pending. subst pending.
  split; [apply get_pending_files_sublist|].
  split; [intros f; apply get_pending_files_elem|].
  split; [|split].
  - intros ty f -> Hty Hf. unfold BatchManager.get_pending_files in Hf.
    rewrite bool_decide_eq_false_2 in Hf by exact Hty.
    now apply list_elem_of_filter in Hf as [? _].
  - intros -> f Hf Hn. unfold BatchManager.get_pending_files.
    now apply list_elem_of_filter.
  - apply pending_after_marking.
Qed.

(** ** BatchManager: the reported wait and the video trigger *)

(** X3.  The wait [get_statistics] reports for the next video batch is the
    time left until the video trigger fires: it is absent exactly when no
    video batch was ever recorded; otherwise it is never negative, it is 0
    exactly when [should_process_video_batch] is true now, the trigger is
    false at every time before [now + wait] and true at [now + wait]. *)
Theorem reported_wait_is_time_to_trigger (bm : BatchManager.t) (now : Time) :
  let report := BatchReport.get_statistics bm now in
  (BatchReport.until_next_video_batch report = None
     <-> BatchManager.last_video_batch (BatchManager.state bm) = None)
  /\ (forall wait,
        BatchReport.until_next_video_batch report = Some wait ->
        0 <= wait
        /\ (wait = 0 <-> BatchManager.should_process_video_batch bm now = true)
        /\ BatchManager.should_process_video_batch bm (now + wait) = true
        /\ (forall t, now <= t < now + wait ->
              BatchManager.should_process_video_batch bm t = false))
  /\ BatchReport.processed_files_count report
     = length (BatchManager.processed_files (BatchManager.state bm))
  /\ BatchReport.counters report = BatchManager.statistics (BatchManager.state bm).
Proof.
  intros report. subst report.
  unfold BatchReport.get_statistics, BatchManager.should_process_video_batch. simpl.
  destruct (BatchManager.last_video_batch (BatchManager.state bm)) as [last|].
  - split; [split; discriminate|]. split; [|split; reflexivity].
    intros wait [= <-].
    split; [lia|]. split; [|split].
    + rewrite Z.leb_le. lia.
    + apply Z.leb_le. lia.
    + intros t Ht. apply Z.leb_gt. lia.
  - split; [split; reflexivity|]. split; [discriminate | split; reflexivity].
Qed.

Section Retry.
Import RunEtl.
Variable ext : External.

Lemma video_trigger_stays (bm : BatchManager.t) (t t' : Time) :
  BatchManager.should_process_video_batch bm t = true -> t <= t' ->
  BatchManager.should_process_video_batch bm t' = true.
Proof.
  unfold BatchManager.should_process_video_batch.
  destruct (BatchManager.last_video_batch (BatchManager.state bm)); [|auto].
  rewrite !Z.leb_le. lia.
Qed.

Lemma failed_invocation_state (ty : SourceType) (inv : Invocation)
    (bm : BatchManager.t) (table : HiveLoader.Table) (e : Exn) :
  result (run_etl_pipeline ext ty inv bm table) = Raised e ->
  manager_after (run_etl_pipeline ext ty inv bm table) = bm
  /\ table_after (run_etl_pipeline ext ty inv bm table) = table.
Proof.
  destruct (run_etl_pipeline_cases ext ty inv bm table)
    as [[_ ->] | [[_ [r ->]] | [[_ [e' ->]] | [[_ (e' & df & _ & ->)]
       | [_ (df & n & table' & _ & ->)]]]]]; simpl; auto.
  discriminate.
Qed.

Lemma failed_video_turn (st : SchedulerState) (tick : Tick) (e : Exn) :
  BatchManager.should_process_video_batch (manager st) (video_check_at tick) = true ->
  result (run_etl_pipeline ext Video (video_invocation tick) (manager st) (table st))
  = Raised e ->
  scheduler_turn ext st tick
  = mkSchedulerState (callbacks st ++ [Video]) (manager st) (table st).
Proof.
  intros Hdue Hraised. unfold scheduler_turn. rewrite Hdue. simpl. rewrite Hraised.
  destruct (failed_invocation_state Video (video_invocation tick) (manager st)
              (table st) e Hraised) as [-> ->].
  reflexivity.
Qed.

End Retry.

(** X4.  A video run that raises does not stop the scheduler and is tried
    again: the turn leaves manager and table as they were (the video
    callback is recorded, the image check of that turn is skipped), and at
    the next turn, checked at the same or a later time, the video trigger is
    still satisfied and the video callback is invoked again. *)
Theorem scheduler_retries_failed_video_run (ext : External)
    (st : RunEtl.SchedulerState) (tick tick' : RunEtl.Tick) (e : Exn) :
  BatchManager.should_process_video_batch (RunEtl.manager st)
    (RunEtl.video_check_at tick) = true ->
  RunEtl.result
    (RunEtl.run_etl_pipeline ext RunEtl.Video (RunEtl.video_invocation tick)
       (RunEtl.manager st) (RunEtl.table st)) = Raised e ->
  RunEtl.video_check_at tick <= RunEtl.video_check_at tick' ->
  let st1 := RunEtl.scheduler_turn ext st tick in
  st1 = RunEtl.mkSchedulerState (RunEtl.callbacks st ++ [RunEtl.Video])
          (RunEtl.manager st) (RunEtl.table st)
  /\ exists rest,
       RunEtl.callbacks (RunEtl.scheduler_turn ext st1 tick')
       = RunEtl.callbacks st ++ [RunEtl.Video; RunEtl.Video] ++ rest.
Proof.
  intros Hdue Hraised Hlater st1.
  assert (Hst1 : st1 = RunEtl.mkSchedulerState (RunEtl.callbacks st ++ [RunEtl.Video])
                         (RunEtl.manager st) (RunEtl.table st))
    by (now apply (failed_video_turn ext st tick e)).
  split; [exact Hst1|].
  rewrite Hst1. unfold RunEtl.scheduler_turn. cbn [RunEtl.manager RunEtl.table RunEtl.callbacks].
  rewrite (video_trigger_stays _ _ _ Hdue Hlater). cbn [fst snd].
  destruct (RunEtl.result
              (RunEtl.run_etl_pipeline ext RunEtl.Video (RunEtl.video_invocation tick')
                 (RunEtl.manager st) (RunEtl.table st))).
  - cbn [RunEtl.manager RunEtl.table RunEtl.callbacks].
    destruct (BatchManager.should_process_image_batch _ _); cbn [RunEtl.callbacks].
    + exists [RunEtl.Image]. now rewrite <- !app_assoc.
    + exists []. now rewrite <- !app_assoc.
  - cbn [RunEtl.callbacks]. exists []. now rewrite <- !app_assoc.
Qed.

Lemma scheduler_retries_failed_video_run_witness :
  exists rest,
    RunEtl.callbacks
      (RunEtl.scheduler_turn Scenario.ext
         (RunEtl.scheduler_turn Scenario.ext
            (RunEtl.mkSchedulerState [] (BatchManager.init 300 100) [])
            (RunEtl.mkTick 0 (Scenario.invocation_hive_down 0)
               (Scenario.invocation_hive_down 0)))
         (RunEtl.mkTick 60000000 (Scenario.invocation_at 60000000)
            (Scenario.invocation_at 60000000)))
    = [] ++ [RunEtl.Video; RunEtl.Video] ++ rest.
Proof.
  assert (Hdue : BatchManager.should_process_video_batch (BatchManager.init 300 100) 0
                 = true) by reflexivity.
  assert (Hraised : RunEtl.result
                      (RunEtl.run_etl_pipeline Scenario.ext RunEtl.Video
                         (Scenario.invocation_hive_down 0) (BatchManager.init 300 100) [])
                    = Raised (HiveError "connection")) by (vm_compute; reflexivity).
  assert (Hlater : 0 <= 60000000) by lia.
  exact (proj2 (scheduler_retries_failed_video_run Scenario.ext
                  (RunEtl.mkSchedulerState [] (BatchManager.init 300 100) [])
                  (RunEtl.mkTick 0 (Scenario.invocation_hive_down 0)
                     (Scenario.invocation_hive_down 0))
                  (RunEtl.mkTick 60000000 (Scenario.invocation_at 60000000)
                     (Scenario.invocation_at 60000000))
                  (HiveError "connection") Hdue Hraised Hlater)).
Defined.

(** ** The pipeline: what a completed run leaves behind *)

Section Completed.
Import RunEtl.
Variable ext : External.

Lemma completed_run (ty : SourceType) (inv : Invocation) (bm : BatchManager.t)
    (table : HiveLoader.Table) :
  UpdateState ∈ phases (run_etl_pipeline ext ty inv bm table) ->
  exists df n table',
    HiveLoader.load_with_deduplication ext (hive inv) (at_load (clock inv)) df table
    = Ok (n, table')
    /\ run_etl_pipeline ext ty inv bm table
       = mkOutcome (Ok ()) [Extract; Transform; Load; UpdateState]
           (BatchManager.with_state bm
              (update_state ty (clock inv)
                 (BatchManager.get_pending_files (BatchManager.state bm)
                    (map DataExtractor.name
                       (files_of ty (DataExtractor.scan_staging_files (staging inv))))
                    (Some (source_type_name ty)))
                 n (BatchManager.state bm)))
           table'.
Proof.
  destruct (run_etl_pipeline_cases ext ty inv bm table)
    as [[_ ->] | [[_ [r ->]] | [[_ [e' ->]] | [[_ (e' & df & _ & ->)]
       | [_ (df & n & table' & Hload & ->)]]]]]; simpl; intros Hin;
    try (repeat (apply elem_of_cons in Hin as [Hin | Hin]; [discriminate Hin|]);
         now apply elem_of_nil in Hin).
  now exists df, n, table'.
Qed.

Lemma update_state_processed_files (ty : SourceType) (ck : Clock)
    (pending : list string) (n : nat) (s : BatchManager.State) :
  BatchManager.processed_files (update_state ty ck pending n s)
  = BatchManager.processed_files (BatchManager.mark_files_processed pending s).
Proof. now destruct ty. Qed.

Lemma get_pending_files_ext (s s' : BatchManager.State) (all_files : list string)
    (source_type : option string) :
  BatchManager.processed_files s = BatchManager.processed_files s' ->
  BatchManager.get_pending_files s all_files source_type
  = BatchManager.get_pending_files s' all_files source_type.
Proof. intros H. unfold BatchManager.get_pending_files. now rewrite H. Qed.

Lemma second_run_idle (ty : SourceType) (inv inv' : Invocation)
    (bm : BatchManager.t) (table : HiveLoader.Table) :
  UpdateState ∈ phases (run_etl_pipeline ext ty inv bm table) ->
  staging inv' = staging inv ->
  run_etl_pipeline ext ty inv'
    (manager_after (run_etl_pipeline ext ty inv bm table))
    (table_after (run_etl_pipeline ext ty inv bm table))
  = mkOutcome (Ok ()) []
      (manager_after (run_etl_pipeline ext ty inv bm table))
      (table_after (run_etl_pipeline ext ty inv bm table)).
Proof.
  intros Hdone Hstaging.
  destruct (completed_run ty inv bm table Hdone) as (df & n & table' & _ & ->).
  cbn [manager_after table_after].
  unfold run_etl_pipeline at 1. rewrite Hstaging.
  cbn [BatchManager.state BatchManager.with_state].
  rewrite (get_pending_files_ext _
             (BatchManager.mark_files_processed
                (BatchManager.get_pending_files (BatchManager.state bm)
                   (map DataExtractor.name
                      (files_of ty (DataExtractor.scan_staging_files (staging inv))))
                   (Some (source_type_name ty)))
                (BatchManager.state bm)))
    by apply update_state_processed_files.
  rewrite pending_after_marking.
  now rewrite bool_decide_eq_true_2.
Qed.

End Completed.

(** X5.  A run that reached the state update leaves nothing to do: run
    again for the same type on the same staging area (whatever the
    warehouse and the clock do then), the pipeline finds no pending file,
    stops before extracting and leaves manager and table as they are. *)
Theorem second_run_finds_nothing (ext : External) (ty : RunEtl.SourceType)
    (inv inv' : RunEtl.Invocation) (bm : BatchManager.t) (table : HiveLoader.Table) :
  RunEtl.UpdateState ∈ RunEtl.phases (RunEtl.run_etl_pipeline ext ty inv bm table) ->
  RunEtl.staging inv' = RunEtl.staging inv ->
  let o := RunEtl.run_etl_pipeline ext ty inv bm table in
  RunEtl.run_etl_pipeline ext ty inv' (RunEtl.manager_after o) (RunEtl.table_after o)
  = RunEtl.mkOutcome (Ok ()) [] (RunEtl.manager_after o) (RunEtl.table_after o).
Proof. intros Hdone Hstaging o. now apply second_run_idle. Qed.

Lemma second_run_finds_nothing_witness :
  let o := RunEtl.run_etl_pipeline Scenario.ext RunEtl.Image (Scenario.invocation_at 0)
             (BatchManager.init 300 100) [] in
  RunEtl.run_etl_pipeline Scenario.ext RunEtl.Image (Scenario.invocation_hive_down 9)
    (RunEtl.manager_after o) (RunEtl.table_after o)
  = RunEtl.mkOutcome (Ok ()) [] (RunEtl.manager_after o) (RunEtl.table_after o).
Proof.
  assert (Hdone : RunEtl.UpdateState
                    ∈ RunEtl.phases
                        (RunEtl.run_etl_pipeline Scenario.ext RunEtl.Image
                           (Scenario.invocation_at 0) (BatchManager.init 300 100) [])).
  { destruct spec_scenario_image_run_loads as (_ & -> & _).
    apply (bool_decide_unpack _). reflexivity. }
  exact (second_run_finds_nothing Scenario.ext RunEtl.Image (Scenario.invocation_at 0)
           (Scenario.invocation_hive_down 9) (BatchManager.init 300 100) []
           Hdone eq_refl).
Defined.

(** X6.  A completed video run opens the time window: for a positive
    window [W], from the instant recorded by [update_video_batch_time] until
    [W] seconds later the video trigger is false, and from then on it is
    true.  A run for images never moves the window: the video trigger
    answers after it as it did before. *)
Theorem video_run_opens_window (ext : External) (inv : RunEtl.Invocation)
    (bm : BatchManager.t) (table : HiveLoader.Table) (t : Time) :
  0 < BatchManager.video_time_window bm ->
  RunEtl.UpdateState
    ∈ RunEtl.phases (RunEtl.run_etl_pipeline ext RunEtl.Video inv bm table) ->
  let bm' := RunEtl.manager_after (RunEtl.run_etl_pipeline ext RunEtl.Video inv bm table) in
  let t0 := RunEtl.at_video_batch (RunEtl.clock inv) in
  let W := BatchManager.video_time_window bm * BatchManager.microseconds in
  BatchManager.last_video_batch (BatchManager.state bm') = Some t0
  /\ (t0 <= t < t0 + W -> BatchManager.should_process_video_batch bm' t = false)
  /\ (t0 + W <= t -> BatchManager.should_process_video_batch bm' t = true)
  /\ (forall inv0 bm0 table0 t1,
        BatchManager.should_process_video_batch
          (RunEtl.manager_after (RunEtl.run_etl_pipeline ext RunEtl.Image inv0 bm0 table0))
          t1
        = BatchManager.should_process_video_batch bm0 t1).
Proof.
  intros HW Hdone bm' t0 W. subst bm'.
  destruct (completed_run ext RunEtl.Video inv bm table Hdone)
    as (df & n & table' & _ & ->).
  cbn [RunEtl.manager_after].
  unfold BatchManager.should_process_video_batch at 1 2.
  cbn [BatchManager.state BatchManager.with_state BatchManager.video_time_window
       RunEtl.update_state BatchManager.last_video_batch
       BatchManager.update_video_batch_time].
  fold t0. fold W.
  split; [reflexivity|]. split; [|split].
  - intros Ht. apply Z.leb_gt. lia.
  - intros Ht. apply Z.leb_le. lia.
  - intros inv0 bm0 table0 t1.
    destruct (run_etl_pipeline_cases ext RunEtl.Image inv0 bm0 table0)
      as [[_ ->] | [[_ [r ->]] | [[_ [e' ->]] | [[_ (e' & df0 & _ & ->)]
         | [_ (df0 & n0 & table0' & _ & ->)]]]]]; reflexivity.
Qed.

Lemma video_run_opens_window_witness :
  BatchManager.should_process_video_batch
    (RunEtl.manager_after
       (RunEtl.run_etl_pipeline Scenario.ext RunEtl.Video (Scenario.invocation_at 1000000)
          Scenario.manager_after_video_batch []))
    2000000 = false.
Proof.
  assert (HW : 0 < BatchManager.video_time_window Scenario.manager_after_video_batch)
    by (simpl; lia).
  assert (Hdone : RunEtl.UpdateState
                    ∈ RunEtl.phases
                        (RunEtl.run_etl_pipeline Scenario.ext RunEtl.Video
                           (Scenario.invocation_at 1000000)
                           Scenario.manager_after_video_batch [])).
  { destruct one_shot_video_run_loads as (_ & -> & _).
    apply (bool_decide_unpack _). reflexivity. }
  refine (proj1 (proj2 (video_run_opens_window Scenario.ext (Scenario.invocation_at 1000000)
                          Scenario.manager_after_video_batch [] 2000000 HW Hdone)) _).
  simpl. unfold BatchManager.microseconds. lia.
Defined.

(** ** The loader: the chunked fallback *)

Section Fallback.
Import Pandas HiveLoader.

Lemma take_plus {A} (n m : nat) (l : list A) :
  take (n + m) l = take n l ++ take m (drop n l).
Proof.
  revert l. induction n as [|n IH]; intros l; [reflexivity|].
  destruct l as [|x l]; simpl.
  - now rewrite take_nil.
  - now rewrite IH.
Qed.

Lemma insert_chunks_none (io : HiveIO) (all_rows : list (list Value))
    (starts : list nat) (acc : nat * Table) :
  (forall i, insert_ok io i = false) ->
  fold_left (insert_chunk io all_rows) starts acc = acc.
Proof.
  intros Hno. revert acc. induction starts as [|k starts IH]; intros acc; simpl.
  - reflexivity.
  - unfold insert_chunk at 2. rewrite Hno. apply IH.
Qed.

Lemma insert_chunks_all (io : HiveIO) (all_rows : list (list Value))
    (m k0 : nat) (acc : nat * Table) :
  (forall i, insert_ok io i = true) ->
  fold_left (insert_chunk io all_rows)
            (map (fun k => (k * chunk_size)%nat) (seq k0 m)) acc
  = ((acc.1 + length (take (m * chunk_size) (drop (k0 * chunk_size) all_rows)))%nat,
     acc.2 ++ take (m * chunk_size) (drop (k0 * chunk_size) all_rows)).
Proof.
  intros Hall. revert k0 acc. induction m as [|m IH]; intros k0 acc.
  - simpl. rewrite Nat.add_0_r, app_nil_r. now destruct acc.
  - simpl seq. simpl map. simpl fold_left.
    unfold insert_chunk at 2. rewrite slice_chunk, Hall, IH. simpl fst. simpl snd.
    replace (S m * chunk_size)%nat with (chunk_size + m * chunk_size)%nat by lia.
    rewrite (take_plus chunk_size), drop_drop, length_app, <- app_assoc.
    replace (k0 * chunk_size + chunk_size)%nat with (S k0 * chunk_size)%nat by lia.
    f_equal. lia.
Qed.

Lemma chunks_cover (n : nat) : (n <= (n + chunk_size - 1) / chunk_size * chunk_size)%nat.
Proof.
  unfold chunk_size.
  pose proof (Nat.div_mod_eq (n + 100 - 1) 100) as Hdm.
  pose proof (Nat.mod_upper_bound (n + 100 - 1) 100) as Hub.
  lia.
Qed.

End Fallback.

(** X7.  When the bulk load fails, the chunked INSERT path covers every row
    exactly once and in order: if every INSERT succeeds, [load_batch] stores
    the same rows and returns the same count as a successful bulk load; if
    every INSERT fails it still returns, with count 0 and the table
    untouched. *)
Theorem fallback_covers_all_rows (io : HiveLoader.HiveIO) (df : Pandas.DataFrame)
    (table : HiveLoader.Table) :
  HiveLoader.to_csv_ok io = true ->
  HiveLoader.connection_ok io = true ->
  HiveLoader.load_data_ok io = false ->
  ((forall i, HiveLoader.insert_ok io i = true) ->
   HiveLoader.write_rows io df table = Ok (Pandas.nrows df, table ++ Pandas.rows df))
  /\ ((forall i, HiveLoader.insert_ok io i = false) ->
      HiveLoader.write_rows io df table = Ok (0%nat, table)).
Proof.
  intros H1 H2 H3. unfold HiveLoader.write_rows. rewrite H1, H2, H3. simpl.
  split; intros Hins.
  - unfold HiveLoader.range_step. rewrite insert_chunks_all by exact Hins.
    cbn [fst snd]. rewrite Nat.mul_0_l, drop_0.
    rewrite take_ge by (rewrite length_rows; apply chunks_cover).
    now rewrite length_rows.
  - now rewrite insert_chunks_none.
Qed.

Lemma fallback_covers_all_rows_witness :
  HiveLoader.write_rows Scenario2.hive_inserts_only (Scenario.detections "d" 250) []
  = Ok (250%nat, [] ++ Pandas.rows (Scenario.detections "d" 250)).
Proof.
  apply (fallback_covers_all_rows Scenario2.hive_inserts_only
           (Scenario.detections "d" 250) [] eq_refl eq_refl eq_refl).
  intros i. reflexivity.
Defined.

Section RejectedWrites.
Import Pandas HiveLoader.
Variable ext : External.

Lemma write_rows_rejected (io : HiveIO) (df : DataFrame) (table : Table) :
  rejects_writes io -> write_rows io df table = Ok (0%nat, table).
Proof.
  intros (H1 & H2 & H3 & H4). unfold write_rows. rewrite H1, H2, H3. simpl.
  now rewrite insert_chunks_none.
Qed.

Lemma load_batch_rejected (io : HiveIO) (now : Time) (df : DataFrame)
    (table table' : Table) (n : nat) :
  rejects_writes io ->
  load_batch ext io now df table = Ok (n, table') -> n = 0%nat /\ table' = table.
Proof.
  intros Hio. unfold load_batch.
  destruct (empty df); [now intros [= <- <-]|].
  destruct (prepare ext now df) as [p | e]; simpl; [|discriminate].
  rewrite write_rows_rejected by exact Hio. now intros [= <- <-].
Qed.

Lemma load_with_deduplication_rejected (io : HiveIO) (now : Time) (df : DataFrame)
    (table table' : Table) (n : nat) :
  rejects_writes io ->
  load_with_deduplication ext io now df table = Ok (n, table') ->
  n = 0%nat /\ table' = table.
Proof.
  intros Hio. unfold load_with_deduplication.
  destruct (empty df); [now intros [= <- <-]|].
  destruct (getitem "detection_id" df) as [|ids [|ids' more]]; try discriminate.
  destruct (empty (filter_rows _ df)); [now intros [= <- <-]|].
  now apply load_batch_rejected.
Qed.

End RejectedWrites.

(** X8.  A warehouse that refuses every write is not an error for the
    pipeline: when the bulk load and all chunked INSERTs fail,
    [load_with_deduplication] returns 0, so a run that gets that far still
    updates the state: the table is unchanged, yet every pending file is
    marked processed (a later run will not pick it up), [total_batches]
    grows by one and [total_records] stays as it was. *)
Theorem rejected_writes_still_mark_files (ext : External) (ty : RunEtl.SourceType)
    (inv : RunEtl.Invocation) (bm : BatchManager.t) (table : HiveLoader.Table) :
  rejects_writes (RunEtl.hive inv) ->
  RunEtl.UpdateState ∈ RunEtl.phases (RunEtl.run_etl_pipeline ext ty inv bm table) ->
  let o := RunEtl.run_etl_pipeline ext ty inv bm table in
  let s := BatchManager.state bm in
  let s' := BatchManager.state (RunEtl.manager_after o) in
  RunEtl.result o = Ok ()
  /\ RunEtl.table_after o = table
  /\ (forall f,
        f ∈ BatchManager.get_pending_files s
              (map DataExtractor.name
                   (RunEtl.files_of ty
                      (DataExtractor.scan_staging_files (RunEtl.staging inv))))
              (Some (RunEtl.source_type_name ty)) ->
        f ∈ BatchManager.processed_files s')
  /\ BatchManager.total_records (BatchManager.statistics s')
     = BatchManager.total_records (BatchManager.statistics s)
  /\ BatchManager.total_batches (BatchManager.statistics s')
     = BatchManager.total_batches (BatchManager.statistics s) + 1.
Proof.
  intros Hio Hdone o s s'. subst o s s'.
  destruct (completed_run ext ty inv bm table Hdone) as (df & n & table' & Hload & ->).
  apply (load_with_deduplication_rejected ext _ _ _ _ _ _ Hio) in Hload as [-> ->].
  cbn [RunEtl.result RunEtl.table_after RunEtl.manager_after
       BatchManager.state BatchManager.with_state].
  split; [reflexivity|]. split; [reflexivity|]. split; [|split].
  - intros f Hf. rewrite update_state_processed_files. simpl.
    apply mark_files_elem. now right.
  - destruct ty; simpl; lia.
  - destruct ty; simpl; lia.
Qed.

Lemma rejected_writes_still_mark_files_witness :
  let o := RunEtl.run_etl_pipeline Scenario.ext RunEtl.Image
             (Scenario2.invocation_rejecting 5) (BatchManager.init 300 100) [] in
  RunEtl.result o = Ok () /\ RunEtl.table_after o = [].
Proof.
  assert (Hio : rejects_writes (RunEtl.hive (Scenario2.invocation_rejecting 5)))
    by (repeat split).
  assert (Hdone : RunEtl.UpdateState
                    ∈ RunEtl.phases
                        (RunEtl.run_etl_pipeline Scenario.ext RunEtl.Image
                           (Scenario2.invocation_rejecting 5)
                           (BatchManager.init 300 100) [])).
  { apply (bool_decide_unpack _). vm_compute. exact I. }
  pose proof (rejected_writes_still_mark_files Scenario.ext RunEtl.Image
                (Scenario2.invocation_rejecting 5) (BatchManager.init 300 100) []
                Hio Hdone) as (Hr & Ht & _).
  split; [exact Hr | exact Ht].
Defined.

(** ** The loader: a failed read of the existing ids *)

Section FailedRead.
Import Pandas HiveLoader.
Variable ext : External.

Lemma filter_not_in_nil (ids : list Value) :
  filter (fun v => v ∉ @nil Value) ids = ids.
Proof.
  induction ids as [|v ids IH]; [reflexivity|].
  rewrite filter_cons_True by apply not_elem_of_nil. now rewrite IH.
Qed.

Lemma novel_mask_nil (ids : list Value) :
  novel_mask [] ids = replicate (length ids) true.
Proof.
  induction ids as [|v ids IH]; [reflexivity|].
  change (novel_mask [] (v :: ids))
    with (negb (bool_decide (v ∈ @nil Value)) :: novel_mask [] ids).
  rewrite IH, bool_decide_eq_false_2 by apply not_elem_of_nil. reflexivity.
Qed.

Lemma mask_filter_all {A} (data : list A) :
  mask_filter (replicate (length data) true) data = data.
Proof.
  induction data as [|x data IH]; [reflexivity|].
  simpl replicate. now rewrite mask_filter_true, IH.
Qed.

Lemma failed_read_keeps_rows (io : HiveIO) (table : Table) (ids : list Value)
    (df : DataFrame) :
  read_sql_ok io = false ->
  getitem "detection_id" df = [ids] -> well_formed df ->
  rows (filtered io table ids df) = rows df.
Proof.
  intros Hread Hids Hwf.
  pose proof (column_length _ _ _ Hwf Hids) as Hlen.
  unfold filtered, get_existing_detection_ids. rewrite Hread.
  destruct df as [n cols]. simpl in *.
  rewrite rows_filter_rows; [|now rewrite length_novel_mask | exact Hwf].
  rewrite novel_mask_nil, Hlen.
  rewrite <- (length_rows (mkDataFrame n cols)) at 1.
  apply mask_filter_all.
Qed.

Lemma failed_read_loads_all (io : HiveIO) (now : Time) (df : DataFrame)
    (table table' : Table) (ids : list Value) (n : nat) :
  read_sql_ok io = false -> load_data_ok io = true ->
  empty df = false -> getitem "detection_id" df = [ids] -> well_formed df ->
  load_with_deduplication ext io now df table = Ok (n, table') ->
  n = nrows df
  /\ map detection_id_of table' = map detection_id_of table ++ ids.
Proof.
  intros Hread Hbulk He Hids Hwf Hload.
  pose proof (column_length _ _ _ Hwf Hids) as Hlen.
  rewrite (load_with_deduplication_eq ext io now df table ids He Hids) in Hload.
  destruct (filtered_ids io table ids df Hids) as [Hg Hn].
  unfold get_existing_detection_ids in Hg, Hn. rewrite Hread in Hg, Hn.
  rewrite filter_not_in_nil in Hg, Hn.
  destruct (empty (filtered io table ids df)) eqn:Hnew.
  - exfalso. apply (filtered_empty io table ids df Hids) in Hnew.
    unfold get_existing_detection_ids in Hnew. rewrite Hread, filter_not_in_nil in Hnew.
    subst ids. unfold empty in He. simpl in Hlen. rewrite <- Hlen in He.
    simpl in He. unfold getitem in Hids.
    destruct (columns df); [discriminate Hids | discriminate He].
  - destruct (load_batch_ok ext io now _ table table' _ n Hnew Hg (eq_sym Hn) Hload)
      as (prepared & written & _ & -> & -> & _ & _ & Hfull).
    destruct (Hfull Hbulk) as [_ Hw].
    split.
    + rewrite <- Hlen, <- Hw. now rewrite length_map.
    + now rewrite map_app, Hw.
Qed.

End FailedRead.

(** X9.  When the read of the existing ids fails, nothing is filtered: the
    batch that goes to [load_batch] has the rows of the input batch, and on
    the bulk path the call returns [len(df)] and appends one row per row of
    the batch, whatever the table already holds. *)
Theorem failed_read_loads_whole_batch (ext : External) (io : HiveLoader.HiveIO)
    (now : Time) (df : Pandas.DataFrame) (table : HiveLoader.Table)
    (ids : list Pandas.Value) :
  HiveLoader.read_sql_ok io = false ->
  Pandas.empty df = false ->
  Pandas.getitem "detection_id" df = [ids] ->
  Pandas.well_formed df ->
  Pandas.rows (HiveLoader.filtered io table ids df) = Pandas.rows df
  /\ (HiveLoader.load_data_ok io = true ->
      forall n table',
        HiveLoader.load_with_deduplication ext io now df table = Ok (n, table') ->
        n = Pandas.nrows df
        /\ map HiveLoader.detection_id_of table'
           = map HiveLoader.detection_id_of table ++ ids).
Proof.
  intros Hread He Hids Hwf. split.
  - now apply failed_read_keeps_rows.
  - intros Hbulk n table' Hload.
    now apply (failed_read_loads_all ext io now df table table' ids n).
Qed.

Lemma failed_read_loads_whole_batch_witness :
  Pandas.rows
    (HiveLoader.filtered Scenario.hive_read_fails (Scenario.table_with "d1")
       (Scenario.detection_ids "d" 3) (Scenario.detections "d" 3))
  = Pandas.rows (Scenario.detections "d" 3).
Proof.
  assert (Hwf : Pandas.well_formed (Scenario.detections "d" 3)) by (repeat constructor).
  exact (proj1 (failed_read_loads_whole_batch Scenario.ext Scenario.hive_read_fails 0
                  (Scenario.detections "d" 3) (Scenario.table_with "d1")
                  (Scenario.detection_ids "d" 3) eq_refl eq_refl eq_refl Hwf)).
Defined.

(** ** The loader: the schema of the prepared frame *)

Section Schema.
Import Pandas HiveLoader.
Variable ext : External.

Lemma labels_setitem (l : string) (data : list Value) (df : DataFrame) :
  labels (setitem l data df)
  = if has_column l df then labels df else labels df ++ [l].
Proof.
  unfold setitem, labels. destruct (has_column l df); simpl.
  - induction (columns df) as [|c cols IH]; [reflexivity|].
    simpl. f_equal; [|exact IH]. case_bool_decide as Hc; [now rewrite Hc | reflexivity].
  - now rewrite fmap_app.
Qed.

Lemma setitem_NoDup (l : string) (data : list Value) (df : DataFrame) :
  NoDup (labels df) -> NoDup (labels (setitem l data df)).
Proof.
  intros H. rewrite labels_setitem. destruct (has_column l df) eqn:Hl; [exact H|].
  apply NoDup_app. split; [exact H|]. split; [|apply NoDup_singleton].
  intros x Hx Hxl. apply list_elem_of_singleton in Hxl. subst x.
  unfold has_column in Hl. now apply bool_decide_eq_false in Hl.
Qed.

Lemma add_processing_date_NoDup (now : Time) (df dated : DataFrame) :
  NoDup (labels df) -> add_processing_date ext now df = Ok dated ->
  NoDup (labels dated).
Proof.
  intros Hnd. unfold add_processing_date, setitem_scalar.
  repeat match goal with
         | |- context [if ?b then _ else _] => destruct b
         | |- context [match getitem ?x ?d with _ => _ end] =>
             destruct (getitem x d) as [|? [|? ?]]
         | |- context [match to_datetime_day ?e ?d with _ => _ end] =>
             destruct (to_datetime_day e d)
         end;
    intros [= <-] || discriminate; now apply setitem_NoDup.
Qed.

(** The only way [add_processing_date] fails is the date conversion. *)
Lemma add_processing_date_error (now : Time) (df : DataFrame) (e : Exn) :
  add_processing_date ext now df = Raised e -> exists what, e = ValueError what.
Proof.
  unfold add_processing_date, setitem_scalar.
  repeat match goal with
         | |- context [if ?b then _ else _] => destruct b
         | |- context [match getitem ?x ?d with _ => _ end] =>
             destruct (getitem x d) as [|? [|? ?]]
         | |- context [match to_datetime_day ?e ?d with _ => _ end] =>
             destruct (to_datetime_day e d)
         end;
    intros [= <-] || discriminate; eauto.
Qed.

(** What the loop over the expected columns appends. *)
Lemma add_missing_columns (cols : list string) (df : DataFrame) :
  exists added,
    columns (fold_left add_missing cols df)
    = columns df ++ map (fun l => (l, replicate (nrows df) VNone)) added
    /\ NoDup added
    /\ (forall l, l ∈ added -> (l ∉ labels df) /\ l ∈ cols)
    /\ (forall l, l ∈ cols -> l ∈ labels df \/ l ∈ added).
Proof.
  revert df. induction cols as [|c cols IH]; intros df.
  - exists []. simpl. rewrite app_nil_r.
    split; [reflexivity|]. split; [apply NoDup_nil_2|].
    split; intros l Hl; now apply elem_of_nil in Hl.
  - simpl fold_left. unfold add_missing at 2.
    destruct (has_column c df) eqn:Hc.
    + destruct (IH df) as (added & Hcols & Hnd & Hnew & Hall).
      exists added. split; [exact Hcols|]. split; [exact Hnd|]. split.
      * intros l Hl. destruct (Hnew l Hl). split; [assumption | now right].
      * intros l Hl. apply elem_of_cons in Hl as [-> | Hl]; [|now apply Hall].
        left. unfold has_column in Hc. now apply bool_decide_eq_true in Hc.
    + destruct (IH (setitem_scalar c VNone df)) as (added & Hcols & Hnd & Hnew & Hall).
      assert (Hlab : labels (setitem_scalar c VNone df) = labels df ++ [c]).
      { unfold setitem_scalar. now rewrite labels_setitem, Hc. }
      assert (Hcol : columns (setitem_scalar c VNone df)
                     = columns df ++ [(c, replicate (nrows df) VNone)]).
      { unfold setitem_scalar, setitem. now rewrite Hc. }
      assert (Hn : nrows (setitem_scalar c VNone df) = nrows df)
        by apply nrows_setitem.
      assert (Hcn : c ∉ labels df).
      { unfold has_column in Hc. now apply bool_decide_eq_false in Hc. }
      exists (c :: added). rewrite Hcols, Hcol, Hn, <- app_assoc. simpl.
      split; [reflexivity|]. split; [|split].
      * apply NoDup_cons. split; [|exact Hnd].
        intros Hin. destruct (Hnew c Hin) as [Hno _]. apply Hno.
        rewrite Hlab, elem_of_app, list_elem_of_singleton. now right.
      * intros l Hl. apply elem_of_cons in Hl as [-> | Hl].
        -- split; [exact Hcn | now left].
        -- destruct (Hnew l Hl) as [Hno Hin]. split; [|now right].
           intros Hl'. apply Hno. rewrite Hlab, elem_of_app. now left.
      * intros l Hl. apply elem_of_cons in Hl as [-> | Hl].
        -- right. now left.
        -- destruct (Hall l Hl) as [Hin | Hin].
           ++ rewrite Hlab, elem_of_app, list_elem_of_singleton in Hin.
              destruct Hin as [Hin | ->]; [now left | right; now left].
           ++ right. now right.
Qed.

Lemma filter_label_unique (l : string) (cols : list (string * list Value)) :
  NoDup cols.*1 -> l ∈ cols.*1 ->
  exists c, filter (fun c => c.1 = l) cols = [c] /\ c.1 = l /\ c ∈ cols.
Proof.
  induction cols as [|c cols IH]; intros Hnd Hin.
  - now apply elem_of_nil in Hin.
  - rewrite fmap_cons in Hnd, Hin. apply NoDup_cons in Hnd as [Hc Hnd].
    rewrite filter_cons. destruct (decide (c.1 = l)) as [Hl | Hl].
    + exists c. split; [|split; [exact Hl | now left]].
      f_equal. apply filter_nil_iff, Forall_forall.
      intros c' Hc' Hl'. apply Hc. rewrite Hl, <- Hl'.
      now apply list_elem_of_fmap_2.
    + apply elem_of_cons in Hin as [Hin | Hin]; [congruence|].
      destruct (IH Hnd Hin) as (c' & Hf & Hl' & Hc').
      exists c'. split; [exact Hf | split; [exact Hl' | now right]].
Qed.

Lemma select_columns_exact (wanted : list string) (cols r : list (string * list Value)) :
  NoDup cols.*1 ->
  select_columns wanted cols = Ok r ->
  r.*1 = wanted /\ Forall (fun c => c ∈ cols) r.
Proof.
  intros Hnd. revert r. induction wanted as [|l wanted IH]; intros r; simpl.
  - intros [= <-]. split; [reflexivity | constructor].
  - destruct (filter (fun c : string * list Value => c.1 = l) cols)
      as [|c found] eqn:Hf; [discriminate|].
    assert (Hin : l ∈ cols.*1).
    { assert (Hc : c ∈ filter (fun c : string * list Value => c.1 = l) cols)
        by (rewrite Hf; left).
      apply list_elem_of_filter in Hc as [<- Hc]. now apply list_elem_of_fmap_2. }
    destruct (filter_label_unique l cols Hnd Hin) as (c' & Hf' & Hl & Hc').
    rewrite Hf in Hf'. injection Hf' as -> ->.
    destruct (select_columns wanted cols) as [rest | e]; simpl; [|discriminate].
    intros [= <-]. destruct (IH rest eq_refl) as [Hlab Hall].
    split; [|now constructor].
    change ((c' :: rest).*1) with (c'.1 :: rest.*1). now rewrite Hl, Hlab.
Qed.

Lemma select_columns_total (wanted : list string) (cols : list (string * list Value)) :
  Forall (fun l => l ∈ cols.*1) wanted ->
  exists r, select_columns wanted cols = Ok r.
Proof.
  intros H. induction H as [|l wanted Hl _ [rest IH]]; simpl; [eauto|].
  destruct (filter (fun c : string * list Value => c.1 = l) cols) as [|c found] eqn:Hf.
  - exfalso. apply list_elem_of_fmap in Hl as (c & -> & Hc).
    assert (Hin : c ∈ filter (fun c' : string * list Value => c'.1 = c.1) cols)
      by now apply list_elem_of_filter.
    rewrite Hf in Hin. now apply elem_of_nil in Hin.
  - rewrite IH. simpl. eauto.
Qed.

End Schema.

Section SchemaMain.
Import Pandas HiveLoader.
Variable ext : External.

Lemma select_ok (wanted : list string) (df p : DataFrame) :
  select wanted df = Ok p ->
  exists r, select_columns wanted (columns df) = Ok r /\ p = mkDataFrame (nrows df) r.
Proof.
  unfold select. destruct (select_columns wanted (columns df)) as [r | e]; simpl.
  - intros [= <-]. eauto.
  - discriminate.
Qed.

Lemma expected_columns_NoDup : NoDup expected_columns.
Proof. apply (bool_decide_unpack _). vm_compute. exact I. Qed.

Lemma nulls_labels (n : nat) (added : list string) :
  (map (fun l : string => (l, replicate n VNone)) added).*1 = added.
Proof.
  induction added as [|a added IH]; [reflexivity|]. simpl. f_equal. exact IH.
Qed.

(** Selecting the expected columns from a frame without repeated labels
    that consists of [dated] and null columns. *)
Lemma select_schema (dated full p : DataFrame) (added : list string) (n : nat) :
  NoDup (labels dated) ->
  columns full = columns dated ++ map (fun l => (l, replicate n VNone)) added ->
  NoDup added ->
  (forall l, l ∈ added -> l ∉ labels dated) ->
  select expected_columns full = Ok p ->
  labels p = expected_columns
  /\ nrows p = nrows full
  /\ (forall l, l ∈ expected_columns -> (l ∉ labels dated) ->
        getitem l p = [replicate n VNone]).
Proof.
  intros Hnd Hcols Hadded Hnew Hsel.
  apply select_ok in Hsel as (r & Hr & ->).
  assert (Hnd4 : NoDup (columns full).*1).
  { rewrite Hcols, fmap_app, nulls_labels. apply NoDup_app.
    split; [exact Hnd|]. split; [|exact Hadded].
    intros l Hl Hl'. now apply (Hnew l Hl'). }
  destruct (select_columns_exact _ _ _ Hnd4 Hr) as [Hlab Hin].
  split; [exact Hlab|]. split; [reflexivity|].
  intros l Hl Hmissing. unfold getitem. cbn [columns].
  assert (Hlr : l ∈ r.*1) by now rewrite Hlab.
  assert (Hndr : NoDup r.*1) by (rewrite Hlab; apply expected_columns_NoDup).
  destruct (filter_label_unique l r Hndr Hlr) as (c & -> & Hc1 & Hc).
  rewrite Forall_forall in Hin. apply Hin in Hc.
  rewrite Hcols, elem_of_app in Hc. destruct Hc as [Hc | Hc].
  - exfalso. apply Hmissing. rewrite <- Hc1. now apply list_elem_of_fmap_2.
  - apply list_elem_of_fmap in Hc as (l' & -> & _). reflexivity.
Qed.

Lemma prepare_schema (now : Time) (df dated p : DataFrame) :
  add_processing_date ext now
    (fold_left rename_step rename_map
       (setitem_scalar "loaded_at" (VStr (isoformat ext now)) df)) = Ok dated ->
  NoDup (labels dated) ->
  select expected_columns (fold_left add_missing expected_columns dated) = Ok p ->
  labels p = expected_columns
  /\ nrows p = nrows df
  /\ (forall l, l ∈ expected_columns -> (l ∉ labels dated) ->
        getitem l p = [replicate (nrows df) VNone]).
Proof.
  intros Hdate Hnd Hsel.
  assert (Hn : nrows dated = nrows df).
  { apply (add_processing_date_keeps ext "detection_id") in Hdate as [_ ->];
      [|discriminate].
    rewrite nrows_rename_steps. apply nrows_setitem. }
  destruct (add_missing_columns expected_columns dated)
    as (added & Hcols & Hadded & Hnew & Hall).
  rewrite Hn in Hcols.
  destruct (select_schema dated _ p added (nrows df) Hnd Hcols Hadded
              (fun l Hl => proj1 (Hnew l Hl)) Hsel) as (Hlab & Hrows & Hnull).
  split; [exact Hlab|]. split; [|exact Hnull].
  rewrite Hrows, nrows_add_missing. exact Hn.
Qed.

Lemma prepare_only_fails_on_dates (now : Time) (df : DataFrame) (e : Exn) :
  prepare ext now df = Raised e -> exists what, e = ValueError what.
Proof.
  rewrite prepare_eq.
  destruct (add_processing_date ext now _) as [dated | e'] eqn:Hdate.
  - destruct (add_missing_columns expected_columns dated)
      as (added & Hcols & _ & _ & Hall).
    destruct (select_columns_total expected_columns
                (columns (fold_left add_missing expected_columns dated))) as [r Hr].
    { apply Forall_forall. intros l Hl.
      rewrite Hcols, fmap_app, nulls_labels, elem_of_app.
      destruct (Hall l Hl) as [Hin | Hin]; [now left | now right]. }
    unfold select. rewrite Hr. discriminate.
  - intros [= <-]. eapply add_processing_date_error. exact Hdate.
Qed.

End SchemaMain.

(** X10.  When the renaming leaves no two columns with the same name,
    [load_batch] writes exactly the expected schema: the prepared frame has
    the 37 expected labels in their order, as many rows as the batch, 37
    cells in every row, and an expected column that the batch did not bring
    (and that is not [processing_date]) is filled with nulls.  Whatever the
    batch, preparing the frame can only fail in the date conversion: the
    selection of the expected columns never raises [KeyError]. *)
Theorem prepare_gives_expected_schema (ext : External) (now : Time)
    (df prepared : Pandas.DataFrame) :
  NoDup (Pandas.labels
           (fold_left HiveLoader.rename_step HiveLoader.rename_map
              (Pandas.setitem_scalar "loaded_at" (Pandas.VStr (isoformat ext now)) df))) ->
  HiveLoader.prepare ext now df = Ok prepared ->
  Pandas.labels prepared = HiveLoader.expected_columns
  /\ Pandas.nrows prepared = Pandas.nrows df
  /\ Forall (fun r => length r = 37%nat) (Pandas.rows prepared)
  /\ (forall l,
        l ∈ HiveLoader.expected_columns -> l <> "processing_date" ->
        (l ∉ Pandas.labels
               (fold_left HiveLoader.rename_step HiveLoader.rename_map
                  (Pandas.setitem_scalar "loaded_at"
                     (Pandas.VStr (isoformat ext now)) df))) ->
        Pandas.getitem l prepared = [replicate (Pandas.nrows df) Pandas.VNone])
  /\ (forall df0 e,
        HiveLoader.prepare ext now df0 = Raised e -> exists what, e = ValueError what).
Proof.
  intros Hnd Hprep.
  split; [|split; [|split; [|split]]];
    try (intros df0 e; apply prepare_only_fails_on_dates).
  all: rewrite prepare_eq in Hprep.
  all: destruct (HiveLoader.add_processing_date ext now _) as [dated | e] eqn:Hdate;
    [|discriminate Hprep].
  all: pose proof (add_processing_date_NoDup ext now _ dated Hnd Hdate) as Hnd'.
  all: destruct (prepare_schema ext now df dated prepared Hdate Hnd' Hprep)
    as (Hlab & Hn & Hnull).
  - exact Hlab.
  - exact Hn.
  - apply Forall_forall. intros r Hr. unfold Pandas.rows in Hr.
    apply list_elem_of_fmap in Hr as (i & -> & _). unfold Pandas.row.
    rewrite length_map.
    change (length (Pandas.columns prepared)) with (length (Pandas.columns prepared)).
    rewrite <- (length_fmap fst). fold (Pandas.labels prepared). now rewrite Hlab.
  - intros l Hl Hpd Hmissing. apply Hnull; [exact Hl|].
    intros Hin. apply Hmissing.
    assert (Hg : Pandas.getitem l dated <> []) by now apply has_column_getitem, bool_decide_eq_true.
    destruct (add_processing_date_keeps ext l now _ dated Hpd Hdate) as [Hsame _].
    rewrite Hsame in Hg.
    apply has_column_getitem in Hg. unfold Pandas.has_column in Hg.
    now apply bool_decide_eq_true in Hg.
Qed.

Lemma prepare_gives_expected_schema_witness :
  exists prepared,
    HiveLoader.prepare Scenario.ext 0 (Scenario.detections "d" 3) = Ok prepared
    /\ Pandas.labels prepared = HiveLoader.expected_columns.
Proof.
  destruct (HiveLoader.prepare Scenario.ext 0 (Scenario.detections "d" 3))
    as [prepared | e] eqn:Hprep.
  - exists prepared. split; [reflexivity|].
    refine (proj1 (prepare_gives_expected_schema Scenario.ext 0
                     (Scenario.detections "d" 3) prepared _ Hprep)).
    apply (bool_decide_unpack _). vm_compute. exact I.
  - vm_compute in Hprep. discriminate Hprep.
Defined.

(** ** The loader: renamed columns and the date column *)

Section Renaming.
Import Pandas HiveLoader.

Lemma labels_rename (old new : string) (df : DataFrame) :
  labels (rename old new df)
  = map (fun l => if bool_decide (l = old) then new else l) (labels df).
Proof.
  unfold rename, labels. simpl.
  induction (columns df) as [|c cols IH]; [reflexivity|].
  simpl. f_equal; [|exact IH]. now case_bool_decide.
Qed.

Lemma rename_step_absent (l : string) (entry : string * string) (df : DataFrame) :
  l ∉ labels df -> entry.2 <> l -> l ∉ labels (rename_step df entry).
Proof.
  intros Hl Hnew. unfold rename_step. destruct (has_column entry.1 df); [|exact Hl].
  rewrite labels_rename. intros Hin.
  apply list_elem_of_fmap in Hin as (l' & Heq & Hl').
  case_bool_decide; subst; auto.
Qed.

Lemma rename_steps_absent (l : string) (entries : list (string * string))
    (df : DataFrame) :
  l ∉ labels df -> Forall (fun e => e.2 <> l) entries ->
  l ∉ labels (fold_left rename_step entries df).
Proof.
  intros Hl H. revert df Hl.
  induction H as [|e entries He _ IH]; intros df Hl; simpl; [exact Hl|].
  apply IH. now apply rename_step_absent.
Qed.

Lemma rename_step_removes (old new : string) (df : DataFrame) :
  old <> new -> old ∉ labels (rename_step df (old, new)).
Proof.
  intros Hne. unfold rename_step. simpl.
  destruct (has_column old df) eqn:Hc.
  - rewrite labels_rename. intros Hin.
    apply list_elem_of_fmap in Hin as (l' & Heq & Hl').
    case_bool_decide; subst; auto.
  - unfold has_column in Hc. now apply bool_decide_eq_false in Hc.
Qed.

Lemma rename_step_moves (old new : string) (df : DataFrame) :
  old ∈ labels df -> new ∈ labels (rename_step df (old, new)).
Proof.
  intros Hin. unfold rename_step. simpl.
  unfold has_column. rewrite bool_decide_eq_true_2 by exact Hin.
  rewrite labels_rename. apply list_elem_of_fmap. exists old.
  now rewrite bool_decide_eq_true_2.
Qed.

Lemma rename_step_present (l : string) (entry : string * string) (df : DataFrame) :
  l ∈ labels df -> entry.1 <> l -> l ∈ labels (rename_step df entry).
Proof.
  intros Hl Hold. unfold rename_step. destruct (has_column entry.1 df); [|exact Hl].
  rewrite labels_rename. apply list_elem_of_fmap. exists l.
  split; [|exact Hl]. now rewrite bool_decide_eq_false_2.
Qed.

Lemma rename_steps_present (l : string) (entries : list (string * string))
    (df : DataFrame) :
  l ∈ labels df -> Forall (fun e => e.1 <> l) entries ->
  l ∈ labels (fold_left rename_step entries df).
Proof.
  intros Hl H. revert df Hl.
  induction H as [|e entries He _ IH]; intros df Hl; simpl; [exact Hl|].
  apply IH. now apply rename_step_present.
Qed.

Lemma rename_steps_gone (old new : string) (entries : list (string * string))
    (df : DataFrame) :
  (old, new) ∈ entries -> Forall (fun e => e.2 <> old) entries ->
  old ∉ labels (fold_left rename_step entries df).
Proof.
  intros Hin H. revert df Hin.
  induction H as [|e entries He Hrest IH]; intros df Hin.
  - now apply elem_of_nil in Hin.
  - simpl fold_left. apply elem_of_cons in Hin as [<- | Hin].
    + apply rename_steps_absent; [|exact Hrest].
      apply rename_step_removes. simpl in He. congruence.
    + now apply IH.
Qed.

End Renaming.

(** X11.  After the renaming loop of [load_batch] no column is called
    [timestamp] (nor by any other alternate name), so the branch that
    derives [processing_date] from a [timestamp] column is never taken; a
    batch that brings a [timestamp] column gets it renamed to
    [detection_timestamp], and it is from there that the date is taken. *)
Theorem alternate_names_are_gone (df : Pandas.DataFrame) :
  let renamed := fold_left HiveLoader.rename_step HiveLoader.rename_map df in
  Forall (fun entry => Pandas.has_column entry.1 renamed = false) HiveLoader.rename_map
  /\ Pandas.has_column "timestamp" renamed = false
  /\ (Pandas.has_column "timestamp" df = true ->
      Pandas.has_column "detection_timestamp" renamed = true)
  /\ (forall ext now,
        HiveLoader.add_processing_date ext now renamed
        = if Pandas.has_column "detection_timestamp" renamed then
            match Pandas.getitem "detection_timestamp" renamed with
            | [data] =>
                match to_datetime_day ext data with
                | Some days => Ok (Pandas.setitem "processing_date" days renamed)
                | None => Raised (ValueError "to_datetime")
                end
            | _ => Raised (ValueError "to assemble mappings requires at least that [year, month, day] be specified")
            end
          else Ok (Pandas.setitem_scalar "processing_date"
                     (Pandas.VStr (strftime_day ext now)) renamed)).
Proof.
  intros renamed.
  assert (Hgone : Forall (fun entry => Pandas.has_column entry.1 renamed = false)
                    HiveLoader.rename_map).
  { subst renamed. apply Forall_forall. intros [old new] Hin.
    apply bool_decide_eq_false. apply (rename_steps_gone old new); [exact Hin|].
    unfold HiveLoader.rename_map in Hin |- *.
    repeat (apply elem_of_cons in Hin as [[= -> ->] | Hin];
            [repeat constructor; discriminate|]).
    now apply elem_of_nil in Hin. }
  assert (Hts : Pandas.has_column "timestamp" renamed = false).
  { now apply Forall_cons in Hgone as [H _]. }
  split; [exact Hgone|]. split; [exact Hts|]. split.
  - intros Hin. subst renamed. unfold HiveLoader.rename_map.
    match goal with
    | |- context [fold_left ?f (?x :: ?l) ?a] =>
        change (fold_left f (x :: l) a) with (fold_left f l (f a x))
    end.
    apply bool_decide_eq_true.
    apply rename_steps_present; [|repeat constructor; discriminate].
    apply rename_step_moves. unfold Pandas.has_column in Hin.
    now apply bool_decide_eq_true in Hin.
  - intros ext now. unfold HiveLoader.add_processing_date. now rewrite Hts.
Qed.

(** X12.  The column list [load_batch] forces on every batch is the column
    list of the table [create_detections_table] creates, name by name and in
    the same order (the bulk load is positional); it has 37 distinct names
    and starts with [detection_id]; every renaming goes from a name outside
    the schema to a name of the schema. *)
Theorem expected_columns_match_table :
  map fst HiveSchema.detections_columns = HiveLoader.expected_columns
  /\ NoDup HiveLoader.expected_columns
  /\ length HiveLoader.expected_columns = 37%nat
  /\ hd "" HiveLoader.expected_columns = "detection_id"
  /\ Forall (fun entry => entry.2 ∈ HiveLoader.expected_columns
                          /\ entry.1 ∉ HiveLoader.expected_columns)
       HiveLoader.rename_map.
Proof.
  split; [reflexivity|]. split; [apply expected_columns_NoDup|].
  split; [reflexivity|]. split; [reflexivity|].
  apply (bool_decide_unpack _). vm_compute. exact I.
Qed.

(** ** The extractor *)

Section Scan.
Import DataExtractor.

Lemma categorize_fold (files : list StagedFile) (acc : Categorized) :
  fold_left categorize files acc
  = mkCategorized
      (video acc ++ filter is_video files)
      (image acc ++ filter (fun f => ~ is_video f /\ is_image f) files)
      (unknown acc ++ filter (fun f => ~ is_video f /\ ~ is_image f) files).
Proof.
  revert acc. induction files as [|f files IH]; intros acc.
  - simpl. rewrite !app_nil_r. now destruct acc.
  - simpl fold_left. rewrite IH. unfold categorize. rewrite !filter_cons.
    unfold is_video, is_image.
    destruct (startswith "video_" (name f)) eqn:Hv;
      [|destruct (startswith "image_" (name f)) eqn:Hi]; simpl;
      repeat match goal with
             | |- context [decide ?P] => destruct (decide P)
             end;
      try tauto; try discriminate; try (exfalso; intuition congruence);
      now rewrite <- ?app_assoc.
Qed.

End Scan.

Section ScanFacts.
Import DataExtractor.

Lemma video_is_not_image (f : StagedFile) : is_video f -> ~ is_image f.
Proof.
  unfold is_video, is_image, startswith. intros Hv Hi.
  apply String.prefix_correct in Hv, Hi.
  change (String.length "video_") with 6%nat in Hv.
  change (String.length "image_") with 6%nat in Hi.
  rewrite Hv in Hi. discriminate Hi.
Qed.

End ScanFacts.

(** X13.  [scan_staging_files] sorts the CSV files of the staging directory
    by name prefix: [video] holds the files starting with [video_], [image]
    those starting with [image_], [unknown] the other CSV files, each list in
    directory order; no file is in two lists, a file that does not end in
    [.csv] is in none, and every CSV file is in one. *)
Theorem scan_staging_files_sorts_by_prefix (staging : list DataExtractor.StagedFile) :
  let c := DataExtractor.scan_staging_files staging in
  DataExtractor.video c = filter is_video (filter is_csv staging)
  /\ DataExtractor.image c = filter is_image (filter is_csv staging)
  /\ DataExtractor.unknown c
     = filter (fun f => ~ is_video f /\ ~ is_image f) (filter is_csv staging)
  /\ (forall f, f ∈ DataExtractor.video c -> f ∉ DataExtractor.image c)
  /\ (forall f, f ∈ DataExtractor.unknown c ->
        (f ∉ DataExtractor.video c) /\ (f ∉ DataExtractor.image c))
  /\ (forall f, f ∈ DataExtractor.video c ++ DataExtractor.image c
                   ++ DataExtractor.unknown c
                <-> f ∈ staging /\ is_csv f).
Proof.
  intros c.
  assert (Hv : DataExtractor.video c = filter is_video (filter is_csv staging)).
  { subst c. unfold DataExtractor.scan_staging_files.
    fold is_csv. now rewrite categorize_fold. }
  assert (Hi : DataExtractor.image c = filter is_image (filter is_csv staging)).
  { subst c. unfold DataExtractor.scan_staging_files.
    fold is_csv. rewrite categorize_fold. simpl.
    apply list_filter_iff. intros f. split; [tauto|].
    intros H. split; [|exact H]. intros Hvid. now apply (video_is_not_image f). }
  assert (Hu : DataExtractor.unknown c
               = filter (fun f => ~ is_video f /\ ~ is_image f) (filter is_csv staging)).
  { subst c. unfold DataExtractor.scan_staging_files.
    fold is_csv. now rewrite categorize_fold. }
  split; [exact Hv|]. split; [exact Hi|]. split; [exact Hu|].
  rewrite Hv, Hi, Hu. split; [|split].
  - intros f H1 H2. apply list_elem_of_filter in H1 as [H1 _].
    apply list_elem_of_filter in H2 as [H2 _]. now apply (video_is_not_image f).
  - intros f H. apply list_elem_of_filter in H as [[H1 H2] _].
    split; intros H'; apply list_elem_of_filter in H' as [H' _]; contradiction.
  - intros f. rewrite !elem_of_app, !list_elem_of_filter.
    destruct (decide (is_video f)), (decide (is_image f)); tauto.
Qed.

Example scan_mixed_staging :
  DataExtractor.scan_staging_files Scenario2.mixed_staging
  = DataExtractor.mkCategorized
      [Scenario.video_a; Scenario2.broken_file] [Scenario.image_b] [Scenario2.other_csv].
Proof. vm_compute. reflexivity. Qed.

Section Extraction.
Import Pandas DataExtractor.
Variable ext : External.

(** The frames [extract_multiple] collects: one per readable file. *)
Lemma extract_steps (now : Time) (files : list StagedFile) (acc : list DataFrame) :
  fold_left (extract_step ext now) files acc
  = acc ++ flat_map (fun f => match extract_csv ext now f with
                              | Ok df => [df]
                              | Raised _ => []
                              end) files.
Proof.
  revert acc. induction files as [|f files IH]; intros acc; simpl.
  - now rewrite app_nil_r.
  - rewrite IH. unfold extract_step.
    destruct (extract_csv ext now f); simpl; [now rewrite <- app_assoc | reflexivity].
Qed.

Lemma extract_csv_unreadable (now : Time) (f : StagedFile) :
  content f = None -> extract_csv ext now f = Raised (OtherError "read_csv").
Proof. intros H. unfold extract_csv. now rewrite H. Qed.

Lemma extract_csv_rows (now : Time) (f : StagedFile) (df : DataFrame) :
  extract_csv ext now f = Ok df ->
  exists raw, content f = Some raw /\ nrows df = nrows raw.
Proof.
  unfold extract_csv. destruct (content f) as [raw|]; [|discriminate].
  intros [= <-]. exists raw. split; [reflexivity|].
  unfold setitem_scalar. now rewrite !nrows_setitem.
Qed.

Lemma collected_skip_unreadable (now : Time) (files : list StagedFile) :
  flat_map (fun f => match extract_csv ext now f with
                     | Ok df => [df]
                     | Raised _ => []
                     end) files
  = flat_map (fun f => match extract_csv ext now f with
                       | Ok df => [df]
                       | Raised _ => []
                       end) (filter (fun f => is_Some (content f)) files).
Proof.
  induction files as [|f files IH]; [reflexivity|].
  rewrite filter_cons. destruct (decide (is_Some (content f))) as [Hs | Hn]; simpl.
  - now rewrite IH.
  - rewrite IH. rewrite extract_csv_unreadable; [reflexivity|].
    destruct (content f); [exfalso; apply Hn; eauto | reflexivity].
Qed.

Lemma collected_rows (now : Time) (files : list StagedFile) :
  foldr (fun d n => (nrows d + n)%nat) 0%nat
    (flat_map (fun f => match extract_csv ext now f with
                        | Ok df => [df]
                        | Raised _ => []
                        end) files)
  = sum_list (map (fun f => match content f with
                            | Some raw => nrows raw
                            | None => 0%nat
                            end) files).
Proof.
  induction files as [|f files IH]; [reflexivity|].
  simpl flat_map. simpl map. simpl sum_list. rewrite <- IH.
  destruct (extract_csv ext now f) as [df | e] eqn:Hf.
  - apply extract_csv_rows in Hf as (raw & Hraw & Hn).
    simpl. now rewrite Hraw, Hn.
  - unfold extract_csv in Hf. destruct (content f); [discriminate | reflexivity].
Qed.

Lemma concat_frames_rows (dfs : list DataFrame) (df : DataFrame) :
  concat_frames dfs = Ok df ->
  nrows df = foldr (fun d n => (nrows d + n)%nat) 0%nat dfs.
Proof.
  unfold concat_frames. destruct dfs as [|df0 rest]; [discriminate|].
  repeat case_bool_decide; intros [= <-]; reflexivity.
Qed.

End Extraction.

(** X14.  [extract_multiple] skips the files that cannot be read: its
    result is the one for the readable files alone, when no file is
    readable it returns the empty frame instead of raising, and a frame it
    returns has as many rows as the readable files have together. *)
Theorem extract_multiple_skips_unreadable (ext : External) (now : Time)
    (files : list DataExtractor.StagedFile) :
  DataExtractor.extract_multiple ext now files
  = DataExtractor.extract_multiple ext now
      (filter (fun f => is_Some (DataExtractor.content f)) files)
  /\ (Forall (fun f => DataExtractor.content f = None) files ->
      DataExtractor.extract_multiple ext now files = Ok Pandas.empty_frame)
  /\ (forall df,
        DataExtractor.extract_multiple ext now files = Ok df ->
        Pandas.nrows df
        = sum_list (map (fun f => match DataExtractor.content f with
                                  | Some raw => Pandas.nrows raw
                                  | None => 0%nat
                                  end) files)).
Proof.
  unfold DataExtractor.extract_multiple. rewrite !extract_steps.
  cbn [app].
  split; [now rewrite <- (collected_skip_unreadable ext now)|]. split.
  - intros Hall.
    replace (flat_map _ files) with (@nil Pandas.DataFrame); [reflexivity|].
    symmetry. induction Hall as [|f files Hf _ IH]; [reflexivity|].
    simpl. now rewrite (extract_csv_unreadable ext now f Hf), IH.
  - intros df. rewrite <- (collected_rows ext now).
    destruct (flat_map _ files) as [|d ds] eqn:Hc.
    + now intros [= <-].
    + intros H. now apply concat_frames_rows in H.
Qed.

Example extract_skips_broken_file :
  DataExtractor.extract_multiple Scenario.ext 0 [Scenario2.broken_file; Scenario.video_a]
  = DataExtractor.extract_multiple Scenario.ext 0 [Scenario.video_a].
Proof. vm_compute. reflexivity. Qed.

(** ** The loader and the pipeline: rows appended and rows counted *)

Section AppendOnly.
Import Pandas HiveLoader.
Variable ext : External.

Lemma load_batch_appends (io : HiveIO) (now : Time) (df : DataFrame)
    (table table' : Table) (n : nat) :
  load_batch ext io now df table = Ok (n, table') ->
  exists written, table' = table ++ written /\ n = length written.
Proof.
  unfold load_batch. destruct (empty df).
  - intros [= <- <-]. exists []. now rewrite app_nil_r.
  - destruct (prepare ext now df) as [p | e]; simpl; [|discriminate].
    intros H. apply write_rows_ok in H as (written & -> & -> & _). eauto.
Qed.

Lemma load_with_deduplication_appends (io : HiveIO) (now : Time) (df : DataFrame)
    (table table' : Table) (n : nat) :
  load_with_deduplication ext io now df table = Ok (n, table') ->
  exists written, table' = table ++ written /\ n = length written.
Proof.
  unfold load_with_deduplication. destruct (empty df).
  - intros [= <- <-]. exists []. now rewrite app_nil_r.
  - destruct (getitem "detection_id" df) as [|ids [|ids' more]]; try discriminate.
    destruct (empty (filter_rows _ df)).
    + intros [= <- <-]. exists []. now rewrite app_nil_r.
    + apply load_batch_appends.
Qed.

End AppendOnly.

(** X15.  The loader only ever appends: whatever the batch and whatever the
    warehouse does, when [load_with_deduplication] returns [n] the table
    afterwards is the table before followed by exactly [n] new rows. *)
Theorem load_appends_what_it_counts (ext : External) (io : HiveLoader.HiveIO)
    (now : Time) (df : Pandas.DataFrame) (table table' : HiveLoader.Table) (n : nat) :
  HiveLoader.load_with_deduplication ext io now df table = Ok (n, table') ->
  table `prefix_of` table'
  /\ length table' = (length table + n)%nat
  /\ exists written, table' = table ++ written /\ n = length written.
Proof.
  intros H. apply load_with_deduplication_appends in H as (written & -> & ->).
  split; [now apply prefix_app_r|]. split; [apply length_app | eauto].
Qed.

Lemma load_appends_what_it_counts_witness :
  length (Scenario.table_with "d1" ++ Pandas.rows
            (Pandas.mkDataFrame 2
               (map (fun l =>
                       (l, if bool_decide (l = "detection_id")
                           then [Pandas.VStr "d0"; Pandas.VStr "d2"]
                           else if bool_decide (l = "class_name")
                           then replicate 2 (Pandas.VStr "person")
                           else if bool_decide (l = "loaded_at")
                           then replicate 2 (Pandas.VStr "T0")
                           else if bool_decide (l = "processing_date")
                           then replicate 2 (Pandas.VStr "2024-01-01")
                           else replicate 2 Pandas.VNone))
                    HiveLoader.expected_columns)))
  = (length (Scenario.table_with "d1") + 2)%nat.
Proof.
  exact (proj1 (proj2 (load_appends_what_it_counts Scenario.ext Scenario.hive_up 0
                         (Scenario.detections "d" 3) (Scenario.table_with "d1") _ 2
                         dedup_writes_only_novel_rows))).
Defined.

Section Counted.
Import RunEtl.
Variable ext : External.

Lemma run_etl_pipeline_counts (ty : SourceType) (inv : Invocation)
    (bm : BatchManager.t) (table : HiveLoader.Table) :
  uncounted (manager_after (run_etl_pipeline ext ty inv bm table))
            (table_after (run_etl_pipeline ext ty inv bm table))
  = uncounted bm table.
Proof.
  destruct (run_etl_pipeline_cases ext ty inv bm table)
    as [[_ ->] | [[_ [r ->]] | [[_ [e' ->]] | [[_ (e' & df & _ & ->)]
       | [_ (df & n & table' & Hload & ->)]]]]]; try reflexivity.
  apply load_with_deduplication_appends in Hload as (written & -> & ->).
  unfold uncounted. cbn [manager_after table_after BatchManager.state
                         BatchManager.with_state].
  rewrite length_app. destruct ty; simpl; lia.
Qed.

Lemma scheduler_turn_counts (st : SchedulerState) (tick : Tick) :
  uncounted (manager (scheduler_turn ext st tick)) (table (scheduler_turn ext st tick))
  = uncounted (manager st) (table st).
Proof.
  unfold scheduler_turn.
  destruct (BatchManager.should_process_video_batch (manager st) (video_check_at tick));
    cbn [fst snd].
  - destruct (result (run_etl_pipeline ext Video (video_invocation tick)
                        (manager st) (table st)));
      cbn [manager table].
    + destruct (BatchManager.should_process_image_batch _ _); cbn [manager table];
        now rewrite ?run_etl_pipeline_counts.
    + apply run_etl_pipeline_counts.
  - destruct (BatchManager.should_process_image_batch _ _); cbn [manager table];
      now rewrite ?run_etl_pipeline_counts.
Qed.

Lemma run_etl_pipeline_extends (ty : SourceType) (inv : Invocation)
    (bm : BatchManager.t) (table0 : HiveLoader.Table) :
  table0 `prefix_of` table_after (run_etl_pipeline ext ty inv bm table0).
Proof.
  destruct (run_etl_pipeline_cases ext ty inv bm table0)
    as [[_ ->] | [[_ [r ->]] | [[_ [e' ->]] | [[_ (e' & df & _ & ->)]
       | [_ (df & n & table' & Hload & ->)]]]]]; try reflexivity.
  apply load_with_deduplication_appends in Hload as (written & -> & _).
  now apply prefix_app_r.
Qed.

Lemma scheduler_turn_extends (st : SchedulerState) (tick : Tick) :
  table st `prefix_of` table (scheduler_turn ext st tick).
Proof.
  unfold scheduler_turn.
  destruct (BatchManager.should_process_video_batch (manager st) (video_check_at tick));
    cbn [fst snd].
  - destruct (result (run_etl_pipeline ext Video (video_invocation tick)
                        (manager st) (table st)));
      cbn [manager table].
    + destruct (BatchManager.should_process_image_batch _ _); cbn [manager table].
      * etransitivity; [|apply run_etl_pipeline_extends].
        apply run_etl_pipeline_extends.
      * apply run_etl_pipeline_extends.
    + apply run_etl_pipeline_extends.
  - destruct (BatchManager.should_process_image_batch _ _); cbn [manager table].
    + apply run_etl_pipeline_extends.
    + reflexivity.
Qed.

Lemma scheduler_turns_count (ticks : list Tick) (st : SchedulerState) :
  let st' := fold_left (scheduler_turn ext) ticks st in
  uncounted (manager st') (table st') = uncounted (manager st) (table st)
  /\ table st `prefix_of` table st'.
Proof.
  revert st. induction ticks as [|tick ticks IH]; intros st; cbn [fold_left].
  - split; reflexivity.
  - destruct (IH (scheduler_turn ext st tick)) as [Hc Hp]. split.
    + rewrite Hc. apply scheduler_turn_counts.
    + etransitivity; [apply scheduler_turn_extends|exact Hp].
Qed.

End Counted.

(** X16.  [total_records] counts what the scheduler's pipeline runs append:
    whatever the ticks, the files and the warehouse do, after any number of
    scheduler turns the table still starts with the rows it had, and the
    counter has grown by exactly the number of rows added to it. *)
Theorem total_records_counts_appended_rows (ext : External)
    (ticks : list RunEtl.Tick) (bm : BatchManager.t) (table : HiveLoader.Table) :
  let st := RunEtl.scheduler_run ext ticks bm table in
  let records m :=
    BatchManager.total_records (BatchManager.statistics (BatchManager.state m)) in
  table `prefix_of` RunEtl.table st
  /\ records (RunEtl.manager st) - records bm
     = Z.of_nat (length (RunEtl.table st)) - Z.of_nat (length table).
Proof.
  intros st records.
  destruct (scheduler_turns_count ext ticks (RunEtl.mkSchedulerState [] bm table))
    as [Hc Hp].
  fold (RunEtl.scheduler_run ext ticks bm table) in Hc, Hp. fold st in Hc, Hp.
  cbn [RunEtl.manager RunEtl.table] in Hc, Hp. split; [exact Hp|].
  unfold uncounted in Hc. subst records. cbn beta. lia.
Qed.

(** ** The pipeline's extraction and [extract_pending_files] *)

Section PendingExtraction.
Import DataExtractor RunEtl.

Lemma filter_ext_elem {A} (P Q : A -> Prop) `{!forall x, Decision (P x)}
    `{!forall x, Decision (Q x)} (l : list A) :
  (forall x, x ∈ l -> (P x <-> Q x)) -> filter P l = filter Q l.
Proof.
  induction l as [|x l IH]; intros Hl; [reflexivity|].
  rewrite !filter_cons.
  rewrite IH by (intros y Hy; apply Hl, elem_of_cons; now right).
  assert (Hx : P x <-> Q x) by (apply Hl, elem_of_cons; now left).
  destruct (decide (P x)), (decide (Q x)); tauto || reflexivity.
Qed.

Lemma filter_fmap_name (P : string -> Prop) `{!forall x, Decision (P x)}
    (l : list StagedFile) :
  filter P (map name l) = map name (filter (fun f => P (name f)) l).
Proof.
  induction l as [|f l IH]; [reflexivity|].
  change (map name (f :: l)) with (name f :: map name l).
  rewrite !filter_cons, IH. now destruct (decide (P (name f))).
Qed.

(** The files [scan_staging_files] lists under a type carry its prefix. *)
Lemma files_of_prefix (ty : SourceType) (staging : list StagedFile) (f : StagedFile) :
  f ∈ files_of ty (scan_staging_files staging) ->
  BatchManager.startswith (source_type_name ty +:+ "_") (name f) = true.
Proof.
  unfold scan_staging_files. rewrite categorize_fold.
  destruct ty; cbn [files_of video image app]; intros Hf;
    apply list_elem_of_filter in Hf as [Hf _].
  - exact Hf.
  - exact (proj2 Hf).
Qed.

Lemma files_to_process_pending (ty : SourceType) (staging : list StagedFile)
    (s : BatchManager.State) :
  let all_files := files_of ty (scan_staging_files staging) in
  let pending :=
    BatchManager.get_pending_files s (map name all_files) (Some (source_type_name ty)) in
  filter (fun f => name f ∈ pending) all_files
  = filter (fun f => name f ∉ BatchManager.processed_files s) all_files
  /\ pending
     = map name (filter (fun f => name f ∉ BatchManager.processed_files s) all_files).
Proof.
  intros all_files pending.
  assert (Hty : source_type_name ty <> "") by (destruct ty; discriminate).
  assert (Hpending : pending
            = map name (filter (fun f => name f ∉ BatchManager.processed_files s)
                               all_files)).
  { subst pending. unfold BatchManager.get_pending_files.
    rewrite bool_decide_eq_false_2 by exact Hty.
    rewrite filter_fmap_name, filter_fmap_name. f_equal.
    rewrite list_filter_filter. apply filter_ext_elem. intros f Hf.
    pose proof (files_of_prefix ty staging f Hf). tauto. }
  split; [|exact Hpending].
  apply filter_ext_elem. intros f Hf. rewrite Hpending. split.
  - intros Hin. apply list_elem_of_fmap in Hin as (g & Hname & Hg).
    apply list_elem_of_filter in Hg as [Hg _]. now rewrite Hname.
  - intros Hn. apply list_elem_of_fmap. exists f. split; [reflexivity|].
    now apply list_elem_of_filter.
Qed.

End PendingExtraction.

(** X17.  The extraction step of the pipeline is [extract_pending_files]
    for the manager's processed files and the run's type: the files it
    passes to [extract_multiple] are the staged files of the type whose
    name is not yet processed, so both give the same result; and the names
    [get_pending_files] returns, which a completed run marks, are the names
    of exactly those files, in the same order. *)
Theorem pipeline_extracts_pending_files (ext : External) (now : Time)
    (ty : RunEtl.SourceType) (staging : list DataExtractor.StagedFile)
    (s : BatchManager.State) :
  let all_files := RunEtl.files_of ty (DataExtractor.scan_staging_files staging) in
  let pending_files :=
    BatchManager.get_pending_files s (map DataExtractor.name all_files)
      (Some (RunEtl.source_type_name ty)) in
  let files_to_process :=
    filter (fun f => DataExtractor.name f ∈ pending_files) all_files in
  DataExtractor.extract_multiple ext now files_to_process
  = ExtractPending.extract_pending_files ext now staging
      (BatchManager.processed_files s) (Some (RunEtl.source_type_name ty))
  /\ pending_files = map DataExtractor.name files_to_process
  /\ (forall f, f ∈ files_to_process
        <-> f ∈ all_files /\ DataExtractor.name f ∉ BatchManager.processed_files s).
Proof.
  intros all_files pending_files files_to_process.
  destruct (files_to_process_pending ty staging s) as [Hfiles Hpending].
  fold all_files in Hfiles, Hpending. fold pending_files in Hfiles, Hpending.
  fold files_to_process in Hfiles.
  split; [|split].
  - rewrite Hfiles. unfold ExtractPending.extract_pending_files.
    destruct ty; reflexivity.
  - now rewrite Hfiles.
  - intros f. rewrite Hfiles, list_elem_of_filter. tauto.
Qed.

Section MarkedFiles.
Import DataExtractor RunEtl.
Variable ext : External.

Lemma completed_run_marks (ty : SourceType) (inv : Invocation) (bm : BatchManager.t)
    (table : HiveLoader.Table) (f : StagedFile) :
  UpdateState ∈ phases (run_etl_pipeline ext ty inv bm table) ->
  f ∈ files_of ty (scan_staging_files (staging inv)) ->
  name f ∈ BatchManager.processed_files
             (BatchManager.state (manager_after (run_etl_pipeline ext ty inv bm table))).
Proof.
  intros Hdone Hf.
  destruct (completed_run ext ty inv bm table Hdone) as (df & n & table' & _ & ->).
  cbn [manager_after BatchManager.state BatchManager.with_state].
  rewrite update_state_processed_files. cbn [BatchManager.processed_files
    BatchManager.mark_files_processed].
  apply mark_files_elem.
  destruct (decide (name f ∈ BatchManager.processed_files (BatchManager.state bm)))
    as [Hin | Hn]; [now left | right].
  destruct (files_to_process_pending ty (staging inv) (BatchManager.state bm))
    as [_ ->].
  apply list_elem_of_fmap. exists f. split; [reflexivity|].
  now apply list_elem_of_filter.
Qed.

End MarkedFiles.

(** X18.  A run that reaches the state update marks every staged file of
    its type as processed, whether or not the file could be read: a file on
    which [extract_csv] raised was skipped by [extract_multiple], contributed
    no row, and is marked all the same, so no later run on this state picks
    it up. *)
Theorem unreadable_file_is_marked_processed (ext : External) (ty : RunEtl.SourceType)
    (inv : RunEtl.Invocation) (bm : BatchManager.t) (table : HiveLoader.Table)
    (f : DataExtractor.StagedFile) :
  RunEtl.UpdateState ∈ RunEtl.phases (RunEtl.run_etl_pipeline ext ty inv bm table) ->
  f ∈ RunEtl.files_of ty (DataExtractor.scan_staging_files (RunEtl.staging inv)) ->
  let o := RunEtl.run_etl_pipeline ext ty inv bm table in
  let s' := BatchManager.state (RunEtl.manager_after o) in
  DataExtractor.name f ∈ BatchManager.processed_files s'
  /\ (forall all_files source_type,
        DataExtractor.name f ∉ BatchManager.get_pending_files s' all_files source_type)
  /\ (DataExtractor.content f = None ->
      DataExtractor.extract_csv ext (RunEtl.at_extract (RunEtl.clock inv)) f
      = Raised (OtherError "read_csv")).
Proof.
  intros Hdone Hf o s'.
  assert (Hin : DataExtractor.name f ∈ BatchManager.processed_files s')
    by now apply completed_run_marks.
  split; [exact Hin|]. split.
  - intros all_files source_type Hp.
    apply get_pending_files_elem in Hp as [_ Hp]. contradiction.
  - apply extract_csv_unreadable.
Qed.

Lemma unreadable_file_is_marked_processed_witness :
  let o := RunEtl.run_etl_pipeline Scenario.ext RunEtl.Video (Scenario2.invocation_mixed 0)
             (BatchManager.init 300 100) [] in
  DataExtractor.content Scenario2.broken_file = None
  /\ length (RunEtl.table_after o) = 50%nat
  /\ DataExtractor.name Scenario2.broken_file
       ∈ BatchManager.processed_files (BatchManager.state (RunEtl.manager_after o)).
Proof.
  assert (Hdone : RunEtl.UpdateState
                    ∈ RunEtl.phases
                        (RunEtl.run_etl_pipeline Scenario.ext RunEtl.Video
                           (Scenario2.invocation_mixed 0) (BatchManager.init 300 100) [])).
  { apply (bool_decide_unpack _). vm_compute. exact I. }
  assert (Hf : Scenario2.broken_file
                 ∈ RunEtl.files_of RunEtl.Video
                     (DataExtractor.scan_staging_files
                        (RunEtl.staging (Scenario2.invocation_mixed 0)))).
  { change (RunEtl.staging (Scenario2.invocation_mixed 0)) with Scenario2.mixed_staging.
    rewrite scan_mixed_staging. cbn [RunEtl.files_of DataExtractor.video].
    apply elem_of_cons. right. apply elem_of_cons. now left. }
  split; [reflexivity|]. split; [vm_compute; reflexivity|].
  exact (proj1 (unreadable_file_is_marked_processed Scenario.ext RunEtl.Video
                  (Scenario2.invocation_mixed 0)
                  (BatchManager.init 300 100) [] Scenario2.broken_file Hdone Hf)).
Defined.

(** ** What the scheduler keeps of the manager *)

Section Advances.
Import RunEtl.
Variable ext : External.

Lemma advances_refl (bm : BatchManager.t) : advances bm bm.
Proof. unfold advances. cbn zeta. repeat split; try reflexivity; lia. Qed.

Lemma advances_trans (bm1 bm2 bm3 : BatchManager.t) :
  advances bm1 bm2 -> advances bm2 bm3 -> advances bm1 bm3.
Proof.
  unfold advances. cbn zeta.
  intros (Hw & Hb & Hp & Hr & Hv & Hi & Ht) (Hw' & Hb' & Hp' & Hr' & Hv' & Hi' & Ht').
  split; [congruence|]. split; [congruence|].
  split; [etransitivity; eassumption|].
  repeat split; lia.
Qed.

Lemma run_etl_pipeline_advances (ty : SourceType) (inv : Invocation)
    (bm : BatchManager.t) (table : HiveLoader.Table) :
  advances bm (manager_after (run_etl_pipeline ext ty inv bm table)).
Proof.
  destruct (run_etl_pipeline_cases ext ty inv bm table)
    as [[_ ->] | [[_ [r ->]] | [[_ [e' ->]] | [[_ (e' & df & _ & ->)]
       | [_ (df & n & table' & _ & ->)]]]]]; cbn [manager_after];
    try apply advances_refl.
  unfold advances. cbn zeta.
  cbn [BatchManager.with_state BatchManager.state BatchManager.video_time_window
       BatchManager.image_batch_size].
  split; [reflexivity|]. split; [reflexivity|]. split.
  - rewrite update_state_processed_files. apply mark_files_prefix.
  - destruct ty; simpl; repeat split; lia.
Qed.

Lemma scheduler_turn_advances (st : SchedulerState) (tick : Tick) :
  advances (manager st) (manager (scheduler_turn ext st tick)).
Proof.
  unfold scheduler_turn.
  destruct (BatchManager.should_process_video_batch (manager st) (video_check_at tick));
    cbn [fst snd].
  - destruct (result (run_etl_pipeline ext Video (video_invocation tick)
                        (manager st) (table st)));
      cbn [manager table].
    + destruct (BatchManager.should_process_image_batch _ _); cbn [manager table].
      * eapply advances_trans; apply run_etl_pipeline_advances.
      * apply run_etl_pipeline_advances.
    + apply run_etl_pipeline_advances.
  - destruct (BatchManager.should_process_image_batch _ _); cbn [manager table].
    + apply run_etl_pipeline_advances.
    + apply advances_refl.
Qed.

Lemma scheduler_turns_advance (ticks : list Tick) (st : SchedulerState) :
  advances (manager st) (manager (fold_left (scheduler_turn ext) ticks st)).
Proof.
  revert st. induction ticks as [|tick ticks IH]; intros st; cbn [fold_left].
  - apply advances_refl.
  - eapply advances_trans; [apply scheduler_turn_advances | apply IH].
Qed.

End Advances.

(** X19.  Whatever happens in the pipeline runs it starts, the scheduler
    only moves the manager forward: the thresholds stay as configured, the
    list of processed files is only extended at its end (no name is ever
    dropped or reordered), no counter goes down, and [total_batches] grows
    by as much as [video_batches] and [image_batches] together. *)
Theorem scheduler_only_advances_manager (ext : External) (ticks : list RunEtl.Tick)
    (bm : BatchManager.t) (table : HiveLoader.Table) :
  let bm' := RunEtl.manager (RunEtl.scheduler_run ext ticks bm table) in
  let st := BatchManager.statistics (BatchManager.state bm) in
  let st' := BatchManager.statistics (BatchManager.state bm') in
  BatchManager.video_time_window bm' = BatchManager.video_time_window bm
  /\ BatchManager.image_batch_size bm' = BatchManager.image_batch_size bm
  /\ BatchManager.processed_files (BatchManager.state bm)
       `prefix_of` BatchManager.processed_files (BatchManager.state bm')
  /\ BatchManager.total_records st <= BatchManager.total_records st'
  /\ BatchManager.video_batches st <= BatchManager.video_batches st'
  /\ BatchManager.image_batches st <= BatchManager.image_batches st'
  /\ BatchManager.total_batches st' - BatchManager.total_batches st
     = (BatchManager.video_batches st' - BatchManager.video_batches st)
       + (BatchManager.image_batches st' - BatchManager.image_batches st).
Proof.
  exact (scheduler_turns_advance ext ticks (RunEtl.mkSchedulerState [] bm table)).
Qed.

(** ** BatchManager: trimming the list of processed files *)

(** X20.  [cleanup_old_state] keeps the newest 10000 names: the list after
    it is the end of the list before, of length [min (length before) 10000];
    a list within the limit is left alone; nothing else in the state
    changes; [days_to_keep] has no effect on the result; and cleaning a
    cleaned state changes nothing. *)
Theorem cleanup_old_state_keeps_latest (days_to_keep days_to_keep' : Z)
    (s : BatchManager.State) :
  let s' := BatchManager.cleanup_old_state days_to_keep s in
  BatchManager.processed_files s' `suffix_of` BatchManager.processed_files s
  /\ length (BatchManager.processed_files s')
     = Nat.min (length (BatchManager.processed_files s)) BatchManager.max_files
  /\ ((length (BatchManager.processed_files s) <= BatchManager.max_files)%nat -> s' = s)
  /\ BatchManager.last_video_batch s' = BatchManager.last_video_batch s
  /\ BatchManager.pending_images s' = BatchManager.pending_images s
  /\ BatchManager.last_run s' = BatchManager.last_run s
  /\ BatchManager.statistics s' = BatchManager.statistics s
  /\ BatchManager.cleanup_old_state days_to_keep' s = s'
  /\ BatchManager.cleanup_old_state days_to_keep' s' = s'.
Proof.
  intros s'.
  destruct (Nat.ltb_spec BatchManager.max_files (length (BatchManager.processed_files s)))
    as [Hlarge | Hsmall].
  - assert (Hfiles : BatchManager.processed_files s'
                     = drop (length (BatchManager.processed_files s) - BatchManager.max_files)
                            (BatchManager.processed_files s))
      by (now apply cleanup_large).
    assert (Hlen : length (BatchManager.processed_files s') = BatchManager.max_files)
      by (rewrite Hfiles, length_drop; lia).
    split; [rewrite Hfiles; apply suffix_drop|].
    split; [lia|]. split; [lia|].
    subst s'. unfold BatchManager.cleanup_old_state in *.
    destruct (Nat.ltb_spec BatchManager.max_files (length (BatchManager.processed_files s)));
      [|lia].
    cbn [BatchManager.last_video_batch BatchManager.pending_images BatchManager.last_run
         BatchManager.statistics BatchManager.processed_files] in *.
    repeat (split; [reflexivity|]).
    rewrite Hlen. now rewrite Nat.ltb_irrefl.
  - assert (Hs : s' = s) by (now apply cleanup_small).
    rewrite Hs. split; [reflexivity|]. split; [lia|].
    repeat (split; [reflexivity|]).
    split; now apply cleanup_small.
Qed.

(** ** The detector: what the id does not tell apart *)

Section Boundaries.
Import ObjectDetector.

Lemma string_app_assoc (s1 s2 s3 : string) :
  (s1 +:+ s2) +:+ s3 = s1 +:+ (s2 +:+ s3).
Proof.
  induction s1 as [|c s1 IH]; [reflexivity|].
  change (String c ((s1 +:+ s2) +:+ s3) = String c (s1 +:+ (s2 +:+ s3))).
  f_equal. exact IH.
Qed.

Lemma unique_string_shifted (a c : string) (F G idx : Z) :
  unique_string (mkSourceInfo (Some (a +:+ ":" +:+ pretty F)) (Some G) (Some c)) idx
  = unique_string (mkSourceInfo (Some a) (Some F) (Some (pretty G +:+ ":" +:+ c))) idx.
Proof.
  unfold unique_string.
  cbn [source frame_number timestamp default from_option id].
  now rewrite !string_app_assoc.
Qed.

Lemma longer_string_differs (a b : string) : b <> "" -> a +:+ b <> a.
Proof.
  intros Hb Heq. apply (f_equal String.length) in Heq.
  rewrite string_length_app in Heq.
  destruct b as [|ch b]; [congruence|]. simpl in Heq. lia.
Qed.

End Boundaries.

(** X21.  The id depends on the text [source:frame_number:timestamp:index]
    only, so it tells apart neither an absent key from its default (no
    [source] or [timestamp] from the empty string, no [frame_number] from
    frame 0) nor where one field ends and the next begins: two different
    [source_info] whose fields spell the same text around the colons get
    the same id for every index, without any MD5 collision. *)
Theorem detection_id_ignores_field_boundaries (a c : string) (F G idx : Z)
    (source_info : ObjectDetector.SourceInfo) :
  let info1 :=
    ObjectDetector.mkSourceInfo (Some (a +:+ ":" +:+ pretty F)) (Some G) (Some c) in
  let info2 :=
    ObjectDetector.mkSourceInfo (Some a) (Some F) (Some (pretty G +:+ ":" +:+ c)) in
  info1 <> info2
  /\ ObjectDetector._generate_detection_id info1 idx
     = ObjectDetector._generate_detection_id info2 idx
  /\ ObjectDetector._generate_detection_id source_info idx
     = ObjectDetector._generate_detection_id
         (ObjectDetector.mkSourceInfo
            (Some (default "" (ObjectDetector.source source_info)))
            (Some (default 0 (ObjectDetector.frame_number source_info)))
            (Some (default "" (ObjectDetector.timestamp source_info))))
         idx.
Proof.
  intros info1 info2. split; [|split].
  - intros Heq. apply (f_equal ObjectDetector.source) in Heq.
    cbn [ObjectDetector.source] in Heq. injection Heq as Heq.
    revert Heq. apply longer_string_differs. discriminate.
  - subst info1 info2. unfold ObjectDetector._generate_detection_id.
    now rewrite unique_string_shifted.
  - reflexivity.
Qed.

Example detection_id_shifted_colon :
  ObjectDetector._generate_detection_id
    (ObjectDetector.mkSourceInfo (Some "cam:7") (Some 0) (Some "t")) 3
  = ObjectDetector._generate_detection_id
      (ObjectDetector.mkSourceInfo (Some "cam") (Some 7) (Some "0:t")) 3.
Proof. vm_compute. reflexivity. Qed.

(** ** The detector: when two ids coincide *)

Section HexFacts.
Import MD5.

Lemma hex_digit_single (n : Z) : exists c, hex_digit n = String c "".
Proof.
  unfold hex_digit. generalize (Z.to_nat n). intros k.
  do 16 (destruct k as [|k]; [eexists; reflexivity|]).
  destruct k; eexists; reflexivity.
Qed.

Lemma hex_digit_inj (a b : Z) :
  0 <= a < 16 -> 0 <= b < 16 -> hex_digit a = hex_digit b -> a = b.
Proof.
  intros Ha Hb. unfold hex_digit.
  rewrite <- (Z2Nat.id a), <- (Z2Nat.id b) at 2 by lia.
  assert (Hi : (Z.to_nat a < 16)%nat) by lia.
  assert (Hj : (Z.to_nat b < 16)%nat) by lia.
  revert Hi Hj. generalize (Z.to_nat a) (Z.to_nat b). clear. intros i j Hi Hj.
  do 16 (destruct i as [|i];
         [do 16 (destruct j as [|j];
                 [first [reflexivity | intros H; discriminate H]|]); lia|]).
  lia.
Qed.

Lemma single_app (c : Ascii.ascii) (str : string) : String c "" +:+ str = String c str.
Proof. reflexivity. Qed.

Lemma hex_cons_inj (b b' : Z) (rest rest' : string) :
  is_byte b -> is_byte b' ->
  hex_byte b +:+ rest = hex_byte b' +:+ rest' -> b = b' /\ rest = rest'.
Proof.
  unfold is_byte, hex_byte. intros Hb Hb' Heq.
  assert (Hhi : 0 <= b / 16 < 16) by (split; [apply Z.div_pos | apply Z.div_lt_upper_bound]; lia).
  assert (Hhi' : 0 <= b' / 16 < 16) by (split; [apply Z.div_pos | apply Z.div_lt_upper_bound]; lia).
  assert (Hlo : 0 <= b mod 16 < 16) by (apply Z.mod_pos_bound; lia).
  assert (Hlo' : 0 <= b' mod 16 < 16) by (apply Z.mod_pos_bound; lia).
  destruct (hex_digit_single (b / 16)) as [c1 E1].
  destruct (hex_digit_single (b mod 16)) as [c2 E2].
  destruct (hex_digit_single (b' / 16)) as [c1' E1'].
  destruct (hex_digit_single (b' mod 16)) as [c2' E2'].
  pose proof (hex_digit_inj _ _ Hhi Hhi') as Ihi.
  pose proof (hex_digit_inj _ _ Hlo Hlo') as Ilo.
  rewrite E1, E2, E1', E2' in *.
  rewrite !single_app in Heq. injection Heq as H1 H2 H3.
  split; [|exact H3].
  rewrite (Z.div_mod b 16), (Z.div_mod b' 16) by lia.
  rewrite Ihi, Ilo by congruence. reflexivity.
Qed.

Lemma hex_inj (bytes bytes' : list Z) :
  Forall is_byte bytes -> Forall is_byte bytes' ->
  hex bytes = hex bytes' -> bytes = bytes'.
Proof.
  intros Hb. revert bytes'.
  induction Hb as [|b bytes Hb _ IH]; intros bytes' Hb' Heq;
    destruct Hb' as [|b' bytes' Hb' Hbs'].
  - reflexivity.
  - exfalso. cbn [hex foldr] in Heq. unfold hex_byte in Heq.
    destruct (hex_digit_single (b' / 16)) as [c E]. rewrite E, single_app in Heq.
    discriminate Heq.
  - exfalso. cbn [hex foldr] in Heq. unfold hex_byte in Heq.
    destruct (hex_digit_single (b / 16)) as [c E]. rewrite E, single_app in Heq.
    discriminate Heq.
  - cbn [hex foldr] in Heq. apply hex_cons_inj in Heq as [-> Heq]; [|assumption..].
    f_equal. now apply IH.
Qed.

Lemma le_bytes_bytes (n : nat) (x : Z) : Forall is_byte (le_bytes n x).
Proof.
  unfold le_bytes. apply Forall_forall. intros b Hb.
  apply list_elem_of_fmap in Hb as (i & -> & _).
  apply Z.mod_pos_bound. lia.
Qed.

Lemma le_word_le_bytes (x : Z) : is_word x -> le_word (le_bytes 4 x) = x.
Proof.
  unfold is_word, le_bytes, le_word. intros Hx.
  cbn [seq map foldr]. rewrite !Z.shiftr_div_pow2 by lia.
  change (2 ^ (8 * Z.of_nat 0)) with 1. change (2 ^ (8 * Z.of_nat 1)) with 256.
  change (2 ^ (8 * Z.of_nat 2)) with 65536. change (2 ^ (8 * Z.of_nat 3)) with 16777216.
  change (2 ^ 32) with 4294967296 in Hx.
  Z.to_euclidean_division_equations. lia.
Qed.

Lemma state_bytes_inj (st st' : State) :
  words_state st -> words_state st' ->
  state_bytes st = state_bytes st' -> st = st'.
Proof.
  destruct st as [a b c d], st' as [a' b' c' d'].
  unfold words_state, state_bytes. cbn [A B C D].
  intros (Ha & Hb & Hc & Hd) (Ha' & Hb' & Hc' & Hd') Heq.
  apply app_inj_1 in Heq as [Ea Heq]; [|reflexivity].
  apply app_inj_1 in Heq as [Eb Heq]; [|reflexivity].
  apply app_inj_1 in Heq as [Ec Ed]; [|reflexivity].
  apply (f_equal le_word) in Ea, Eb, Ec, Ed.
  rewrite !le_word_le_bytes in Ea, Eb, Ec, Ed by assumption.
  congruence.
Qed.

(** The hexadecimal rendering loses nothing of the 128-bit state. *)
Lemma hexdigest_state (msg msg' : list Z) :
  hexdigest msg = hexdigest msg' <-> digest_state msg = digest_state msg'.
Proof.
  unfold hexdigest. split; [|now intros ->].
  intros Heq. apply state_bytes_inj; [apply digest_state_words..|].
  apply hex_inj; [| |exact Heq];
    unfold state_bytes; rewrite !Forall_app; repeat split; apply le_bytes_bytes.
Qed.

Lemma encode_inj (s1 s2 : string) : encode s1 = encode s2 -> s1 = s2.
Proof.
  unfold encode. intros Heq.
  rewrite <- (String.string_of_list_ascii_of_string s1),
          <- (String.string_of_list_ascii_of_string s2).
  f_equal. revert Heq.
  generalize (String.list_ascii_of_string s1) (String.list_ascii_of_string s2).
  intros l1. induction l1 as [|c1 l1 IH]; intros [|c2 l2] Heq;
    try reflexivity; try discriminate Heq.
  cbn [map] in Heq. injection Heq as Hc Hl.
  apply N2Z.inj in Hc.
  rewrite <- (Ascii.ascii_N_embedding c1), <- (Ascii.ascii_N_embedding c2), Hc.
  f_equal. now apply IH.
Qed.

End HexFacts.

(** X22.  For one [source_info], two different indexes always give two
    different byte strings to hash (the decimal rendering of the index and
    the encoding lose nothing), and the two ids are equal exactly when MD5
    ends in the same 128-bit state on these two byte strings (the
    hexadecimal rendering loses nothing): two detections of one frame share
    an id only through a collision of MD5 on their own two messages. *)
Theorem detection_ids_collide_only_with_md5 (source_info : ObjectDetector.SourceInfo)
    (idx1 idx2 : Z) :
  idx1 <> idx2 ->
  let m1 := MD5.encode (ObjectDetector.unique_string source_info idx1) in
  let m2 := MD5.encode (ObjectDetector.unique_string source_info idx2) in
  m1 <> m2
  /\ (ObjectDetector._generate_detection_id source_info idx1
      = ObjectDetector._generate_detection_id source_info idx2
      <-> MD5.digest_state m1 = MD5.digest_state m2).
Proof.
  intros Hne m1 m2. split.
  - intros Heq. apply encode_inj, unique_string_inj in Heq. contradiction.
  - unfold ObjectDetector._generate_detection_id. apply hexdigest_state.
Qed.

Lemma detection_ids_collide_only_with_md5_witness :
  MD5.encode (ObjectDetector.unique_string ObjectDetector.test_source_info 0)
  <> MD5.encode (ObjectDetector.unique_string ObjectDetector.test_source_info 1).
Proof.
  assert (H : 0 <> 1) by lia.
  exact (proj1 (detection_ids_collide_only_with_md5 ObjectDetector.test_source_info 0 1 H)).
Defined.
